(** * OpenRouter interface: the streaming conversation engine of [src/App.tsx]

    A shallow embedding of the chat client's state handling: the IndexedDB
    helpers, the debounced save, the chat and message handlers of the [App]
    component and the server-sent-event loop of [handleSendMessage], with the
    properties the specification states about them.

    Conventions of the embedding.
    - A JavaScript string is a [string]; one character stands for one UTF-16
      code unit, and the alphabet is restricted to the code units below 256.
    - Timestamps ([Date.now()], [created]) are integers in [Z].
    - A React state setter is an explicit state update.  [setX(v)] stores [v];
      [setX(prev => e)] queues the updater, and React runs the queued
      updaters, in call order, once the synchronous segment that called them
      has finished.  A ref read inside an updater
      ([streamingMessageRef.current]) is read when the updater runs.  In a
      segment that does not write the ref this is the ref's value at the
      call, and the updater is applied where it is called; the segment that
      meets the end of the stream writes the ref in its [finally], so the
      updater queued there runs on the state the segment leaves.
    - An [async] handler is the composition of its synchronous segments; a
      value the handler closes over is the value of the state at the call.
    - [uuidv4()] is a function of a call counter kept with the state.
    - The effects that persist the state after a render ([saveChatMetadata],
      [debouncedSaveChat]) are not part of the handlers; the debounced save
      is modelled on its own, with the time of each call. *)

From Stdlib Require Import String Ascii List ZArith Bool Lia.
From stdpp Require Import gmap strings.
Import ListNotations.

Local Open Scope string_scope.
Local Open Scope list_scope.

(** ** JavaScript string primitives used by the component *)

Module Js.

(** [s.startsWith(p)] *)
Definition startsWith (p s : string) : bool := String.prefix p s.

(** [s.slice(n)] for a non-negative literal [n] *)
Fixpoint slice (n : nat) (s : string) : string :=
  match n, s with
  | O, _ => s
  | S _, EmptyString => EmptyString
  | S n', String _ r => slice n' r
  end.

(** [s.substring(a, b)]: the code units from [min a b] up to [max a b],
    clamped to the length of [s]. *)
Definition substring (a b : nat) (s : string) : string :=
  String.substring (Nat.min a b) (Nat.max a b - Nat.min a b) s.

(** White space and line terminators of ECMAScript among the code units
    below 256: TAB, LF, VT, FF, CR, SP, NBSP. *)
Definition isWhiteSpace (c : ascii) : bool :=
  let n := nat_of_ascii c in
  (Nat.leb 9 n && Nat.leb n 13) || Nat.eqb n 32 || Nat.eqb n 160.

Fixpoint trimStart (s : string) : string :=
  match s with
  | EmptyString => EmptyString
  | String c r => if isWhiteSpace c then trimStart r else s
  end.

Fixpoint trimEnd (s : string) : string :=
  match s with
  | EmptyString => EmptyString
  | String c r =>
      match trimEnd r with
      | EmptyString => if isWhiteSpace c then EmptyString else String c EmptyString
      | r' => String c r'
      end
  end.

(** [s.trim()] *)
Definition trim (s : string) : string := trimEnd (trimStart s).

(** [\d] of a regular expression without the unicode flag: [0-9] *)
Definition isDigit (c : ascii) : bool :=
  let n := nat_of_ascii c in Nat.leb 48 n && Nat.leb n 57.

(** [s.split(sep)] for a separator of one code unit: the pieces between the
    occurrences of [sep]; never empty: the empty string splits into one empty piece. *)
Fixpoint split (sep : ascii) (s : string) : list string :=
  match s with
  | EmptyString => [EmptyString]
  | String c r =>
      if Ascii.eqb c sep then EmptyString :: split sep r
      else match split sep r with
           | piece :: pieces => String c piece :: pieces
           | [] => [String c EmptyString]
           end
  end.

(** Truthiness of a string: non-empty. *)
Definition truthy (s : string) : bool := negb (String.eqb s EmptyString).

(** [a || b] on strings that may be [undefined] *)
Definition orElse (a : option string) (b : string) : string :=
  match a with
  | Some s => if truthy s then s else b
  | None => b
  end.

(** Line feed, the separator of [chunk.split("\n")]. *)
Definition LF : ascii := ascii_of_nat 10.

End Js.

(** ** Data model: the TypeScript interfaces *)

Inductive Role := user | assistant | system.

Inductive MessageType := reasoning | regular.

Inductive ContentPart :=
| text_part (text : string)
| image_url_part (url : string).

(** [content: string | Array<...>] *)
Inductive Content :=
| Text (s : string)
| Parts (ps : list ContentPart).

Module Message.
Record t := mk {
  id : string;
  role : Role;
  content : Content;
  reasoning : option string;
  messageType : option MessageType
}.
End Message.

Module Chat.
Record t := mk {
  id : string;
  name : string;
  messages : list Message.t;
  activePresetIndex : nat;
  created : Z
}.
End Chat.

Module ChatMetadata.
Record t := mk {
  id : string;
  name : string;
  created : Z;
  messageCount : nat;
  lastModified : Z
}.
End ChatMetadata.

Module Preset.
Record t := mk {
  name : string;
  modelId : string;
  systemPrompt : string
}.
End Preset.

Global Instance Role_eq_dec : EqDecision Role.
Proof. solve_decision. Defined.

Global Instance MessageType_eq_dec : EqDecision MessageType.
Proof. solve_decision. Defined.

(** [hasDefaultName] takes a [Chat | ChatMetadata]: anything with a [name]. *)
Class Named (A : Type) := name_of : A -> string.

Global Instance Chat_named : Named Chat.t := Chat.name.
Global Instance ChatMetadata_named : Named ChatMetadata.t := ChatMetadata.name.

(** [/^Chat \d+$/.test(s)] *)
Definition matchesChatDigits (s : string) : bool :=
  Js.startsWith "Chat " s &&
  let digits := Js.slice 5 s in
  Js.truthy digits && forallb Js.isDigit (list_ascii_of_string digits).

Definition hasDefaultName {A} `{Named A} (chat : A) : bool :=
  matchesChatDigits (name_of chat).

(** [msg.messageType !== "reasoning"] *)
Definition notReasoning (msg : Message.t) : bool :=
  negb (bool_decide (Message.messageType msg = Some reasoning)).

(** [msg.messageType === "reasoning" && msg.id.startsWith("reasoning-")] *)
Definition isReasoningMessage (msg : Message.t) : bool :=
  bool_decide (Message.messageType msg = Some reasoning) &&
  Js.startsWith "reasoning-" (Message.id msg).

(** String conversion of a content value, as [+] applies it: a string is
    itself, an array is its elements joined by commas, each part object
    printing as [[object Object]]. *)
Definition contentToString (c : Content) : string :=
  match c with
  | Text s => s
  | Parts ps => String.concat "," (map (fun _ => "[object Object]") ps)
  end.

(** [c + s] *)
Definition contentPlus (c : Content) (s : string) : Content :=
  Text (contentToString c +:+ s).

(** ** The IndexedDB object store ([setItem], [getItem], [deleteItem]) *)

(** The values the component keeps in the store. *)
Inductive DBValue :=
| VApiKey (s : string)
| VPresets (ps : list Preset.t)
| VMetadata (ms : list ChatMetadata.t)
| VChat (c : Chat.t).

Definition setItem (key : string) (value : DBValue)
  (db : gmap string DBValue) : gmap string DBValue :=
  <[key := value]> db.

Definition getItem (key : string) (db : gmap string DBValue) : option DBValue :=
  db !! key.

Definition deleteItem (key : string) (db : gmap string DBValue)
  : gmap string DBValue :=
  delete key db.

Definition CHAT_METADATA_KEY : string := "ORI_chat_metadata".

(** The template [`ORI_chat_${chatId}`] *)
Definition chatKey (chatId : string) : string := "ORI_chat_" +:+ chatId.

Global Arguments chatKey : simpl never.

(** [loadChat]: the stored chat, or a falsy result when there is none. *)
Definition loadChat (chatId : string) (db : gmap string DBValue) : option Chat.t :=
  match getItem (chatKey chatId) db with
  | Some (VChat chat) => Some chat
  | _ => None
  end.

(** ** The debounced save ([createDebouncedSave])

    [pendingSaves] is a JavaScript [Map]: insertion ordered, [set] on a key
    already present replaces the value in place.  [lodash.debounce(f, 1000)]
    with its default options runs [f] once, 1000 ms after the latest call:
    every call re-arms the timer.  The state records the deadline of the
    armed timer and the log of the [setItem] calls issued so far. *)

Module DebouncedSave.

Record t := mk {
  pendingSaves : list (string * Chat.t);
  timer : option Z;
  writes : list (string * DBValue)
}.

Definition wait : Z := 1000.

(** [createDebouncedSave()] *)
Definition create : t := mk [] None [].

(** [Map.prototype.set] *)
Fixpoint mapSet (k : string) (v : Chat.t) (m : list (string * Chat.t))
  : list (string * Chat.t) :=
  match m with
  | [] => [(k, v)]
  | (k', v') :: rest =>
      if String.eqb k' k then (k, v) :: rest else (k', v') :: mapSet k v rest
  end.

(** [Map.prototype.get] *)
Fixpoint mapGet (k : string) (m : list (string * Chat.t)) : option Chat.t :=
  match m with
  | [] => None
  | (k', v') :: rest => if String.eqb k' k then Some v' else mapGet k rest
  end.

(** The debounced function: take the entries, clear the map, and issue one
    [setItem] per entry. *)
Definition executeSave (c : t) : t :=
  let saves := pendingSaves c in
  mk [] None
     (writes c ++ map (fun '(chatId, chat) => (chatKey chatId, VChat chat)) saves).

(** Time passes up to [now]: an armed timer whose deadline is reached fires. *)
Definition elapse (now : Z) (c : t) : t :=
  match timer c with
  | Some deadline => if (deadline <=? now)%Z then executeSave c else c
  | None => c
  end.

(** The function [createDebouncedSave] returns, called at time [now]. *)
Definition save (now : Z) (chatId : string) (chat : Chat.t) (c : t) : t :=
  let c := elapse now c in
  mk (mapSet chatId chat (pendingSaves c)) (Some (now + wait)%Z) (writes c).

(** The map a series of calls builds when no timer fires in between. *)
Definition pendingAfter (calls : list (Z * string * Chat.t))
  (m : list (string * Chat.t)) : list (string * Chat.t) :=
  fold_left (fun m '(_, chatId, chat) => mapSet chatId chat m) calls m.

(** A series of calls, each with its time. *)
Definition saveAll (calls : list (Z * string * Chat.t)) (c : t) : t :=
  fold_left (fun c '(now, chatId, chat) => save now chatId chat c) calls c.

(** The values written under the key of [chatId], in order. *)
Definition writesFor (chatId : string) (c : t) : list DBValue :=
  map snd (List.filter (fun w => String.eqb (fst w) (chatKey chatId)) (writes c)).

(** The snapshots a series of calls schedules for [chatId], in order. *)
Definition snapshotsFor (chatId : string) (calls : list (Z * string * Chat.t))
  : list Chat.t :=
  map snd (List.filter (fun call => String.eqb (snd (fst call)) chatId) calls).

(** The calls are made at non-decreasing times from [start] on. *)
Fixpoint chronological (start : Z) (calls : list (Z * string * Chat.t)) : Prop :=
  match calls with
  | [] => True
  | (now, _, _) :: rest => (start <= now)%Z /\ chronological now rest
  end.

End DebouncedSave.

(** ** The state of the [App] component *)

(** The object held by [streamingMessageRef]. *)
Module StreamingRef.
Record t := mk {
  chatId : string;
  messageId : string;
  content : string;
  reasoning : option string
}.
End StreamingRef.

(** The React state of [App], its ref, and the part of the environment the
    handlers act on: the object store, the alerts shown, the console, the
    [AbortController]s whose [abort()] was called, and the counters that
    number the controllers created and the [uuidv4()] calls. *)
Record App := mkApp {
  apiKey : string;
  chatMetadatas : list ChatMetadata.t;
  activeChat : option Chat.t;
  activeChatId : option string;
  presets : list Preset.t;
  isLoading : bool;
  isStreaming : bool;
  abortController : option nat;
  streamingMessageRef : option StreamingRef.t;
  db : gmap string DBValue;
  alerts : list string;
  console : list string;
  aborted : list nat;
  controllers : nat;
  uuidCalls : nat
}.

Definition setChatMetadatas (v : list ChatMetadata.t) (a : App) : App :=
  mkApp (apiKey a) v (activeChat a) (activeChatId a) (presets a) (isLoading a)
    (isStreaming a) (abortController a) (streamingMessageRef a) (db a)
    (alerts a) (console a) (aborted a) (controllers a) (uuidCalls a).

Definition setActiveChat (v : option Chat.t) (a : App) : App :=
  mkApp (apiKey a) (chatMetadatas a) v (activeChatId a) (presets a) (isLoading a)
    (isStreaming a) (abortController a) (streamingMessageRef a) (db a)
    (alerts a) (console a) (aborted a) (controllers a) (uuidCalls a).

Definition setActiveChatId (v : option string) (a : App) : App :=
  mkApp (apiKey a) (chatMetadatas a) (activeChat a) v (presets a) (isLoading a)
    (isStreaming a) (abortController a) (streamingMessageRef a) (db a)
    (alerts a) (console a) (aborted a) (controllers a) (uuidCalls a).

Definition setIsLoading (v : bool) (a : App) : App :=
  mkApp (apiKey a) (chatMetadatas a) (activeChat a) (activeChatId a) (presets a) v
    (isStreaming a) (abortController a) (streamingMessageRef a) (db a)
    (alerts a) (console a) (aborted a) (controllers a) (uuidCalls a).

Definition setIsStreaming (v : bool) (a : App) : App :=
  mkApp (apiKey a) (chatMetadatas a) (activeChat a) (activeChatId a) (presets a)
    (isLoading a) v (abortController a) (streamingMessageRef a) (db a)
    (alerts a) (console a) (aborted a) (controllers a) (uuidCalls a).

Definition setAbortController (v : option nat) (a : App) : App :=
  mkApp (apiKey a) (chatMetadatas a) (activeChat a) (activeChatId a) (presets a)
    (isLoading a) (isStreaming a) v (streamingMessageRef a) (db a)
    (alerts a) (console a) (aborted a) (controllers a) (uuidCalls a).

Definition setStreamingMessageRef (v : option StreamingRef.t) (a : App) : App :=
  mkApp (apiKey a) (chatMetadatas a) (activeChat a) (activeChatId a) (presets a)
    (isLoading a) (isStreaming a) (abortController a) v (db a)
    (alerts a) (console a) (aborted a) (controllers a) (uuidCalls a).

Definition setDb (v : gmap string DBValue) (a : App) : App :=
  mkApp (apiKey a) (chatMetadatas a) (activeChat a) (activeChatId a) (presets a)
    (isLoading a) (isStreaming a) (abortController a) (streamingMessageRef a) v
    (alerts a) (console a) (aborted a) (controllers a) (uuidCalls a).

(** [alert(text)] *)
Definition alert (text : string) (a : App) : App :=
  mkApp (apiKey a) (chatMetadatas a) (activeChat a) (activeChatId a) (presets a)
    (isLoading a) (isStreaming a) (abortController a) (streamingMessageRef a) (db a)
    (alerts a ++ [text]) (console a) (aborted a) (controllers a) (uuidCalls a).

(** [console.log(text)] and [console.error(text, ...)] *)
Definition consoleLog (text : string) (a : App) : App :=
  mkApp (apiKey a) (chatMetadatas a) (activeChat a) (activeChatId a) (presets a)
    (isLoading a) (isStreaming a) (abortController a) (streamingMessageRef a) (db a)
    (alerts a) (console a ++ [text]) (aborted a) (controllers a) (uuidCalls a).

(** [controller.abort()] *)
Definition abort (controller : nat) (a : App) : App :=
  mkApp (apiKey a) (chatMetadatas a) (activeChat a) (activeChatId a) (presets a)
    (isLoading a) (isStreaming a) (abortController a) (streamingMessageRef a) (db a)
    (alerts a) (console a) (controller :: aborted a) (controllers a) (uuidCalls a).

(** [new AbortController()]: the next controller; its signal is not aborted. *)
Definition newAbortController (a : App) : nat * App :=
  (controllers a,
   mkApp (apiKey a) (chatMetadatas a) (activeChat a) (activeChatId a) (presets a)
     (isLoading a) (isStreaming a) (abortController a) (streamingMessageRef a) (db a)
     (alerts a) (console a)
     (List.filter (fun c => negb (Nat.eqb (controllers a) c)) (aborted a))
     (S (controllers a)) (uuidCalls a)).

(** [signal.aborted] of a controller *)
Definition signalAborted (controller : nat) (a : App) : bool :=
  existsb (Nat.eqb controller) (aborted a).

(** ** Decoding one [data:] payload

    What the loop reads off a payload: [JSON.parse(data)], then
    [parsed.choices?.[0]?.delta], then the fields [content] and [reasoning]
    of the delta.  A field that is truthy is appended to its accumulator, which
    converts it to a string; a field that is falsy or missing is skipped. *)

Module Delta.
Record t := mk {
  content : option string;
  reasoning : option string
}.
End Delta.

(** A reader for JSON texts, the instance of the decoding the properties of
    the loop are stated for.  Two kinds of payload are outside it, in keeping
    with the alphabet of the embedding: a string with a [\u] escape that
    names a code unit of 256 or more is not read, where [JSON.parse] reads it;
    and a number is kept as its lexeme, so a delta field that is a number
    converts to the text JavaScript prints only when the lexeme is that text
    (an integer without sign, leading zero, fraction or exponent that fits a
    double; not [1.50] or [1e2]). *)
Module Json.

Local Unset Elimination Schemes.

Inductive value :=
| JNull
| JBool (b : bool)
| JNumber (lexeme : string)
| JString (s : string)
| JArray (elements : list value)
| JObject (members : list (string * value)).

Local Set Elimination Schemes.

Definition isWs (c : ascii) : bool :=
  let n := nat_of_ascii c in
  Nat.eqb n 32 || Nat.eqb n 9 || Nat.eqb n 10 || Nat.eqb n 13.

Fixpoint skipWs (s : string) : string :=
  match s with
  | String c r => if isWs c then skipWs r else s
  | EmptyString => s
  end.

Definition hexDigit (c : ascii) : option nat :=
  let n := nat_of_ascii c in
  if Nat.leb 48 n && Nat.leb n 57 then Some (n - 48)
  else if Nat.leb 97 n && Nat.leb n 102 then Some (n - 87)
  else if Nat.leb 65 n && Nat.leb n 70 then Some (n - 55)
  else None.

(** The double quote, code unit 34. *)
Definition quote : ascii := ascii_of_nat 34.

Definition unescape (c : ascii) : option ascii :=
  if Ascii.eqb c quote then Some quote
  else match c with
       | "\"%char => Some "\"%char
       | "/"%char => Some "/"%char
       | "b"%char => Some (ascii_of_nat 8)
       | "f"%char => Some (ascii_of_nat 12)
       | "n"%char => Some (ascii_of_nat 10)
       | "r"%char => Some (ascii_of_nat 13)
       | "t"%char => Some (ascii_of_nat 9)
       | _ => None
       end.

(** The characters of a string literal after its opening quote, and the text
    after the closing quote. *)
Fixpoint stringBody (s : string) : option (string * string) :=
  match s with
  | EmptyString => None
  | String c r =>
      if Ascii.eqb c quote then Some (EmptyString, r)
      else if Ascii.eqb c "\" then
        match r with
        | String "u" (String h1 (String h2 (String h3 (String h4 r')))) =>
            match hexDigit h1, hexDigit h2, hexDigit h3, hexDigit h4 with
            | Some 0, Some 0, Some d3, Some d4 =>
                match stringBody r' with
                | Some (body, rest) =>
                    Some (String (ascii_of_nat (16 * d3 + d4)) body, rest)
                | None => None
                end
            | _, _, _, _ => None
            end
        | String e r' =>
            match unescape e, stringBody r' with
            | Some ch, Some (body, rest) => Some (String ch body, rest)
            | _, _ => None
            end
        | EmptyString => None
        end
      else if Nat.ltb (nat_of_ascii c) 32 then None
      else match stringBody r with
           | Some (body, rest) => Some (String c body, rest)
           | None => None
           end
  end.

(** The longest run of decimal digits at the head of [s], and what follows. *)
Fixpoint digits (s : string) : string * string :=
  match s with
  | String c r =>
      if Js.isDigit c then let '(ds, rest) := digits r in (String c ds, rest)
      else (EmptyString, s)
  | EmptyString => (EmptyString, s)
  end.

(** A number lexeme: an optional minus sign; a zero, or a digit from 1 to 9
    and further digits; an optional point with one or more digits; an optional
    exponent, [e] or [E], an optional sign and one or more digits. *)
Definition number (s : string) : option (string * string) :=
  let '(sign, s1) :=
    match s with
    | String "-" r => ("-", r)
    | _ => (EmptyString, s)
    end in
  let '(int, s2) :=
    match s1 with
    | String "0" r => ("0", r)
    | _ => digits s1
    end in
  if negb (Js.truthy int) then None else
  let frac :=
    match s2 with
    | String "." r =>
        let '(ds, rest) := digits r in
        if Js.truthy ds then Some ("." +:+ ds, rest) else None
    | _ => Some (EmptyString, s2)
    end in
  match frac with
  | None => None
  | Some (f, s3) =>
      let exp :=
        match s3 with
        | String e r =>
            if Ascii.eqb e "e" || Ascii.eqb e "E" then
              let '(sg, r1) :=
                match r with
                | String "+" r' => ("+", r')
                | String "-" r' => ("-", r')
                | _ => (EmptyString, r)
                end in
              let '(ds, rest) := digits r1 in
              if Js.truthy ds then Some (String e sg +:+ ds, rest) else None
            else Some (EmptyString, s3)
        | EmptyString => Some (EmptyString, s3)
        end in
      match exp with
      | None => None
      | Some (x, rest) => Some (sign +:+ int +:+ f +:+ x, rest)
      end
  end.

(** One JSON value at the head of [s] (after white space), and the rest.
    [fuel] bounds the number of values and separators read. *)
Fixpoint parseValue (fuel : nat) (s : string) : option (value * string) :=
  match fuel with
  | O => None
  | S fuel =>
      match skipWs s with
      | String "{" r =>
          match skipWs r with
          | String "}" r' => Some (JObject [], r')
          | _ =>
              match parseMembers fuel r with
              | Some (ms, rest) => Some (JObject ms, rest)
              | None => None
              end
          end
      | String "[" r =>
          match skipWs r with
          | String "]" r' => Some (JArray [], r')
          | _ =>
              match parseElements fuel r with
              | Some (es, rest) => Some (JArray es, rest)
              | None => None
              end
          end
      | String c r as s' =>
          if Ascii.eqb c quote then
            match stringBody r with
            | Some (str, rest) => Some (JString str, rest)
            | None => None
            end
          else if Js.startsWith "true" s' then Some (JBool true, Js.slice 4 s')
          else if Js.startsWith "false" s' then Some (JBool false, Js.slice 5 s')
          else if Js.startsWith "null" s' then Some (JNull, Js.slice 4 s')
          else match number s' with
               | Some (lexeme, rest) => Some (JNumber lexeme, rest)
               | None => None
               end
      | EmptyString => None
      end
  end
with parseElements (fuel : nat) (s : string) : option (list value * string) :=
  match fuel with
  | O => None
  | S fuel =>
      match parseValue fuel s with
      | Some (v, rest) =>
          match skipWs rest with
          | String "," r =>
              match parseElements fuel r with
              | Some (vs, rest') => Some (v :: vs, rest')
              | None => None
              end
          | String "]" r => Some ([v], r)
          | _ => None
          end
      | None => None
      end
  end
with parseMembers (fuel : nat) (s : string)
  : option (list (string * value) * string) :=
  match fuel with
  | O => None
  | S fuel =>
      match skipWs s with
      | String c r =>
          match (if Ascii.eqb c quote then stringBody r else None) with
          | Some (key, rest) =>
              match skipWs rest with
              | String ":" r1 =>
                  match parseValue fuel r1 with
                  | Some (v, rest1) =>
                      match skipWs rest1 with
                      | String "," r2 =>
                          match parseMembers fuel r2 with
                          | Some (ms, rest2) => Some ((key, v) :: ms, rest2)
                          | None => None
                          end
                      | String "}" r2 => Some ([(key, v)], r2)
                      | _ => None
                      end
                  | None => None
                  end
              | _ => None
              end
          | None => None
          end
      | EmptyString => None
      end
  end.

(** [JSON.parse(text)]; [None] when it throws a [SyntaxError]. *)
Definition parse (text : string) : option value :=
  match parseValue (S (String.length text)) text with
  | Some (v, rest) =>
      match skipWs rest with
      | EmptyString => Some v
      | _ => None
      end
  | None => None
  end.

(** [v[key]] on a value that is neither [null] nor [undefined]; [None] is
    [undefined].  In an object the last member of that name counts. *)
Fixpoint member (key : string) (ms : list (string * value)) : option value :=
  match ms with
  | [] => None
  | (k, v) :: rest =>
      match member key rest with
      | Some v' => Some v'
      | None => if String.eqb k key then Some v else None
      end
  end.

Definition getProp (key : string) (v : value) : option value :=
  match v with
  | JObject ms => member key ms
  | _ => None
  end.

(** [v?.[0]] *)
Definition getFirst (v : option value) : option value :=
  match v with
  | Some (JArray es) => head es
  | Some (JString (String c _)) => Some (JString (String c EmptyString))
  | Some (JObject ms) => member "0" ms
  | _ => None
  end.

(** [v?.key] *)
Definition optProp (key : string) (v : option value) : option value :=
  match v with
  | Some JNull | None => None
  | Some v' => getProp key v'
  end.

(** Truthiness of a value; a number is falsy when its mantissa is zero. *)
Definition mantissaNonZero (lexeme : string) : bool :=
  let fix go (s : string) : bool :=
    match s with
    | EmptyString => false
    | String c r =>
        if Ascii.eqb c "e" || Ascii.eqb c "E" then false
        else (Js.isDigit c && negb (Ascii.eqb c "0")) || go r
    end in
  go lexeme.

Definition truthy (v : option value) : bool :=
  match v with
  | None | Some JNull => false
  | Some (JBool b) => b
  | Some (JNumber lexeme) => mantissaNonZero lexeme
  | Some (JString s) => Js.truthy s
  | Some (JArray _) | Some (JObject _) => true
  end.

(** The string a value converts to under [+=]; a number prints as its
    lexeme, which is what JavaScript prints for the integers without sign,
    leading zero, fraction or exponent that fit a double, and not for other
    lexemes. *)
Fixpoint toString (v : value) : string :=
  match v with
  | JNull => "null"
  | JBool true => "true"
  | JBool false => "false"
  | JNumber lexeme => lexeme
  | JString s => s
  | JArray es =>
      String.concat ","
        (map (fun e => match e with JNull => EmptyString | _ => toString e end) es)
  | JObject _ => "[object Object]"
  end.

(** A field of the delta as the loop uses it: present when truthy. *)
Definition field (key : string) (delta : option value) : option string :=
  let v := optProp key delta in
  if truthy v then option_map toString v else None.

(** The body of the [try]: [None] when [JSON.parse] throws, or when
    [parsed] is [null] and [parsed.choices] throws. *)
Definition decode (data : string) : option Delta.t :=
  match parse data with
  | None | Some JNull => None
  | Some parsed =>
      let delta := optProp "delta" (getFirst (getProp "choices" parsed)) in
      Some (Delta.mk (field "content" delta) (field "reasoning" delta))
  end.

(** Examples are written with the apostrophe for the double quote. *)
Fixpoint quoted (s : string) : string :=
  match s with
  | EmptyString => EmptyString
  | String c r => String (if Ascii.eqb c "'" then quote else c) (quoted r)
  end.

End Json.

(** ** The handlers of [App] *)

(** The [Partial<ChatMetadata>] objects the handlers pass. *)
Record MetadataUpdates := mkUpdates {
  newName : option string;
  newMessageCount : option nat
}.

(** The [{role, content}] objects sent to the API. *)
Record ApiMessage := mkApiMessage {
  apiRole : Role;
  apiContent : Content
}.

(** How the body of [handleSendMessage] is left. *)
Inductive Exit :=
| Returned
| Threw (name : string).

(** The locals of the streaming loop: the controller of the request, the
    two accumulators, and whether [updateTimer] holds a pending timeout. *)
Record Loop := mkLoop {
  controller : nat;
  accumulatedContent : string;
  accumulatedReasoning : string;
  updateTimer : bool
}.

(** Where a call of [handleSendMessage] stands: it returned at once, it
    awaits [fetch], it is in the read loop, or it has left its [try]. *)
Inductive Turn :=
| NotStarted
| Sending (ctl : nat) (request : list ApiMessage)
| Streaming (l : Loop)
| Ended (e : Exit).

(** What settles the promise the handler awaits. *)
Inductive Wire :=
| Response (ok : bool) (hasBody : bool)
| Chunk (text : string)
| Close
| Failure (name : string).

Inductive Event :=
| FromWire (w : Wire)
| TimerFires
| Stop.

(** [arr.findIndex(p)] *)
Fixpoint findIndex {A} (p : A -> bool) (l : list A) : Z :=
  match l with
  | [] => (-1)%Z
  | x :: rest =>
      if p x then 0%Z
      else let i := findIndex p rest in if (i <? 0)%Z then (-1)%Z else (i + 1)%Z
  end.

(** [arr.splice(start, 0, x)] on a copy: a negative [start] counts from the
    end, and the position is clamped to the array. *)
Definition spliceInsert {A} (start : Z) (x : A) (l : list A) : list A :=
  let len := Z.of_nat (length l) in
  let pos := if (start <? 0)%Z then Z.max (len + start) 0 else Z.min start len in
  firstn (Z.to_nat pos) l ++ x :: skipn (Z.to_nat pos) l.

(** [arr.slice(0, -1)] *)
Definition dropLast {A} (l : list A) : list A := removelast l.

(** [arr[arr.length - 1]] *)
Definition lastOf {A} (l : list A) : option A := last l.

(** [prev.id !== streamingMessageRef.current?.chatId] *)
Definition otherChat (cur : option StreamingRef.t) (prev : Chat.t) : bool :=
  match cur with
  | Some r => negb (String.eqb (Chat.id prev) (StreamingRef.chatId r))
  | None => true
  end.

(** [msg.id === streamingMessageRef.current?.messageId] *)
Definition isStreamingMessage (cur : option StreamingRef.t) (msg : Message.t) : bool :=
  match cur with
  | Some r => String.eqb (Message.id msg) (StreamingRef.messageId r)
  | None => false
  end.

Definition withMessages (msgs : list Message.t) (chat : Chat.t) : Chat.t :=
  Chat.mk (Chat.id chat) (Chat.name chat) msgs (Chat.activePresetIndex chat)
    (Chat.created chat).

Definition withContent (c : Content) (msg : Message.t) : Message.t :=
  Message.mk (Message.id msg) (Message.role msg) c (Message.reasoning msg)
    (Message.messageType msg).

Definition withReasoning (r : string) (msg : Message.t) : Message.t :=
  Message.mk (Message.id msg) (Message.role msg) (Message.content msg) (Some r)
    (Message.messageType msg).

(** The function [flushUpdate] maps over the messages. *)
Definition flushMessage (cur : option StreamingRef.t)
  (finalContent finalReasoning : string) (msg : Message.t) : Message.t :=
  if isStreamingMessage cur msg then
    withContent (contentPlus (Message.content msg) finalContent) msg
  else if isReasoningMessage msg then
    withReasoning (Js.orElse (Message.reasoning msg) EmptyString
                     +:+ finalReasoning) msg
  else msg.

(** The updater of [flushUpdate], on [prev]; [cur] is
    [streamingMessageRef.current] as the updater reads it when it runs. *)
Definition flushUpdater (cur : option StreamingRef.t)
  (finalContent finalReasoning : string) (prev : option Chat.t) : option Chat.t :=
  match prev with
  | None => None
  | Some p =>
      if otherChat cur p then Some p
      else Some (withMessages
                   (map (flushMessage cur finalContent finalReasoning)
                      (Chat.messages p)) p)
  end.

(** The call of [flushUpdate]: the test on the ref and on the accumulators;
    when it passes, the updater is queued with the two texts it closes over,
    and the accumulators are cleared. *)
Definition flushUpdateCall (a : App) (l : Loop) : option (string * string) * Loop :=
  match streamingMessageRef a with
  | Some _ =>
      if Js.truthy (accumulatedContent l) || Js.truthy (accumulatedReasoning l) then
        (Some (accumulatedContent l, accumulatedReasoning l),
         mkLoop (controller l) EmptyString EmptyString (updateTimer l))
      else (None, l)
  | None => (None, l)
  end.

(** React runs the updater a call of [flushUpdate] has queued, on the state
    [a]: the updater reads the ref as it is then. *)
Definition runFlushUpdater (queued : option (string * string)) (a : App) : App :=
  match queued with
  | Some (finalContent, finalReasoning) =>
      setActiveChat
        (flushUpdater (streamingMessageRef a) finalContent finalReasoning
           (activeChat a)) a
  | None => a
  end.

(** [flushUpdate()] in a segment that leaves the ref as it is: the call, and
    its updater run on the same state. *)
Definition flushUpdate (st : App * Loop) : App * Loop :=
  let '(a, l) := st in
  let '(queued, l) := flushUpdateCall a l in
  (runFlushUpdater queued a, l).

(** The callback of [setTimeout]: [flushUpdate(); updateTimer = null]. *)
Definition timerCallback (st : App * Loop) : App * Loop :=
  let '(a, l) := flushUpdate st in
  (a, mkLoop (controller l) (accumulatedContent l) (accumulatedReasoning l) false).

(** [catch] and [finally] of [handleSendMessage]. *)
Definition finishTurn (e : Exit) (a : App) : App :=
  let a :=
    match e with
    | Returned => a
    | Threw name =>
        if String.eqb name "AbortError" then consoleLog "Request was aborted" a
        else alert "Failed to send message. Please check your API key and try again."
               (consoleLog "Failed to send message:" a)
    end in
  setAbortController None
    (setIsStreaming false (setIsLoading false (setStreamingMessageRef None a))).

Definition handleStopMessage (a : App) : App :=
  match abortController a with
  | Some c =>
      setIsLoading false (setIsStreaming false (setAbortController None (abort c a)))
  | None => a
  end.

Definition updateChatMetadata (now : Z) (chatId : string)
  (updates : MetadataUpdates) (a : App) : App :=
  setChatMetadatas
    (map (fun meta =>
       if String.eqb (ChatMetadata.id meta) chatId then
         ChatMetadata.mk (ChatMetadata.id meta)
           (default (ChatMetadata.name meta) (newName updates))
           (ChatMetadata.created meta)
           (default (ChatMetadata.messageCount meta) (newMessageCount updates))
           now
       else meta) (chatMetadatas a)) a.

Definition handleSelectChat (chatId : string) (a : App) : App :=
  if bool_decide (activeChatId a = Some chatId) then a
  else
    let a :=
      match activeChat a with
      | Some chat => setDb (setItem (chatKey (Chat.id chat)) (VChat chat) (db a)) a
      | None => a
      end in
    match loadChat chatId (db a) with
    | Some chat => setActiveChatId (Some chatId) (setActiveChat (Some chat) a)
    | None => a
    end.

(** [metas.reduce((newest, current) =>
      current.created > newest.created ? current : newest)];
    [None] on the empty array. *)
Definition newestOf (metas : list ChatMetadata.t) : option ChatMetadata.t :=
  match metas with
  | [] => None
  | first :: rest =>
      Some (fold_left (fun newest current =>
              if (ChatMetadata.created current >? ChatMetadata.created newest)%Z
              then current else newest) rest first)
  end.

Definition handleDeleteChat (chatId : string) (a : App) : App :=
  let keep := fun meta => negb (String.eqb (ChatMetadata.id meta) chatId) in
  let a1 := setDb (deleteItem (chatKey chatId) (db a)) a in
  let a2 := setChatMetadatas (List.filter keep (chatMetadatas a1)) a1 in
  if bool_decide (activeChatId a = Some chatId) then
    let remainingChats := List.filter keep (chatMetadatas a) in
    match newestOf remainingChats with
    | Some newest => handleSelectChat (ChatMetadata.id newest) a2
    | None => setActiveChatId None (setActiveChat None a2)
    end
  else a2.

Definition handleDeleteMessage (now : Z) (messageId : string) (a : App) : App :=
  match activeChat a with
  | None => a
  | Some prev =>
      let updatedChat :=
        withMessages
          (List.filter (fun msg => negb (String.eqb (Message.id msg) messageId))
             (Chat.messages prev)) prev in
      setActiveChat (Some updatedChat)
        (updateChatMetadata now (Chat.id prev)
           (mkUpdates None (Some (length (Chat.messages updatedChat)))) a)
  end.

Section Handlers.

(** [uuidv4()], as a function of the number of earlier calls. *)
Variable uuidv4 : nat -> string.

(** The decoding of a payload; [Json.decode] is the instance. *)
Variable decode : string -> option Delta.t.

Definition uuid (a : App) : string * App :=
  (uuidv4 (uuidCalls a),
   mkApp (apiKey a) (chatMetadatas a) (activeChat a) (activeChatId a) (presets a)
     (isLoading a) (isStreaming a) (abortController a) (streamingMessageRef a) (db a)
     (alerts a) (console a) (aborted a) (controllers a) (S (uuidCalls a))).

Definition handleAppendMessage (now : Z) (content : string) (a : App) : App :=
  match activeChat a with
  | None => a
  | Some chat =>
      let newRole :=
        match lastOf (Chat.messages chat) with
        | None => user
        | Some lastMessage =>
            if bool_decide (Message.role lastMessage = assistant) then user
            else assistant
        end in
      let '(newId, a) := uuid a in
      let newMessage := Message.mk newId newRole (Text content) None (Some regular) in
      let prev := chat in
      let updatedName :=
        if Js.truthy content && bool_decide (newRole = user) && hasDefaultName prev
        then Js.substring 0 20 (Js.trim content)
        else Chat.name prev in
      let updatedChat :=
        Chat.mk (Chat.id prev) updatedName (Chat.messages prev ++ [newMessage])
          (Chat.activePresetIndex prev) (Chat.created prev) in
      setActiveChat (Some updatedChat)
        (updateChatMetadata now (Chat.id prev)
           (mkUpdates (Some updatedName) (Some (length (Chat.messages updatedChat))))
           a)
  end.

(** The messages of the request body; [None] when [preset] is undefined and
    [preset.systemPrompt] throws. *)
Definition apiMessagesOf (preset : option Preset.t)
  (updatedMessages : list Message.t) : option (list ApiMessage) :=
  match preset with
  | None => None
  | Some preset =>
      let messagesForApi :=
        map (fun msg => mkApiMessage (Message.role msg) (Message.content msg))
          (dropLast updatedMessages) in
      Some (if Js.truthy (Preset.systemPrompt preset)
            then mkApiMessage system (Text (Preset.systemPrompt preset)) :: messagesForApi
            else messagesForApi)
  end.

(** [handleSendMessage] up to its first [await]. *)
Definition handleSendMessage (now : Z) (content : string) (a : App) : App * Turn :=
  match activeChat a with
  | None => (alert "Please set your API key in settings" a, NotStarted)
  | Some chat =>
      if negb (Js.truthy (apiKey a)) then
        (alert "Please set your API key in settings" a, NotStarted)
      else
        let messagesWithoutReasoning := List.filter notReasoning (Chat.messages chat) in
        let preset := presets a !! Chat.activePresetIndex chat in
        let '(assistantId, a) := uuid a in
        let assistantMessage :=
          Message.mk assistantId assistant (Text EmptyString) None (Some regular) in
        let currentMessages := messagesWithoutReasoning in
        let '(updatedMessages, a) :=
          if Js.truthy content then
            let '(userId, a) := uuid a in
            let userMessage :=
              Message.mk userId user (Text content) None (Some regular) in
            (currentMessages ++ [userMessage; assistantMessage], a)
          else (currentMessages ++ [assistantMessage], a) in
        let updatedChatName :=
          if Js.truthy content && hasDefaultName chat
          then Js.substring 0 20 (Js.trim content)
          else Chat.name chat in
        let updatedChat :=
          Chat.mk (Chat.id chat) updatedChatName updatedMessages
            (Chat.activePresetIndex chat) (Chat.created chat) in
        let a := setActiveChat (Some updatedChat) a in
        let a :=
          updateChatMetadata now (Chat.id chat)
            (mkUpdates (Some updatedChatName) (Some (length updatedMessages))) a in
        let a :=
          setStreamingMessageRef
            (Some (StreamingRef.mk (Chat.id chat) assistantId EmptyString
                     (Some EmptyString))) a in
        let '(ctl, a) := newAbortController a in
        let a := setIsStreaming true (setIsLoading true (setAbortController (Some ctl) a)) in
        match apiMessagesOf preset updatedMessages with
        | Some apiMessages => (a, Sending ctl apiMessages)
        | None => (finishTurn (Threw "TypeError") a, Ended (Threw "TypeError"))
        end
  end.

(** The updater that creates the reasoning message when there is none, run
    on the state [a]; the segment that queues it does not write the ref. *)
Definition createReasoningMessage (a : App) : App :=
  let cur := streamingMessageRef a in
  match activeChat a with
  | None => a
  | Some prev =>
      if otherChat cur prev then a
      else
        match find isReasoningMessage (Chat.messages prev) with
        | Some existingReasoningMsg => a
        | None =>
            let '(newId, a) := uuid a in
            let reasoningMessage :=
              Message.mk ("reasoning-" +:+ newId) assistant (Text EmptyString)
                (Some EmptyString) (Some reasoning) in
            let assistantIndex :=
              findIndex (isStreamingMessage cur) (Chat.messages prev) in
            let newMessages :=
              spliceInsert assistantIndex reasoningMessage (Chat.messages prev) in
            setActiveChat (Some (withMessages newMessages prev)) a
        end
  end.

(** The two [if] statements on a decoded delta. *)
Definition onDelta (delta : Delta.t) (st : App * Loop) : App * Loop :=
  let '(a, l) := st in
  let l :=
    match Delta.content delta with
    | Some text =>
        mkLoop (controller l) (accumulatedContent l +:+ text)
          (accumulatedReasoning l) true
    | None => l
    end in
  match Delta.reasoning delta with
  | Some text =>
      (createReasoningMessage a,
       mkLoop (controller l) (accumulatedContent l)
         (accumulatedReasoning l +:+ text) true)
  | None => (a, l)
  end.

(** The body of [for (const line of lines)]. *)
Definition processLine (st : App * Loop) (line : string) : App * Loop :=
  if Js.startsWith "data: " line then
    let data := Js.slice 6 line in
    if String.eqb data "[DONE]" then st
    else
      match decode data with
      | Some delta => onDelta delta st
      | None => (consoleLog "Failed to parse SSE data:" (fst st), snd st)
      end
  else st.

(** One iteration of the read loop on a decoded chunk. *)
Definition readChunk (st : App * Loop) (chunk : string) : App * Loop :=
  fold_left processLine (Js.split Js.LF chunk) st.

(** The handler leaves its [try] through [catch] or past the loop. *)
Definition leave (e : Exit) (a : App) : App * Turn :=
  (finishTurn e a, Ended e).

(** One event of a turn.  A promise the handler awaits rejects with an
    [AbortError] once the controller of the request is aborted.  A timeout
    still pending when the handler has left finds the ref cleared.  At the end
    of the stream the handler calls [flushUpdate], leaves the loop and runs
    its [finally] in one segment: the updater queued by that call runs after
    [finally] has cleared the ref. *)
Definition step (st : App * Turn) (ev : Event) : App * Turn :=
  let '(a, turn) := st in
  match ev, turn with
  | Stop, _ => (handleStopMessage a, turn)
  | TimerFires, Streaming l =>
      if updateTimer l then
        let '(a, l) := timerCallback (a, l) in (a, Streaming l)
      else st
  | FromWire w, Sending ctl request =>
      if signalAborted ctl a then leave (Threw "AbortError") a
      else
        match w with
        | Response ok hasBody =>
            if negb ok then leave (Threw "Error") a
            else if negb hasBody then leave (Threw "Error") a
            else (a, Streaming (mkLoop ctl EmptyString EmptyString false))
        | Failure name => leave (Threw name) a
        | _ => st
        end
  | FromWire w, Streaming l =>
      if signalAborted (controller l) a then leave (Threw "AbortError") a
      else
        match w with
        | Chunk text =>
            let '(a, l) := readChunk (a, l) text in (a, Streaming l)
        | Close =>
            let '(queued, l) := flushUpdateCall a l in
            let '(a, turn) := leave Returned a in
            (runFlushUpdater queued a, turn)
        | Failure name => leave (Threw name) a
        | Response _ _ => st
        end
  | _, _ => st
  end.

Definition run (events : list Event) (st : App * Turn) : App * Turn :=
  fold_left step events st.

(** *** The deltas a stream carries *)

(** The delta a line yields, if any. *)
Definition lineDelta (line : string) : option Delta.t :=
  if Js.startsWith "data: " line then
    let data := Js.slice 6 line in
    if String.eqb data "[DONE]" then None else decode data
  else None.

(** The deltas of one chunk, in the order of its lines. *)
Definition chunkDeltas (chunk : string) : list Delta.t :=
  omap lineDelta (Js.split Js.LF chunk).

(** The deltas of the chunks among a series of events, in order. *)
Definition eventDeltas (events : list Event) : list Delta.t :=
  flat_map (fun ev =>
    match ev with
    | FromWire (Chunk text) => chunkDeltas text
    | _ => []
    end) events.

End Handlers.

(** The texts a series of deltas carries, concatenated in order. *)
Definition answerText (deltas : list Delta.t) : string :=
  fold_right (fun d acc => default EmptyString (Delta.content d) +:+ acc)
    EmptyString deltas.

Definition reasoningText (deltas : list Delta.t) : string :=
  fold_right (fun d acc => default EmptyString (Delta.reasoning d) +:+ acc)
    EmptyString deltas.

Definition carriesReasoning (deltas : list Delta.t) : bool :=
  existsb (fun d => bool_decide (is_Some (Delta.reasoning d))) deltas.

(** The classes of the specification for the ways a turn ends. *)
Inductive Outcome := Completed | Aborted | Failed.

Definition outcomeOf (e : Exit) : Outcome :=
  match e with
  | Returned => Completed
  | Threw name => if String.eqb name "AbortError" then Aborted else Failed
  end.

(** The entry of the metadata index for a chat. *)
Definition metadataOf (chatId : string) (a : App) : option ChatMetadata.t :=
  find (fun meta => String.eqb (ChatMetadata.id meta) chatId) (chatMetadatas a).

(** ** Vocabulary of the properties *)

(** The assistant message a send appends, with the text applied so far. *)
Definition placeholder (messageId text : string) : Message.t :=
  Message.mk messageId assistant (Text text) None (Some regular).

(** The reasoning message of a turn, with the text applied so far. *)
Definition reasoningMessage (messageId text : string) : Message.t :=
  Message.mk messageId assistant (Text EmptyString) (Some text) (Some reasoning).

(** The reasoning message of the turn exists once a delta has carried
    reasoning. *)
Definition reasoningPart (deltas : list Delta.t) (applied : string)
  (part : list Message.t) : Prop :=
  if carriesReasoning deltas
  then exists rid, part = [reasoningMessage ("reasoning-" +:+ rid) applied]
  else part = [] /\ applied = EmptyString.

(** What holds between the events of a turn on chat [cid] whose assistant
    message is [aid] and whose request carried [sent], [deltas] being the
    deltas received so far: the texts applied to the messages followed by
    the texts in the accumulators are the texts received. *)
Inductive TurnInv (cid aid : string) (sent : list Message.t)
  (deltas : list Delta.t) (a : App) (l : Loop) : Prop :=
| turn_inv (r : StreamingRef.t) (chat : Chat.t) (part : list Message.t)
    (appliedContent appliedReasoning : string) :
    streamingMessageRef a = Some r ->
    StreamingRef.chatId r = cid ->
    StreamingRef.messageId r = aid ->
    activeChat a = Some chat ->
    Chat.id chat = cid ->
    Chat.messages chat = sent ++ part ++ [placeholder aid appliedContent] ->
    reasoningPart deltas appliedReasoning part ->
    answerText deltas = appliedContent +:+ accumulatedContent l ->
    reasoningText deltas = appliedReasoning +:+ accumulatedReasoning l ->
    signalAborted (controller l) a = false ->
    TurnInv cid aid sent deltas a l.

(** What else holds between the events of a turn: the controller of the
    request is the one [handleStopMessage] would abort, no alert has been
    shown since the send, and text waits in an accumulator only while the
    batching timer is armed. *)
Definition TurnFrame (shown : list string) (a : App) (l : Loop) : Prop :=
  abortController a = Some (controller l) /\
  alerts a = shown /\
  (updateTimer l = false ->
   accumulatedContent l = EmptyString /\ accumulatedReasoning l = EmptyString).

(** The events of an undisturbed stream: chunks arrive and the batching
    timer fires. *)
Definition streamEvent (ev : Event) : Prop :=
  ev = TimerFires \/ exists text, ev = FromWire (Chunk text).

(** The user message a send with a non-empty content appends. *)
Definition userMessages (uuidv4 : nat -> string) (content : string) (a : App)
  : list Message.t :=
  if Js.truthy content
  then [Message.mk (uuidv4 (S (uuidCalls a))) user (Text content) None (Some regular)]
  else [].

(** The name a send gives the chat. *)
Definition nameAfter (content : string) (chat : Chat.t) : string :=
  if Js.truthy content && hasDefaultName chat
  then Js.substring 0 20 (Js.trim content)
  else Chat.name chat.

(** The default pattern in the words of the specification: [Chat], a
    space, and an integer written in decimal digits. *)
Definition decimalDigit (c : ascii) : Prop :=
  In c (list_ascii_of_string "0123456789").

Definition defaultPattern (name : string) : Prop :=
  exists digits,
    name = "Chat " +:+ digits /\ digits <> EmptyString /\
    Forall decimalDigit (list_ascii_of_string digits).

(** White space among the code units below 256: TAB, LF, VT, FF, CR, SP,
    NBSP. *)
Definition whiteSpace (c : ascii) : Prop :=
  In c (map ascii_of_nat [9; 10; 11; 12; 13; 32; 160]).

Definition blank (s : string) : Prop :=
  Forall whiteSpace (list_ascii_of_string s).

(** [body] is [content] without the white space around it. *)
Definition trimmed (content body : string) : Prop :=
  exists before after,
    content = before +:+ body +:+ after /\ blank before /\ blank after /\
    (forall c, head (list_ascii_of_string body) = Some c -> ~ whiteSpace c) /\
    (forall c, last (list_ascii_of_string body) = Some c -> ~ whiteSpace c).

(** [name] is the first [n] characters of [s], all of [s] when [s] has
    fewer. *)
Definition firstCharacters (n : nat) (s name : string) : Prop :=
  (exists rest, s = name +:+ rest) /\
  String.length name = Nat.min n (String.length s).

(** The system message the preset puts before the others. *)
Definition systemMessages (preset : Preset.t) : list ApiMessage :=
  if Js.truthy (Preset.systemPrompt preset)
  then [mkApiMessage system (Text (Preset.systemPrompt preset))]
  else [].

Definition toApi (msg : Message.t) : ApiMessage :=
  mkApiMessage (Message.role msg) (Message.content msg).

(** The messages a send keeps and adds before the assistant message. *)
Definition sentMessages (uuidv4 : nat -> string) (content : string) (a : App) (chat : Chat.t)
  : list Message.t :=
  List.filter notReasoning (Chat.messages chat) ++ userMessages uuidv4 content a.

(** A send that reaches [fetch]: there is an active chat, a key and a preset;
    the identifier drawn for the assistant message is new to the chat, differs
    from the next one drawn, and does not begin like the identifier of a
    reasoning message. *)
Definition sendable (uuidv4 : nat -> string) (a : App) (chat : Chat.t) : Prop :=
  activeChat a = Some chat /\
  Js.truthy (apiKey a) = true /\
  is_Some (presets a !! Chat.activePresetIndex chat) /\
  Forall (fun m => Message.id m <> uuidv4 (uuidCalls a)) (Chat.messages chat) /\
  uuidv4 (S (uuidCalls a)) <> uuidv4 (uuidCalls a) /\
  Js.startsWith "reasoning-" (uuidv4 (uuidCalls a)) = false.


(** The active chat is not the chat of the stream in flight: there is no
    active chat, or the ref is cleared, or the two identifiers differ. *)
Definition guarded (a : App) : Prop :=
  forall chat, activeChat a = Some chat ->
               otherChat (streamingMessageRef a) chat = true.

(** The active chat is kept, and the ref is kept or cleared. *)
Definition keeps (a a' : App) : Prop :=
  activeChat a' = activeChat a /\
  (streamingMessageRef a' = streamingMessageRef a \/ streamingMessageRef a' = None).

(** The text ends with a line feed. *)
Fixpoint endsWithLF (s : string) : bool :=
  match s with
  | EmptyString => false
  | String c EmptyString => Ascii.eqb c Js.LF
  | String _ r => endsWithLF r
  end.

(** The text of a stream: its chunks one after the other. *)
Definition wholeStream (chunks : list string) : string :=
  fold_right String.append EmptyString chunks.

(** A line of an event stream: the text and a line feed. *)
Definition line (s : string) : string := s +:+ String Js.LF EmptyString.

(** ** A concrete installation *)

Module Example.

Definition uuidv4 (n : nat) : string :=
  "uuid-" +:+ String (ascii_of_nat (48 + n)) EmptyString.

(** A new chat with its default name. *)
Definition chatA : Chat.t := Chat.mk "a" "Chat 3" [] 0 10.

(** A renamed chat after a turn that produced reasoning. *)
Definition chatB : Chat.t :=
  Chat.mk "b" "My custom chat"
    [Message.mk "m1" user (Text "turn 1") None (Some regular);
     Message.mk "reasoning-m2" assistant (Text EmptyString) (Some "thinking")
       (Some reasoning);
     Message.mk "m3" assistant (Text "answer 1") None (Some regular)]
    0 20.

Definition metaA : ChatMetadata.t := ChatMetadata.mk "a" "Chat 3" 10 0 10.
Definition metaB : ChatMetadata.t := ChatMetadata.mk "b" "My custom chat" 20 2 20.

Definition preset : Preset.t := Preset.mk "Preset 1" "some/model" "Be brief.".

Definition store : gmap string DBValue :=
  <[chatKey "a" := VChat chatA]> (<[chatKey "b" := VChat chatB]> ∅).

(** The installation with the chat [b] active, and with the chat [a]. *)
Definition appB : App :=
  mkApp "sk-key" [metaA; metaB] (Some chatB) (Some "b") [preset]
    false false None None store [] [] [] 0 0.

Definition appA : App :=
  mkApp "sk-key" [metaA; metaB] (Some chatA) (Some "a") [preset]
    false false None None store [] [] [] 0 0.

(** Event lines as the endpoint sends them. *)
Definition answerLine (text : string) : string :=
  line (Json.quoted ("data: {'choices':[{'delta':{'content':'" +:+ text +:+ "'}}]}")).

Definition reasoningLine (text : string) : string :=
  line (Json.quoted ("data: {'choices':[{'delta':{'reasoning':'" +:+ text +:+ "'}}]}")).

Definition doneLine : string := line "data: [DONE]".

(** A stream of three chunks, the batching timer firing once in between. *)
Definition events : list Event :=
  [FromWire (Chunk (reasoningLine "hm" +:+ answerLine "Hel"));
   TimerFires;
   FromWire (Chunk (answerLine "lo"));
   FromWire (Chunk doneLine)].

(** The two answer deltas of the cancellation scenario. *)
Definition helloEvents : list Event :=
  [FromWire (Chunk (answerLine "Hel")); FromWire (Chunk (answerLine "lo"))].

(** One event line, and the same bytes cut in two reads inside the line. *)
Definition wholeLine : string := answerLine "Hi".
Definition firstRead : string := Json.quoted "data: {'choices':[{'delta':{'con".
Definition secondRead : string := line (Json.quoted "tent':'Hi'}}]}").

(** Calls of the debounced save within one window. *)
Definition chatA1 : Chat.t := Chat.mk "a" "Chat 3" [placeholder "m" "H"] 0 10.
Definition chatA2 : Chat.t := Chat.mk "a" "Chat 3" [placeholder "m" "Hello"] 0 10.

Definition calls : list (Z * string * Chat.t) :=
  [(0%Z, "a", chatA); (100%Z, "b", chatB); (400%Z, "a", chatA1); (900%Z, "a", chatA2)].

End Example.

Module Scenario.

(** The user has sent a message in the chat [a] and, with the stream in
    flight, the chat [b] has become the active one. *)
Definition switched : App :=
  setActiveChatId (Some "b")
    (setActiveChat (Some Example.chatB)
       (fst (handleSendMessage Example.uuidv4 5 "Hello" Example.appA))).

Definition switchedTurn : Turn :=
  Streaming (mkLoop 0 EmptyString EmptyString false).

End Scenario.


(** ** The other handlers of [App], and their callers in the components *)

Definition setApiKey (v : string) (a : App) : App :=
  mkApp v (chatMetadatas a) (activeChat a) (activeChatId a) (presets a) (isLoading a)
    (isStreaming a) (abortController a) (streamingMessageRef a) (db a)
    (alerts a) (console a) (aborted a) (controllers a) (uuidCalls a).

Definition setPresets (v : list Preset.t) (a : App) : App :=
  mkApp (apiKey a) (chatMetadatas a) (activeChat a) (activeChatId a) v (isLoading a)
    (isStreaming a) (abortController a) (streamingMessageRef a) (db a)
    (alerts a) (console a) (aborted a) (controllers a) (uuidCalls a).

(** The decimal digits of [n] before [acc], most significant first. *)
Fixpoint decimalDigits (fuel n : nat) (acc : string) : string :=
  match fuel with
  | O => acc
  | S fuel' =>
      let acc' := String (ascii_of_nat (48 + Nat.modulo n 10)) acc in
      if Nat.eqb (Nat.div n 10) 0 then acc'
      else decimalDigits fuel' (Nat.div n 10) acc'
  end.

(** A length printed in a template string. *)
Definition natToString (n : nat) : string := decimalDigits (S n) n EmptyString.

(** [content] is strictly equal to the empty string. *)
Definition isEmptyText (c : Content) : bool :=
  match c with
  | Text s => String.eqb s EmptyString
  | Parts _ => false
  end.

(** [getChatMetadata]: the stored index, or the empty array. *)
Definition getChatMetadata (store : gmap string DBValue) : list ChatMetadata.t :=
  match getItem CHAT_METADATA_KEY store with
  | Some (VMetadata metadata) => metadata
  | _ => []
  end.

(** [saveChatMetadata] *)
Definition saveChatMetadata (metadata : list ChatMetadata.t)
  (store : gmap string DBValue) : gmap string DBValue :=
  setItem CHAT_METADATA_KEY (VMetadata metadata) store.

(** The component as first rendered, over a store. *)
Definition initialApp (store : gmap string DBValue) : App :=
  mkApp EmptyString [] None None [] false false None None store [] [] [] 0 0.

(** The effect that loads the data on mount. *)
Definition loadData (a : App) : App :=
  let savedApiKey := getItem "ORI_apiKey" (db a) in
  let savedMetadata := getChatMetadata (db a) in
  let savedPresets := getItem "ORI_presets" (db a) in
  let a :=
    match savedApiKey with
    | Some (VApiKey key) => if Js.truthy key then setApiKey key a else a
    | _ => a
    end in
  let a :=
    if Nat.ltb 0 (length savedMetadata) then
      let a := setChatMetadatas savedMetadata a in
      match newestOf savedMetadata with
      | Some mostRecent =>
          match loadChat (ChatMetadata.id mostRecent) (db a) with
          | Some chat =>
              setActiveChatId (Some (Chat.id chat)) (setActiveChat (Some chat) a)
          | None => a
          end
      | None => a
      end
    else a in
  match savedPresets with
  | Some (VPresets saved) => setPresets saved a
  | _ => a
  end.

(** The effects that save the key, the index and the presets when they
    change; each skips an empty value. *)
Definition persistApiKey (a : App) : App :=
  if Js.truthy (apiKey a)
  then setDb (setItem "ORI_apiKey" (VApiKey (apiKey a)) (db a)) a
  else a.

Definition persistMetadata (a : App) : App :=
  if Nat.ltb 0 (length (chatMetadatas a))
  then setDb (saveChatMetadata (chatMetadatas a) (db a)) a
  else a.

Definition persistPresets (a : App) : App :=
  if Nat.ltb 0 (length (presets a))
  then setDb (setItem "ORI_presets" (VPresets (presets a)) (db a)) a
  else a.

Definition persist (a : App) : App :=
  persistPresets (persistMetadata (persistApiKey a)).

Definition handleRenameChat (chatId newName : string) (a : App) : App :=
  let a :=
    setChatMetadatas
      (map (fun meta =>
         if String.eqb (ChatMetadata.id meta) chatId then
           ChatMetadata.mk (ChatMetadata.id meta) newName (ChatMetadata.created meta)
             (ChatMetadata.messageCount meta) (ChatMetadata.lastModified meta)
         else meta) (chatMetadatas a)) a in
  match activeChat a with
  | Some chat =>
      if String.eqb (Chat.id chat) chatId then
        setActiveChat
          (Some (Chat.mk (Chat.id chat) newName (Chat.messages chat)
                   (Chat.activePresetIndex chat) (Chat.created chat))) a
      else a
  | None => a
  end.

(** [handleRenameSubmit] of the history panel, on the name typed. *)
Definition handleRenameSubmit (chatId tempName : string) (a : App) : App :=
  if Js.truthy (Js.trim tempName) then handleRenameChat chatId (Js.trim tempName) a
  else a.

Definition handleUpdateMessage (now : Z) (messageId content : string) (a : App) : App :=
  match activeChat a with
  | None => a
  | Some prev =>
      let updatedChat :=
        withMessages
          (map (fun msg =>
             if String.eqb (Message.id msg) messageId
             then withContent (Text content) msg else msg)
             (Chat.messages prev)) prev in
      setActiveChat (Some updatedChat)
        (updateChatMetadata now (Chat.id prev) (mkUpdates None None) a)
  end.

Definition handlePresetSelect (index : nat) (a : App) : App :=
  match activeChat a with
  | None => a
  | Some prev =>
      setActiveChat
        (Some (Chat.mk (Chat.id prev) (Chat.name prev) (Chat.messages prev) index
                 (Chat.created prev))) a
  end.

Definition handleImagePaste (now : Z) (imageMessage : Message.t) (a : App) : App :=
  match activeChat a with
  | None => a
  | Some prev =>
      let updatedMessages :=
        match lastOf (Chat.messages prev) with
        | Some lastMessage =>
            if isEmptyText (Message.content lastMessage)
            then dropLast (Chat.messages prev) ++ [imageMessage]
            else Chat.messages prev ++ [imageMessage]
        | None => Chat.messages prev ++ [imageMessage]
        end in
      let updatedChat := withMessages updatedMessages prev in
      setActiveChat (Some updatedChat)
        (updateChatMetadata now (Chat.id prev)
           (mkUpdates None (Some (length (Chat.messages updatedChat)))) a)
  end.

(** The text parts of an array content, joined by line feeds. *)
Definition textParts (ps : list ContentPart) : string :=
  String.concat (String Js.LF EmptyString)
    (omap (fun item => match item with
                       | text_part text => Some text
                       | image_url_part _ => None
                       end) ps).

(** [getEditableContent] of a message item. *)
Definition getEditableContent (message : Message.t) : string :=
  if bool_decide (Message.messageType message = Some reasoning)
  then Js.orElse (Message.reasoning message) EmptyString
  else match Message.content message with
       | Text s => s
       | Parts ps => textParts ps
       end.

(** The text [handleCopyMessage] writes to the clipboard. *)
Definition copyText (message : Message.t) : string :=
  if bool_decide (Message.messageType message = Some reasoning)
  then Js.orElse (Message.reasoning message) EmptyString
  else match Message.content message with
       | Text s => s
       | Parts ps => textParts ps
       end.

(** [hasImageContent] of a message item. *)
Definition hasImageContent (message : Message.t) : bool :=
  match Message.content message with
  | Text _ => false
  | Parts ps => existsb (fun item => match item with
                                     | image_url_part _ => true
                                     | text_part _ => false
                                     end) ps
  end.

(** A double click opens the editor unless an assistant message is streamed
    or the message holds an image; leaving the editor saves its text. *)
Definition editMessage (now : Z) (message : Message.t) (editContent : string)
  (a : App) : App :=
  if negb (isStreaming a && bool_decide (Message.role message = assistant))
     && negb (hasImageContent message)
  then handleUpdateMessage now (Message.id message) editContent a
  else a.

(** [sortedChats] of the history panel: [sort((a, b) => b.created - a.created)],
    a stable sort, newest first. *)
Fixpoint insertNewestFirst (m : ChatMetadata.t) (sorted : list ChatMetadata.t)
  : list ChatMetadata.t :=
  match sorted with
  | [] => [m]
  | y :: ys =>
      if (ChatMetadata.created y >? ChatMetadata.created m)%Z
      then y :: insertNewestFirst m ys
      else m :: y :: ys
  end.

Definition sortedChats (metas : list ChatMetadata.t) : list ChatMetadata.t :=
  fold_right insertNewestFirst [] metas.

Section OtherHandlers.

Variable uuidv4 : nat -> string.

Definition handleCreateNewChat (created lastModified : Z) (a : App) : App :=
  let currentPresetIndex :=
    match activeChat a with
    | Some chat => Chat.activePresetIndex chat
    | None => 0
    end in
  let '(newId, a) := uuid uuidv4 a in
  let newChat :=
    Chat.mk newId ("Chat " +:+ natToString (length (chatMetadatas a) + 1)) []
      currentPresetIndex created in
  let newMetadata :=
    ChatMetadata.mk (Chat.id newChat) (Chat.name newChat) (Chat.created newChat) 0
      lastModified in
  let a := setChatMetadatas (chatMetadatas a ++ [newMetadata]) a in
  let a := setActiveChat (Some newChat) a in
  let a := setActiveChatId (Some (Chat.id newChat)) a in
  setDb (setItem (chatKey (Chat.id newChat)) (VChat newChat) (db a)) a.

(** [handleSend] of the chat area, on the text of the input. *)
Definition chatAreaSend (now : Z) (inputValue : string) (a : App) : App * Turn :=
  let canSendEmpty :=
    match activeChat a with
    | Some chat =>
        match lastOf (Chat.messages chat) with
        | Some lastMessage => bool_decide (Message.role lastMessage = user)
        | None => false
        end
    | None => false
    end in
  if (Js.truthy (Js.trim inputValue) || canSendEmpty) && negb (isLoading a)
  then handleSendMessage uuidv4 now (Js.trim inputValue) a
  else (a, NotStarted).

(** [handleAppend] of the chat area. *)
Definition chatAreaAppend (now : Z) (inputValue : string) (a : App) : App :=
  if negb (isLoading a) then handleAppendMessage uuidv4 now inputValue a else a.

(** The paste of an image: [onAppend] on the empty string and then
    [onImagePaste]. *)
Definition pasteImage (now : Z) (base64Image : string) (a : App) : App :=
  let '(newId, a) := uuid uuidv4 a in
  let imageMessage :=
    Message.mk newId user (Parts [image_url_part base64Image]) None (Some regular) in
  handleImagePaste now imageMessage (handleAppendMessage uuidv4 now EmptyString a).

End OtherHandlers.

(** *** Operations on the messages of the active chat *)

(** The user actions that act on the active chat outside a stream; a send
    is taken up to its [fetch]. *)
Inductive MessageOp :=
| OpSend (now : Z) (content : string)
| OpAppend (now : Z) (content : string)
| OpDelete (now : Z) (messageId : string)
| OpUpdate (now : Z) (messageId content : string)
| OpImagePaste (now : Z) (imageMessage : Message.t)
| OpPaste (now : Z) (base64Image : string)
| OpRename (chatId newName : string)
| OpPreset (index : nat).

Definition applyOp (uuidv4 : nat -> string) (a : App) (op : MessageOp) : App :=
  match op with
  | OpSend now content => fst (handleSendMessage uuidv4 now content a)
  | OpAppend now content => handleAppendMessage uuidv4 now content a
  | OpDelete now messageId => handleDeleteMessage now messageId a
  | OpUpdate now messageId content => handleUpdateMessage now messageId content a
  | OpImagePaste now imageMessage => handleImagePaste now imageMessage a
  | OpPaste now base64Image => pasteImage uuidv4 now base64Image a
  | OpRename chatId newName => handleRenameChat chatId newName a
  | OpPreset index => handlePresetSelect index a
  end.

(** The metadata entry of the active chat, if there is one, counts the
    messages of the chat. *)
Definition counted (a : App) : Prop :=
  forall chat meta,
    activeChat a = Some chat ->
    metadataOf (Chat.id chat) a = Some meta ->
    ChatMetadata.messageCount meta = length (Chat.messages chat).

(** Appends in a row. *)
Definition appendAll (uuidv4 : nat -> string) (now : Z) (contents : list string)
  (a : App) : App :=
  fold_left (fun a content => handleAppendMessage uuidv4 now content a) contents a.

(** User, assistant, user, and so on. *)
Definition alternating (n : nat) : list Role :=
  map (fun i => if Nat.even i then user else assistant) (seq 0 n).

(** *** The flags of a turn *)

(** The request of the controller [ctl] is in flight and has not been
    stopped, or [handleStopMessage] has stopped it. *)
Definition inFlight (ctl : nat) (a : App) : Prop :=
  (isLoading a = true /\ isStreaming a = true /\ abortController a = Some ctl /\
   signalAborted ctl a = false) \/
  (isLoading a = false /\ isStreaming a = false /\ abortController a = None /\
   signalAborted ctl a = true).

(** Nothing of a turn is left in the state. *)
Definition idle (a : App) : Prop :=
  isLoading a = false /\ isStreaming a = false /\ abortController a = None /\
  streamingMessageRef a = None.

Definition turnFlags (st : App * Turn) : Prop :=
  match snd st with
  | NotStarted => True
  | Sending ctl _ => inFlight ctl (fst st)
  | Streaming l => inFlight (controller l) (fst st)
  | Ended _ => idle (fst st)
  end.

(** The flags of a turn are in [b] what they are in [a]. *)
Definition sameFlags (a b : App) : Prop :=
  isLoading b = isLoading a /\ isStreaming b = isStreaming a /\
  abortController b = abortController a /\ aborted b = aborted a /\
  streamingMessageRef b = streamingMessageRef a.

(** What makes the handler throw before it reads the stream: a response
    that is not ok or has no body, or a failure of [fetch] other than the
    abort. *)
Definition refused (w : Wire) : Prop :=
  match w with
  | Response ok hasBody => ok && hasBody = false
  | Failure name => name <> "AbortError"
  | Chunk _ | Close => False
  end.

(** *** What the debounced save has for a chat *)

(** The snapshot of [chatId] that is pending, or else the value written
    last under its key. *)
Definition latestSaved (chatId : string) (c : DebouncedSave.t) : option DBValue :=
  match DebouncedSave.mapGet chatId (DebouncedSave.pendingSaves c) with
  | Some chat => Some (VChat chat)
  | None => last (DebouncedSave.writesFor chatId c)
  end.

(** Every value written or pending for a chat is one of [snapshots]. *)
Definition scheduled (chatId : string) (snapshots : list Chat.t)
  (c : DebouncedSave.t) : Prop :=
  (forall v, In v (DebouncedSave.writesFor chatId c) ->
     exists chat, v = VChat chat /\ In chat snapshots) /\
  (forall chat, DebouncedSave.mapGet chatId (DebouncedSave.pendingSaves c) = Some chat ->
     In chat snapshots).

(** *** The provider part of the request *)

Inductive ProviderMode := mode_default | mode_order | mode_only | mode_ignore | mode_sort.

Inductive ProviderSort := price | throughput | latency.

(** The fields of a preset that route the request to providers. *)
Module Routing.
Record t := mk {
  providerMode : ProviderMode;
  providerOrder : string;
  providerOnly : string;
  providerIgnore : string;
  providerSort : ProviderSort;
  allowFallbacks : bool
}.
End Routing.

(** The object [providerConfig]; a key that is not set is [None]. *)
Module ProviderConfig.
Record t := mk {
  order : option (list string);
  only : option (list string);
  ignore : option (list string);
  sort : option ProviderSort;
  allow_fallbacks : option bool
}.
Definition empty : t := mk None None None None None.
End ProviderConfig.

(** One for a key that is set, zero otherwise. *)
Definition keySet {A} (key : option A) : nat :=
  match key with
  | Some _ => 1
  | None => 0
  end.

(** [s.split(",").map(p => p.trim()).filter(p => p)] *)
Definition providerNames (s : string) : list string :=
  List.filter Js.truthy (map Js.trim (Js.split "," s)).

(** [requestBody.provider], [None] when the key is not set. *)
Definition requestProvider (preset : Routing.t) : option ProviderConfig.t :=
  match Routing.providerMode preset with
  | mode_default => None
  | mode =>
      let providerConfig := ProviderConfig.empty in
      let providerConfig :=
        match mode with
        | mode_order =>
            if Js.truthy (Js.trim (Routing.providerOrder preset)) then
              ProviderConfig.mk (Some (providerNames (Routing.providerOrder preset)))
                None None None None
            else providerConfig
        | mode_only =>
            if Js.truthy (Js.trim (Routing.providerOnly preset)) then
              ProviderConfig.mk None (Some (providerNames (Routing.providerOnly preset)))
                None None None
            else providerConfig
        | mode_ignore =>
            if Js.truthy (Js.trim (Routing.providerIgnore preset)) then
              ProviderConfig.mk None None
                (Some (providerNames (Routing.providerIgnore preset))) None None
            else providerConfig
        | mode_sort =>
            ProviderConfig.mk None None None (Some (Routing.providerSort preset)) None
        | mode_default => providerConfig
        end in
      Some (ProviderConfig.mk (ProviderConfig.order providerConfig)
              (ProviderConfig.only providerConfig)
              (ProviderConfig.ignore providerConfig)
              (ProviderConfig.sort providerConfig)
              (Some (Routing.allowFallbacks preset)))
  end.

(** [s.includes(c)] for one code unit. *)
Fixpoint includes (c : ascii) (s : string) : bool :=
  match s with
  | EmptyString => false
  | String c' r => Ascii.eqb c' c || includes c r
  end.

(** A provider name as the endpoint expects it: not empty, no white space
    around it, no comma in it. *)
Definition cleanName (p : string) : Prop :=
  p <> EmptyString /\ Js.trim p = p /\ includes "," p = false.

(** ** The variants that keep all chats in one array

    [part_000] and [part_001] hold the chats in the state [chats] and save
    the whole array under one key; the active chat is looked up by
    [activeChatId].  [updateDefaultChatNames] is in both; the deletion of a
    chat and the reasoning message of a stream are those of [part_000]. *)
Module Legacy.

Record App := mkApp {
  chats : list Chat.t;
  activeChatId : option string
}.

(** [chats.find((chat) => chat.id === activeChatId) || null] *)
Definition activeChat (a : App) : option Chat.t :=
  match activeChatId a with
  | Some chatId => find (fun chat => String.eqb (Chat.id chat) chatId) (chats a)
  | None => None
  end.

Definition withName (name : string) (chat : Chat.t) : Chat.t :=
  Chat.mk (Chat.id chat) name (Chat.messages chat) (Chat.activePresetIndex chat)
    (Chat.created chat).

(** [updateDefaultChatNames] *)
Definition updateDefaultChatNames (chats : list Chat.t) : list Chat.t :=
  map (fun chat =>
    if hasDefaultName chat then
      match find (fun msg => bool_decide (Message.role msg = user)) (Chat.messages chat) with
      | Some firstUserMessage =>
          match Message.content firstUserMessage with
          | Text content =>
              if Js.truthy (Js.trim content)
              then withName (Js.substring 0 20 (Js.trim content)) chat
              else chat
          | Parts _ => chat
          end
      | None => chat
      end
    else chat) chats.

(** [chats.reduce((newest, current) =>
      current.created > newest.created ? current : newest)] *)
Definition newestChat (chats : list Chat.t) : option Chat.t :=
  match chats with
  | [] => None
  | first :: rest =>
      Some (fold_left (fun newest current =>
              if (Chat.created current >? Chat.created newest)%Z
              then current else newest) rest first)
  end.

(** [handleDeleteChat] *)
Definition handleDeleteChat (chatId : string) (a : App) : App :=
  let updatedChats :=
    List.filter (fun chat => negb (String.eqb (Chat.id chat) chatId)) (chats a) in
  let activeChatId' :=
    if bool_decide (activeChatId a = Some chatId) then
      match newestChat updatedChats with
      | Some newest => Some (Chat.id newest)
      | None => None
      end
    else activeChatId a in
  mkApp updatedChats activeChatId'.

(** The updater of [setChats] on a content delta of the turn of the chat
    [chatId] whose assistant message is [messageId]. *)
Definition contentDelta (chatId messageId text : string) (prevChats : list Chat.t)
  : list Chat.t :=
  map (fun chat =>
    if String.eqb (Chat.id chat) chatId then
      withMessages
        (map (fun msg =>
           if String.eqb (Message.id msg) messageId
           then withContent (contentPlus (Message.content msg) text) msg
           else msg) (Chat.messages chat)) chat
    else chat) prevChats.

(** The updater of [setChats] on a reasoning delta in [part_000]; [newId] is
    what [uuidv4()] returns if it is called. *)
Definition reasoningDelta (chatId messageId newId text : string)
  (prevChats : list Chat.t) : list Chat.t :=
  map (fun chat =>
    if String.eqb (Chat.id chat) chatId then
      match find isReasoningMessage (Chat.messages chat) with
      | Some existingReasoningMsg =>
          withMessages
            (map (fun msg =>
               if String.eqb (Message.id msg) (Message.id existingReasoningMsg)
               then withReasoning (Js.orElse (Message.reasoning msg) EmptyString +:+ text) msg
               else msg) (Chat.messages chat)) chat
      | None =>
          let reasoningMessage :=
            Message.mk ("reasoning-" +:+ newId) assistant (Text EmptyString)
              (Some text) (Some reasoning) in
          let assistantIndex :=
            findIndex (fun msg => String.eqb (Message.id msg) messageId)
              (Chat.messages chat) in
          withMessages (spliceInsert assistantIndex reasoningMessage (Chat.messages chat))
            chat
      end
    else chat) prevChats.

(** The two [if] statements of [part_000] on a decoded delta, on the array
    of chats. *)
Definition onDelta (chatId messageId newId : string) (delta : Delta.t)
  (prevChats : list Chat.t) : list Chat.t :=
  let prevChats :=
    match Delta.content delta with
    | Some text => contentDelta chatId messageId text prevChats
    | None => prevChats
    end in
  match Delta.reasoning delta with
  | Some text => reasoningDelta chatId messageId newId text prevChats
  | None => prevChats
  end.

End Legacy.

(** The contents of the messages of a chat that have the identifier
    [messageId], in order. *)
Definition answerOf (messageId : string) (chat : Chat.t) : list Content :=
  map Message.content
    (List.filter (fun msg => String.eqb (Message.id msg) messageId) (Chat.messages chat)).

(** The deltas of a stream in the array variant, each with the identifier
    [uuidv4()] would return on it. *)
Definition legacyStream (chatId messageId : string) (steps : list (string * Delta.t))
  (prevChats : list Chat.t) : list Chat.t :=
  fold_left (fun chats '(newId, delta) => Legacy.onDelta chatId messageId newId delta chats)
    steps prevChats.

(** The answer texts of the deltas, in order. *)
Definition answerTexts (steps : list (string * Delta.t)) : list string :=
  omap (fun step => Delta.content (snd step)) steps.

(** The chat [chat'] is [chat] with [update] applied to the contents of
    its messages of the identifier [messageId], if it is the chat of the turn;
    otherwise it is [chat]. *)
Definition streamed (chatId messageId : string) (update : Content -> Content)
  (chat chat' : Chat.t) : Prop :=
  Chat.id chat' = Chat.id chat /\
  if String.eqb (Chat.id chat) chatId
  then answerOf messageId chat' = map update (answerOf messageId chat)
  else chat' = chat.

(** ** Further concrete cases *)

Module Cases.

(** The chat [a] after the question of the user has been appended. *)
Definition askedChat : Chat.t :=
  Chat.mk "a" "Question"
    [Message.mk "uuid-0" user (Text "Question") None (Some regular)] 0 10.

Definition asked : App :=
  handleAppendMessage Example.uuidv4 6 "Question" Example.appA.

(** An installation with one chat, its index saved. *)
Definition lastOne : App :=
  mkApp "sk-key" [Example.metaA] (Some Example.chatA) (Some "a") [Example.preset]
    false false None None
    (saveChatMetadata [Example.metaA] Example.store) [] [] [] 0 0.

(** A second preset, and the installation with the chat [b] on the first
    of the two. *)
Definition preset2 : Preset.t := Preset.mk "Preset 2" "other/model" "Be thorough.".

Definition twoPresets : App := setPresets [Example.preset; preset2] Example.appB.

(** Operations on the messages of the chat [a], one of each kind. *)
Definition ops : list MessageOp :=
  [OpAppend 6 "Question";
   OpSend 7 "More";
   OpUpdate 8 "uuid-0" "Another question";
   OpPaste 9 "data:image/png;base64,AAAA";
   OpDelete 10 "uuid-1";
   OpRename "a" "Renamed";
   OpPreset 0;
   OpImagePaste 11
     (Message.mk "img" user (Parts [image_url_part "data:image/png;base64,BBBB"])
        None (Some regular))].

(** Calls of the debounced save spread over more than one window. *)
Definition spreadCalls : list (Z * string * Chat.t) :=
  [(0%Z, "a", Example.chatA); (100%Z, "b", Example.chatB);
   (1500%Z, "a", Example.chatA1); (1600%Z, "a", Example.chatA2)].

(** A chunk without a delta: the end marker, a comment, a payload cut short. *)
Definition idleChunk : string :=
  Example.doneLine +:+ line ": keep-alive" +:+ Json.quoted "data: {'choices':[{'del".

(** The array variant with the two chats, the chat [a] streaming. *)
Definition legacyApp : Legacy.App :=
  Legacy.mkApp [Example.chatA1; Example.chatB] (Some "a").

Definition legacySteps : list (string * Delta.t) :=
  [("r1", Delta.mk (Some "el") None);
   ("r2", Delta.mk None (Some "hm"));
   ("r3", Delta.mk (Some "lo") (Some "m"))].

End Cases.

(** * Properties *)

(** ** Strings *)

Lemma string_app_nil_l (s : string) : EmptyString +:+ s = s.
Proof. reflexivity. Qed.

Lemma string_app_cons (c : ascii) (s t : string) :
  String c s +:+ t = String c (s +:+ t).
Proof. reflexivity. Qed.

Lemma string_app_nil_r (s : string) : s +:+ EmptyString = s.
Proof.
  induction s as [|c s IH]; [reflexivity|].
  now rewrite string_app_cons, IH.
Qed.

Lemma string_app_assoc (s1 s2 s3 : string) :
  (s1 +:+ s2) +:+ s3 = s1 +:+ (s2 +:+ s3).
Proof.
  induction s1 as [|c s1 IH]; [reflexivity|].
  now rewrite !string_app_cons, IH.
Qed.

Lemma truthy_false (s : string) : Js.truthy s = false -> s = EmptyString.
Proof.
  unfold Js.truthy. destruct (String.eqb_spec s EmptyString); [auto | discriminate].
Qed.

Lemma chatKey_inj (a b : string) : chatKey a = chatKey b -> a = b.
Proof. unfold chatKey. apply String.app_inj. Qed.

(** ** The debounced save *)

Module DebouncedSaveFacts.
Import DebouncedSave.

Lemma mapGet_mapSet k k' v m :
  mapGet k (mapSet k' v m) = if String.eqb k' k then Some v else mapGet k m.
Proof.
  induction m as [|[k0 v0] m IH]; simpl.
  - reflexivity.
  - destruct (String.eqb_spec k0 k') as [->|Hne]; simpl.
    + destruct (String.eqb k' k); reflexivity.
    + rewrite IH. destruct (String.eqb_spec k0 k) as [->|Hne'].
      * destruct (String.eqb_spec k' k); [congruence | reflexivity].
      * reflexivity.
Qed.

Lemma mapSet_keys k v m x :
  In x (map fst (mapSet k v m)) -> x = k \/ In x (map fst m).
Proof.
  induction m as [|[k0 v0] m IH]; simpl.
  - intros [<-|[]]. now left.
  - destruct (String.eqb_spec k0 k) as [->|Hne]; simpl.
    + intros [<-|H]; auto.
    + intros [<-|H]; auto. destruct (IH H); auto.
Qed.

Lemma mapSet_NoDup k v m :
  List.NoDup (map fst m) -> List.NoDup (map fst (mapSet k v m)).
Proof.
  induction m as [|[k0 v0] m IH]; simpl; intros Hnd.
  - constructor; [intros [] | constructor].
  - inversion Hnd as [|? ? Hnotin Hnd']; subst.
    destruct (String.eqb_spec k0 k) as [->|Hne]; simpl.
    + now constructor.
    + constructor; [|auto].
      intros Hin. apply mapSet_keys in Hin as [->|Hin]; [congruence | auto].
Qed.

Lemma pendingAfter_NoDup calls m :
  List.NoDup (map fst m) -> List.NoDup (map fst (DebouncedSave.pendingAfter calls m)).
Proof.
  revert m. induction calls as [|[[t k] v] calls IH]; simpl; intros m Hnd.
  - exact Hnd.
  - apply IH. now apply mapSet_NoDup.
Qed.

Lemma pendingAfter_get chatId calls m :
  mapGet chatId (DebouncedSave.pendingAfter calls m) =
  match last (snapshotsFor chatId calls) with
  | Some chat => Some chat
  | None => mapGet chatId m
  end.
Proof.
  revert m. induction calls as [|[[t k] v] calls IH]; intros m.
  - reflexivity.
  - unfold DebouncedSave.pendingAfter. simpl fold_left. fold (DebouncedSave.pendingAfter calls (mapSet k v m)).
    rewrite IH. unfold snapshotsFor. simpl.
    destruct (String.eqb_spec k chatId) as [->|Hne]; simpl.
    + rewrite last_cons. rewrite mapGet_mapSet, String.eqb_refl.
      now destruct (last _).
    + rewrite mapGet_mapSet. destruct (String.eqb_spec k chatId); [congruence|].
      reflexivity.
Qed.

(** The writes a flush issues for one id: the pending snapshot, once. *)
Lemma flush_writes chatId (m : list (string * Chat.t)) :
  List.NoDup (map fst m) ->
  map snd (List.filter (fun w : string * DBValue => String.eqb (fst w) (chatKey chatId))
             (map (fun '(k, chat) => (chatKey k, VChat chat)) m)) =
  match mapGet chatId m with
  | Some chat => [VChat chat]
  | None => []
  end.
Proof.
  induction m as [|[k v] m IH]; intros Hnd.
  - reflexivity.
  - inversion Hnd as [|? ? Hnotin Hnd']; subst.
    cbn [map List.filter fst snd mapGet].
    destruct (String.eqb_spec (chatKey k) (chatKey chatId)) as [Heq|Hne].
    + apply chatKey_inj in Heq as ->. rewrite String.eqb_refl.
      cbn [map snd]. f_equal. rewrite (IH Hnd').
      assert (mapGet chatId m = None) as ->; [|reflexivity].
      clear -Hnotin. induction m as [|[k0 v0] m IH]; simpl in *; [reflexivity|].
      destruct (String.eqb_spec k0 chatId) as [->|]; [tauto | apply IH; tauto].
    + destruct (String.eqb_spec k chatId) as [->|_]; [congruence|].
      now apply IH.
Qed.

(** While every call comes before the deadline of the armed timer, the
    calls only fill the map and re-arm the timer. *)
Lemma saveAll_within_window calls : forall start c,
  chronological start calls ->
  (forall call, In call calls -> (fst (fst call) < start + wait)%Z) ->
  (forall deadline, timer c = Some deadline -> (start + wait <= deadline)%Z) ->
  pendingSaves (saveAll calls c) = DebouncedSave.pendingAfter calls (pendingSaves c) /\
  writes (saveAll calls c) = writes c /\
  (calls <> [] ->
   exists now, In now (map (fun call => fst (fst call)) calls) /\
               timer (saveAll calls c) = Some (now + wait)%Z).
Proof.
  induction calls as [|[[t k] v] calls IH]; intros start c Hchr Hwin Htimer.
  - simpl. repeat split; congruence.
  - destruct Hchr as [Hle Hchr].
    assert (Ht : (t < start + wait)%Z) by (apply (Hwin (t, k, v)); now left).
    assert (Hquiet : elapse t c = c).
    { unfold elapse. destruct (timer c) as [d|] eqn:Hd; [|reflexivity].
      specialize (Htimer d eq_refl).
      destruct (Z.leb_spec d t); [lia | reflexivity]. }
    unfold saveAll. simpl fold_left. fold (saveAll calls (save t k v c)).
    unfold save at 1 2 3. rewrite Hquiet.
    set (c1 := mk (mapSet k v (pendingSaves c)) (Some (t + wait)%Z) (writes c)).
    destruct (IH start c1) as (Hp & Hw & Hl).
    + clear -Hchr Hle. revert t Hle Hchr.
      induction calls as [|[[t' k'] v'] calls IHc]; simpl; intros t Hle Hchr; [auto|].
      destruct Hchr as [Hle' Hchr]. split; [lia | exact Hchr].
    + intros call Hin. apply Hwin. now right.
    + simpl. intros d [= <-]. lia.
    + split; [exact Hp|]. split; [exact Hw|]. intros _.
      destruct calls as [|call calls'].
      * exists t. split; [now left | reflexivity].
      * destruct Hl as (now & Hin & Hl); [discriminate|].
        exists now. split; [now right | exact Hl].
Qed.

End DebouncedSaveFacts.

(** C7. The calls made for a chat within one debounce window, counted from
    the first call on a fresh debounced save, write nothing while the window
    lasts; once the wait has passed after the last of them, exactly one value
    has been written under the key of the chat, and it is the snapshot of the
    latest call. *)
Theorem debounced_save_writes_latest_once
  (calls : list (Z * string * Chat.t)) (start now : Z) (chatId : string)
  (earlier : list Chat.t) (latest : Chat.t) :
  DebouncedSave.chronological start calls ->
  (forall call, In call calls ->
     (fst (fst call) < start + DebouncedSave.wait)%Z /\
     (fst (fst call) + DebouncedSave.wait <= now)%Z) ->
  DebouncedSave.snapshotsFor chatId calls = earlier ++ [latest] ->
  DebouncedSave.writes (DebouncedSave.saveAll calls DebouncedSave.create) = [] /\
  DebouncedSave.writesFor chatId
    (DebouncedSave.elapse now (DebouncedSave.saveAll calls DebouncedSave.create))
  = [VChat latest].
Proof.
  intros Hchr Hwin Hsnap.
  destruct (DebouncedSaveFacts.saveAll_within_window calls start DebouncedSave.create)
    as (Hp & Hw & Hl); auto.
  - intros call Hin. now apply Hwin.
  - simpl. discriminate.
  - split; [exact Hw|].
    destruct Hl as (t & Hin & Ht).
    { intros ->. destruct earlier; discriminate. }
    unfold DebouncedSave.elapse. rewrite Ht.
    apply in_map_iff in Hin as (call & <- & Hin).
    destruct (Hwin call Hin) as [_ Hnow].
    destruct (Z.leb_spec (fst (fst call) + DebouncedSave.wait) now); [|lia].
    unfold DebouncedSave.writesFor, DebouncedSave.executeSave. simpl.
    rewrite Hw, Hp. simpl.
    rewrite DebouncedSaveFacts.flush_writes.
    + rewrite DebouncedSaveFacts.pendingAfter_get, Hsnap, last_snoc. reflexivity.
    + apply DebouncedSaveFacts.pendingAfter_NoDup. constructor.
Qed.

(** ** Lists and strings of the streaming loop *)

Lemma prefix_app (p x : string) : Js.startsWith p (p +:+ x) = true.
Proof.
  unfold Js.startsWith. induction p as [|c p IH]; [now destruct x|].
  rewrite string_app_cons. simpl. destruct (ascii_dec c c); [exact IH | congruence].
Qed.

Lemma not_prefixed (p x s : string) : Js.startsWith p s = false -> p +:+ x <> s.
Proof. intros H <-. rewrite prefix_app in H. discriminate. Qed.

Lemma findIndex_nonneg_or {A} (p : A -> bool) (l : list A) :
  (findIndex p l = -1)%Z \/ (0 <= findIndex p l)%Z.
Proof.
  induction l as [|x l IH]; simpl; [now left|].
  destruct (p x); [right; lia|].
  destruct (Z.ltb_spec (findIndex p l) 0); [now left | right; lia].
Qed.

Lemma findIndex_app_fresh {A} (p : A -> bool) (l : list A) (y : A) (rest : list A) :
  Forall (fun x => p x = false) l -> p y = true ->
  findIndex p (l ++ y :: rest) = Z.of_nat (length l).
Proof.
  intros Hl Hy. induction Hl as [|x l Hx Hl IH]; simpl.
  - now rewrite Hy.
  - rewrite Hx, IH. destruct (Z.ltb_spec (Z.of_nat (length l)) 0); lia.
Qed.

Lemma spliceInsert_at_length {A} (x : A) (l rest : list A) :
  spliceInsert (Z.of_nat (length l)) x (l ++ rest) = l ++ x :: rest.
Proof.
  unfold spliceInsert. rewrite length_app.
  destruct (Z.ltb_spec (Z.of_nat (length l)) 0); [lia|].
  rewrite Z.min_l by lia. rewrite Nat2Z.id.
  now rewrite take_app_length, drop_app_length.
Qed.

Lemma find_app_none {A} (p : A -> bool) (l k : list A) :
  Forall (fun x => p x = false) l -> find p (l ++ k) = find p k.
Proof. induction 1 as [|x l Hx _ IH]; simpl; [reflexivity | now rewrite Hx]. Qed.

Lemma answerText_app (ds es : list Delta.t) :
  answerText (ds ++ es) = answerText ds +:+ answerText es.
Proof.
  induction ds as [|d ds IH]; simpl; [reflexivity|].
  now rewrite IH, string_app_assoc.
Qed.

Lemma reasoningText_app (ds es : list Delta.t) :
  reasoningText (ds ++ es) = reasoningText ds +:+ reasoningText es.
Proof.
  induction ds as [|d ds IH]; simpl; [reflexivity|].
  now rewrite IH, string_app_assoc.
Qed.

Lemma carriesReasoning_app (ds es : list Delta.t) :
  carriesReasoning (ds ++ es) = carriesReasoning ds || carriesReasoning es.
Proof. unfold carriesReasoning. apply existsb_app. Qed.

Lemma orElse_empty (s : string) : Js.orElse (Some s) EmptyString = s.
Proof.
  unfold Js.orElse. destruct (Js.truthy s) eqn:H; [reflexivity|].
  symmetry. now apply truthy_false.
Qed.

Lemma flushUpdater_map cur c q p :
  otherChat cur p = false ->
  flushUpdater cur c q (Some p) =
  Some (withMessages (map (flushMessage cur c q) (Chat.messages p)) p).
Proof. intros H. unfold flushUpdater. now rewrite H. Qed.

Lemma flushMessage_untouched (r : StreamingRef.t) (c q : string) (msgs : list Message.t) :
  Forall (fun m => String.eqb (Message.id m) (StreamingRef.messageId r) = false) msgs ->
  Forall (fun m => isReasoningMessage m = false) msgs ->
  map (flushMessage (Some r) c q) msgs = msgs.
Proof.
  induction 1 as [|m ms Hid _ IH]; intros Hty; [reflexivity|].
  inversion Hty as [|? ? Hm Hms]; subst.
  simpl. rewrite (IH Hms). f_equal.
  unfold flushMessage, isStreamingMessage. now rewrite Hid, Hm.
Qed.

Lemma flushMessage_placeholder (r : StreamingRef.t) (aid c q text : string) :
  StreamingRef.messageId r = aid ->
  flushMessage (Some r) c q (placeholder aid text) = placeholder aid (text +:+ c).
Proof.
  intros <-. unfold flushMessage, isStreamingMessage. simpl.
  now rewrite String.eqb_refl.
Qed.

Lemma isReasoningMessage_reasoningMessage rid text :
  isReasoningMessage (reasoningMessage ("reasoning-" +:+ rid) text) = true.
Proof.
  unfold isReasoningMessage. cbn [reasoningMessage Message.messageType Message.id].
  rewrite prefix_app. reflexivity.
Qed.

Lemma flushMessage_reasoning (r : StreamingRef.t) (c q rid text : string) :
  Js.startsWith "reasoning-" (StreamingRef.messageId r) = false ->
  flushMessage (Some r) c q (reasoningMessage ("reasoning-" +:+ rid) text) =
  reasoningMessage ("reasoning-" +:+ rid) (text +:+ q).
Proof.
  intros Hplain. unfold flushMessage.
  assert (isStreamingMessage (Some r) (reasoningMessage ("reasoning-" +:+ rid) text)
          = false) as ->.
  { unfold isStreamingMessage. cbn [reasoningMessage Message.id].
    apply String.eqb_neq. now apply not_prefixed. }
  rewrite isReasoningMessage_reasoningMessage.
  unfold withReasoning. cbn [reasoningMessage Message.reasoning Message.id
    Message.role Message.content Message.messageType].
  now rewrite orElse_empty.
Qed.

Lemma carriesReasoning_false_text (ds : list Delta.t) :
  carriesReasoning ds = false -> reasoningText ds = EmptyString.
Proof.
  induction ds as [|d ds IH]; simpl; [reflexivity|].
  intros H. apply orb_false_elim in H as [Hd Hds].
  rewrite (IH Hds). destruct (Delta.reasoning d); [|reflexivity].
  rewrite bool_decide_eq_false in Hd. exfalso. apply Hd. eauto.
Qed.

Lemma omap_cons_option_list {A B} (f : A -> option B) (x : A) (l : list A) :
  omap f (x :: l) = option_list (f x) ++ omap f l.
Proof. simpl. destruct (f x); reflexivity. Qed.

Lemma carriesReasoning_one (d : Delta.t) :
  carriesReasoning [d] =
  match Delta.reasoning d with Some _ => true | None => false end.
Proof.
  unfold carriesReasoning. cbn [existsb]. rewrite orb_false_r.
  destruct (Delta.reasoning d); reflexivity.
Qed.

(** [flushUpdate] where the ref is not written between the call and the run
    of its updater. *)
Lemma flushUpdate_eq (a : App) (l : Loop) :
  flushUpdate (a, l) =
  match streamingMessageRef a with
  | Some _ =>
      if Js.truthy (accumulatedContent l) || Js.truthy (accumulatedReasoning l) then
        (setActiveChat
           (flushUpdater (streamingMessageRef a) (accumulatedContent l)
              (accumulatedReasoning l) (activeChat a)) a,
         mkLoop (controller l) EmptyString EmptyString (updateTimer l))
      else (a, l)
  | None => (a, l)
  end.
Proof.
  unfold flushUpdate, flushUpdateCall.
  destruct (streamingMessageRef a) eqn:Href; [destruct (_ || _)|];
    cbn [runFlushUpdater]; rewrite ?Href; reflexivity.
Qed.

(** The end of the stream: the updater queued by [flushUpdate] runs after
    [finally] has cleared the ref, and returns the chat it is given. *)
Lemma step_close (uuidv4 : nat -> string) (decode : string -> option Delta.t)
  (a : App) (l : Loop) :
  signalAborted (controller l) a = false ->
  exists a',
    step uuidv4 decode (a, Streaming l) (FromWire Close) = (a', Ended Returned) /\
    activeChat a' = activeChat a /\
    chatMetadatas a' = chatMetadatas a /\
    alerts a' = alerts a /\
    streamingMessageRef a' = None /\
    isLoading a' = false /\ isStreaming a' = false /\ abortController a' = None.
Proof.
  intros Hab. cbn [step]. rewrite Hab.
  destruct (flushUpdateCall a l) as [[[finalContent finalReasoning]|] l'];
    cbn [leave runFlushUpdater]; eexists; (split; [reflexivity|]).
  - cbn [finishTurn streamingMessageRef setAbortController setIsStreaming setIsLoading
         setStreamingMessageRef setActiveChat activeChat].
    destruct (activeChat a); repeat split.
  - repeat split.
Qed.

Section TurnSteps.

Variable uuidv4 : nat -> string.
Variable decode : string -> option Delta.t.
Variables (cid aid : string) (sent : list Message.t).

Hypothesis sent_fresh : Forall (fun m => String.eqb (Message.id m) aid = false) sent.
Hypothesis sent_regular : Forall (fun m => isReasoningMessage m = false) sent.
Hypothesis aid_plain : Js.startsWith "reasoning-" aid = false.

Local Abbreviation Inv := (TurnInv cid aid sent).

Lemma inv_flushUpdate ds a l :
  Inv ds a l ->
  Inv ds (fst (flushUpdate (a, l))) (snd (flushUpdate (a, l))) /\
  accumulatedContent (snd (flushUpdate (a, l))) = EmptyString /\
  accumulatedReasoning (snd (flushUpdate (a, l))) = EmptyString.
Proof.
  intros [r chat part ac ar Hr Hcid Haid Hchat Hid Hmsgs Hpart Hc Hq Hab].
  rewrite flushUpdate_eq. rewrite Hr.
  destruct (Js.truthy (accumulatedContent l) || Js.truthy (accumulatedReasoning l))
    eqn:Htruthy.
  - cbn [fst snd accumulatedContent accumulatedReasoning]. split; [|split; reflexivity].
    assert (Hother : otherChat (Some r) chat = false).
    { unfold otherChat. rewrite Hid, Hcid, String.eqb_refl. reflexivity. }
    rewrite Hchat, (flushUpdater_map _ _ _ _ Hother), Hmsgs.
    rewrite !map_app, flushMessage_untouched by (rewrite ?Haid; assumption).
    cbn [map]. rewrite (flushMessage_placeholder _ _ _ _ _ Haid).
    unfold reasoningPart in Hpart.
    destruct (carriesReasoning ds) eqn:Hcarries.
    + destruct Hpart as [rid ->]. cbn [map].
      rewrite flushMessage_reasoning by (rewrite Haid; assumption).
      eapply turn_inv with (r := r)
        (part := [reasoningMessage ("reasoning-" +:+ rid)
                    (ar +:+ accumulatedReasoning l)])
        (appliedContent := ac +:+ accumulatedContent l)
        (appliedReasoning := ar +:+ accumulatedReasoning l);
        [exact Hr | exact Hcid | exact Haid | reflexivity | exact Hid
        | reflexivity | | | | exact Hab].
      * unfold reasoningPart. rewrite Hcarries. eauto.
      * cbn. now rewrite string_app_nil_r.
      * cbn. now rewrite string_app_nil_r.
    + destruct Hpart as [-> ->]. cbn [map].
      eapply turn_inv with (r := r) (part := [])
        (appliedContent := ac +:+ accumulatedContent l)
        (appliedReasoning := EmptyString);
        [exact Hr | exact Hcid | exact Haid | reflexivity | exact Hid
        | reflexivity | | | | exact Hab].
      * unfold reasoningPart. now rewrite Hcarries.
      * cbn. now rewrite string_app_nil_r.
      * cbn. now apply carriesReasoning_false_text.
  - apply orb_false_elim in Htruthy as [Hc0 Hq0].
    apply truthy_false in Hc0. apply truthy_false in Hq0.
    cbn [fst snd]. split; [|split; assumption].
    econstructor; eassumption.
Qed.

Lemma inv_timerCallback ds a l :
  Inv ds a l -> Inv ds (fst (timerCallback (a, l))) (snd (timerCallback (a, l))).
Proof.
  intros H. apply inv_flushUpdate in H as [H _].
  unfold timerCallback. destruct (flushUpdate (a, l)) as [a' l'].
  cbn [fst snd] in *.
  destruct H as [r chat part ac ar Hr Hcid Haid Hchat Hid Hmsgs Hpart Hc Hq Hab].
  econstructor; eassumption.
Qed.

Lemma inv_consoleLog ds a l text :
  Inv ds a l -> Inv ds (consoleLog text a) l.
Proof.
  intros [r chat part ac ar Hr Hcid Haid Hchat Hid Hmsgs Hpart Hc Hq Hab].
  econstructor; eassumption.
Qed.

Lemma inv_createReasoningMessage ds a l :
  Inv ds a l ->
  exists r chat part ar,
    streamingMessageRef (createReasoningMessage uuidv4 a) = Some r /\
    StreamingRef.chatId r = cid /\ StreamingRef.messageId r = aid /\
    activeChat (createReasoningMessage uuidv4 a) = Some chat /\
    Chat.id chat = cid /\
    (exists ac, Chat.messages chat = sent ++ part ++ [placeholder aid ac] /\
                answerText ds = ac +:+ accumulatedContent l) /\
    (exists rid, part = [reasoningMessage ("reasoning-" +:+ rid) ar]) /\
    reasoningText ds = ar +:+ accumulatedReasoning l /\
    signalAborted (controller l) (createReasoningMessage uuidv4 a) = false.
Proof.
  intros [r chat part ac ar Hr Hcid Haid Hchat Hid Hmsgs Hpart Hc Hq Hab].
  assert (Hother : otherChat (Some r) chat = false).
  { unfold otherChat. rewrite Hid, Hcid, String.eqb_refl. reflexivity. }
  unfold createReasoningMessage. rewrite Hchat, Hr, Hother, Hmsgs.
  rewrite find_app_none by assumption.
  unfold reasoningPart in Hpart. destruct (carriesReasoning ds) eqn:Hcarries.
  - destruct Hpart as [rid ->].
    cbn [app find]. rewrite isReasoningMessage_reasoningMessage.
    exists r, chat, [reasoningMessage ("reasoning-" +:+ rid) ar], ar.
    repeat split; eauto.
  - destruct Hpart as [-> ->]. cbn [app find].
    assert (isReasoningMessage (placeholder aid ac) = false) as -> by reflexivity.
    rewrite findIndex_app_fresh.
    + unfold uuid. cbv zeta iota beta. rewrite spliceInsert_at_length.
      exists r, (withMessages
                   (sent ++ [reasoningMessage ("reasoning-" +:+ uuidv4 (uuidCalls a))
                               EmptyString; placeholder aid ac]) chat),
        [reasoningMessage ("reasoning-" +:+ uuidv4 (uuidCalls a)) EmptyString],
        EmptyString.
      cbn. repeat split; eauto.
    + eapply Forall_impl; [exact sent_fresh|].
      intros m Hm. unfold isStreamingMessage. now rewrite Haid.
    + unfold isStreamingMessage. cbn. rewrite Haid. apply String.eqb_refl.
Qed.

Lemma inv_onDelta ds a l d :
  Inv ds a l ->
  Inv (ds ++ [d]) (fst (onDelta uuidv4 d (a, l))) (snd (onDelta uuidv4 d (a, l))).
Proof.
  intros HI. unfold onDelta.
  destruct (Delta.reasoning d) as [q|] eqn:Hdq; cbn [fst snd].
  - destruct (inv_createReasoningMessage _ _ _ HI)
      as (r & chat & part & ar & Hr & Hcid & Haid & Hchat & Hid & (ac & Hmsgs & Hc)
          & Hpart & Hq & Hab).
    eapply turn_inv with (part := part) (appliedContent := ac)
      (appliedReasoning := ar); try eassumption.
    + unfold reasoningPart.
      rewrite carriesReasoning_app, carriesReasoning_one, Hdq, orb_true_r.
      exact Hpart.
    + rewrite answerText_app, Hc. cbn.
      destruct (Delta.content d); cbn;
        rewrite !string_app_nil_r, ?string_app_assoc; reflexivity.
    + rewrite reasoningText_app, Hq. cbn. rewrite Hdq. cbn.
      destruct (Delta.content d); cbn;
        rewrite !string_app_nil_r, ?string_app_assoc; reflexivity.
    + destruct (Delta.content d); exact Hab.
  - destruct HI as [r chat part ac ar Hr Hcid Haid Hchat Hid Hmsgs Hpart Hc Hq Hab].
    eapply turn_inv with (part := part) (appliedContent := ac)
      (appliedReasoning := ar); try eassumption.
    + unfold reasoningPart.
      rewrite carriesReasoning_app, carriesReasoning_one, Hdq, orb_false_r.
      exact Hpart.
    + rewrite answerText_app, Hc. cbn.
      destruct (Delta.content d); cbn;
        rewrite !string_app_nil_r, ?string_app_assoc; reflexivity.
    + rewrite reasoningText_app, Hq. cbn. rewrite Hdq. cbn.
      destruct (Delta.content d); cbn; rewrite !string_app_nil_r; reflexivity.
    + destruct (Delta.content d); exact Hab.
Qed.

Lemma frame_flushUpdate shown a l :
  TurnFrame shown a l ->
  TurnFrame shown (fst (flushUpdate (a, l))) (snd (flushUpdate (a, l))).
Proof.
  intros HF. rewrite flushUpdate_eq.
  destruct (streamingMessageRef a); [|exact HF].
  destruct (_ || _); [|exact HF].
  destruct HF as (Hctl & Hal & _). cbn. repeat split; auto.
Qed.

Lemma frame_timerCallback shown ds a l :
  Inv ds a l -> TurnFrame shown a l ->
  TurnFrame shown (fst (timerCallback (a, l))) (snd (timerCallback (a, l))).
Proof.
  intros HI HF. destruct (inv_flushUpdate ds a l HI) as (_ & Hc0 & Hq0).
  apply frame_flushUpdate in HF. unfold timerCallback.
  destruct (flushUpdate (a, l)) as [a' l']. cbn [fst snd] in *.
  destruct HF as (Hctl & Hal & _). repeat split; assumption.
Qed.

Lemma frame_createReasoningMessage shown a l :
  TurnFrame shown a l -> TurnFrame shown (createReasoningMessage uuidv4 a) l.
Proof.
  intros HF. unfold createReasoningMessage.
  destruct (activeChat a) as [prev|]; [|exact HF].
  destruct (otherChat _ prev); [exact HF|].
  destruct (find _ _); exact HF.
Qed.

Lemma frame_onDelta shown a l d :
  TurnFrame shown a l ->
  TurnFrame shown (fst (onDelta uuidv4 d (a, l))) (snd (onDelta uuidv4 d (a, l))).
Proof.
  intros HF. unfold onDelta.
  destruct (Delta.reasoning d) as [q|]; cbn [fst snd].
  - apply (frame_createReasoningMessage shown a l) in HF.
    destruct HF as (Hctl & Hal & _).
    destruct (Delta.content d); repeat split; try assumption; discriminate.
  - destruct (Delta.content d); [|exact HF].
    destruct HF as (Hctl & Hal & _). repeat split; try assumption; discriminate.
Qed.

Lemma frame_processLine shown a l line :
  TurnFrame shown a l ->
  TurnFrame shown (fst (processLine uuidv4 decode (a, l) line))
    (snd (processLine uuidv4 decode (a, l) line)).
Proof.
  intros HF. unfold processLine.
  destruct (Js.startsWith "data: " line); [|exact HF].
  destruct (String.eqb _ _); [exact HF|].
  destruct (decode _) as [d|]; [now apply frame_onDelta | exact HF].
Qed.

Lemma frame_lines shown lines : forall a l,
  TurnFrame shown a l ->
  TurnFrame shown (fst (fold_left (processLine uuidv4 decode) lines (a, l)))
    (snd (fold_left (processLine uuidv4 decode) lines (a, l))).
Proof.
  induction lines as [|line lines IH]; intros a l HF; [exact HF|].
  cbn [fold_left]. pose proof (frame_processLine shown a l line HF) as H1.
  destruct (processLine uuidv4 decode (a, l) line) as [a1 l1]. now apply IH.
Qed.

Lemma inv_processLine ds a l line :
  Inv ds a l ->
  Inv (ds ++ option_list (lineDelta decode line))
    (fst (processLine uuidv4 decode (a, l) line))
    (snd (processLine uuidv4 decode (a, l) line)).
Proof.
  intros HI. unfold processLine, lineDelta.
  destruct (Js.startsWith "data: " line);
    [|cbn [option_list]; rewrite app_nil_r; exact HI].
  destruct (String.eqb (Js.slice 6 line) "[DONE]");
    [cbn [option_list]; rewrite app_nil_r; exact HI|].
  destruct (decode (Js.slice 6 line)) as [d|]; cbn [option_list fst snd].
  - now apply inv_onDelta.
  - rewrite app_nil_r. now apply inv_consoleLog.
Qed.

Lemma inv_lines lines : forall ds a l,
  Inv ds a l ->
  Inv (ds ++ omap (lineDelta decode) lines)
    (fst (fold_left (processLine uuidv4 decode) lines (a, l)))
    (snd (fold_left (processLine uuidv4 decode) lines (a, l))).
Proof.
  induction lines as [|line lines IH]; intros ds a l HI.
  - cbn. rewrite app_nil_r. exact HI.
  - cbn [fold_left]. rewrite omap_cons_option_list, app_assoc.
    pose proof (inv_processLine ds a l line HI) as H1.
    destruct (processLine uuidv4 decode (a, l) line) as [a1 l1].
    cbn [fst snd] in H1. exact (IH _ _ _ H1).
Qed.

Lemma inv_readChunk ds a l chunk :
  Inv ds a l ->
  Inv (ds ++ chunkDeltas decode chunk)
    (fst (readChunk uuidv4 decode (a, l) chunk))
    (snd (readChunk uuidv4 decode (a, l) chunk)).
Proof. apply inv_lines. Qed.

Lemma inv_step shown ds a l ev :
  streamEvent ev ->
  Inv ds a l -> TurnFrame shown a l ->
  exists a' l',
    step uuidv4 decode (a, Streaming l) ev = (a', Streaming l') /\
    Inv (ds ++ eventDeltas decode [ev]) a' l' /\ TurnFrame shown a' l'.
Proof.
  intros Hev HI HF. destruct Hev as [->|[text ->]]; cbn [step eventDeltas flat_map].
  - rewrite app_nil_r. destruct (updateTimer l).
    + pose proof (inv_timerCallback ds a l HI) as H.
      pose proof (frame_timerCallback shown ds a l HI HF) as H'.
      destruct (timerCallback (a, l)) as [a' l']. eauto.
    + eauto.
  - assert (Hab : signalAborted (controller l) a = false) by now destruct HI.
    rewrite Hab, app_nil_r.
    pose proof (inv_readChunk ds a l text HI) as H.
    pose proof (frame_lines shown (Js.split Js.LF text) a l HF) as H'.
    fold (readChunk uuidv4 decode (a, l) text) in H'.
    destruct (readChunk uuidv4 decode (a, l) text) as [a' l']. eauto.
Qed.

Lemma inv_run shown events : forall ds a l,
  Forall streamEvent events ->
  Inv ds a l -> TurnFrame shown a l ->
  exists a' l',
    run uuidv4 decode events (a, Streaming l) = (a', Streaming l') /\
    Inv (ds ++ eventDeltas decode events) a' l' /\ TurnFrame shown a' l'.
Proof.
  induction events as [|ev events IH]; intros ds a l Hevs HI HF.
  - exists a, l. cbn. rewrite app_nil_r. auto.
  - inversion Hevs as [|? ? Hev Hevs']; subst.
    destruct (inv_step shown ds a l ev Hev HI HF) as (a1 & l1 & Hstep & H1 & F1).
    destruct (IH _ _ _ Hevs' H1 F1) as (a2 & l2 & Hrun & H2 & F2).
    exists a2, l2. split; [|split; [|exact F2]].
    + unfold run in *. cbn [fold_left]. now rewrite Hstep.
    + change (ev :: events) with ([ev] ++ events).
      unfold eventDeltas in *. now rewrite flat_map_app, app_assoc.
Qed.

(** Once the accumulators are empty the messages carry all the text. *)
Lemma inv_applied ds a l :
  Inv ds a l ->
  accumulatedContent l = EmptyString -> accumulatedReasoning l = EmptyString ->
  exists chat part,
    activeChat a = Some chat /\ Chat.id chat = cid /\
    Chat.messages chat = sent ++ part ++ [placeholder aid (answerText ds)] /\
    reasoningPart ds (reasoningText ds) part.
Proof.
  intros [r chat part ac ar Hr Hcid Haid Hchat Hid Hmsgs Hpart Hc Hq Hab] Hc0 Hq0.
  rewrite Hc0, string_app_nil_r in Hc. rewrite Hq0, string_app_nil_r in Hq.
  exists chat, part. rewrite Hc, Hq. auto.
Qed.

End TurnSteps.

(** ** Sending *)

Lemma fresh_controller_not_aborted (n : nat) (l : list nat) :
  existsb (Nat.eqb n) (List.filter (fun c => negb (Nat.eqb n c)) l) = false.
Proof.
  induction l as [|c l IH]; simpl; [reflexivity|].
  destruct (Nat.eqb n c) eqn:E; simpl; [exact IH | now rewrite E].
Qed.

Section Sending.

Variable uuidv4 : nat -> string.

Lemma handleSendMessage_started (now : Z) (content : string) (a : App) (chat : Chat.t) :
  activeChat a = Some chat ->
  Js.truthy (apiKey a) = true ->
  let sent := List.filter notReasoning (Chat.messages chat)
              ++ userMessages uuidv4 content a in
  let aid := uuidv4 (uuidCalls a) in
  let res := handleSendMessage uuidv4 now content a in
  activeChat (fst res) =
    Some (Chat.mk (Chat.id chat) (nameAfter content chat)
            (sent ++ [placeholder aid EmptyString])
            (Chat.activePresetIndex chat) (Chat.created chat)) /\
  chatMetadatas (fst res) =
    chatMetadatas
      (updateChatMetadata now (Chat.id chat)
         (mkUpdates (Some (nameAfter content chat)) (Some (S (length sent)))) a) /\
  alerts (fst res) =
    match presets a !! Chat.activePresetIndex chat with
    | Some _ => alerts a
    | None => alerts a ++ ["Failed to send message. Please check your API key and try again."]
    end /\
  match presets a !! Chat.activePresetIndex chat with
  | Some preset =>
      snd res = Sending (controllers a) (systemMessages preset ++ map toApi sent) /\
      streamingMessageRef (fst res) =
        Some (StreamingRef.mk (Chat.id chat) aid EmptyString (Some EmptyString)) /\
      abortController (fst res) = Some (controllers a) /\
      signalAborted (controllers a) (fst res) = false
  | None => snd res = Ended (Threw "TypeError")
  end.
Proof.
  intros Hchat Hkey. unfold handleSendMessage, userMessages, nameAfter.
  rewrite Hchat, Hkey. cbn [negb uuid newAbortController].
  set (F := List.filter notReasoning (Chat.messages chat)).
  set (ph := Message.mk (uuidv4 (uuidCalls a)) assistant (Text EmptyString) None
               (Some regular)).
  unfold apiMessagesOf, dropLast, systemMessages, placeholder.
  destruct (Js.truthy content); cbn [andb].
  - set (u := Message.mk _ user (Text content) None (Some regular)).
    replace (F ++ [u; ph]) with ((F ++ [u]) ++ [ph])
      by (rewrite <- app_assoc; reflexivity).
    destruct (presets a !! Chat.activePresetIndex chat) as [preset|];
      cbn -[removelast length]; rewrite ?removelast_last, ?length_app, ?Nat.add_1_r;
      cbn [length]; rewrite ?Nat.add_1_r; repeat split;
      try apply fresh_controller_not_aborted.
    destruct (Js.truthy (Preset.systemPrompt preset)); reflexivity.
  - rewrite app_nil_r.
    destruct (presets a !! Chat.activePresetIndex chat) as [preset|];
      cbn -[removelast length]; rewrite ?removelast_last, ?length_app, ?Nat.add_1_r;
      cbn [length]; rewrite ?Nat.add_1_r; repeat split;
      try apply fresh_controller_not_aborted.
    destruct (Js.truthy (Preset.systemPrompt preset)); reflexivity.
Qed.

End Sending.

(** ** A turn from its send to its end *)

Lemma notReasoning_not_reasoningMessage (m : Message.t) :
  notReasoning m = true -> isReasoningMessage m = false.
Proof.
  unfold notReasoning, isReasoningMessage.
  destruct (bool_decide (Message.messageType m = Some reasoning)); [discriminate|].
  reflexivity.
Qed.

Section Turns.

Variable uuidv4 : nat -> string.
Variable decode : string -> option Delta.t.

Lemma sentMessages_fresh content a chat :
  sendable uuidv4 a chat ->
  Forall (fun m => String.eqb (Message.id m) (uuidv4 (uuidCalls a)) = false)
    (sentMessages uuidv4 content a chat).
Proof.
  intros (_ & _ & _ & Hfresh & Hnext & _). unfold sentMessages, userMessages.
  apply Forall_app. split.
  - apply List.Forall_forall. intros m Hm. apply filter_In in Hm as [Hm _].
    rewrite List.Forall_forall in Hfresh. apply String.eqb_neq. now apply Hfresh.
  - destruct (Js.truthy content); constructor; [|constructor].
    cbn. now apply String.eqb_neq.
Qed.

Lemma sentMessages_regular content a chat :
  Forall (fun m => isReasoningMessage m = false) (sentMessages uuidv4 content a chat).
Proof.
  unfold sentMessages, userMessages. apply Forall_app. split.
  - apply List.Forall_forall. intros m Hm. apply filter_In in Hm as [_ Hm].
    now apply notReasoning_not_reasoningMessage.
  - destruct (Js.truthy content); repeat constructor.
Qed.

Lemma turn_streaming now content a chat :
  sendable uuidv4 a chat ->
  exists a1 l,
    step uuidv4 decode (handleSendMessage uuidv4 now content a)
      (FromWire (Response true true)) = (a1, Streaming l) /\
    TurnInv (Chat.id chat) (uuidv4 (uuidCalls a)) (sentMessages uuidv4 content a chat) [] a1 l /\
    TurnFrame (alerts a) a1 l.
Proof.
  intros Hs. pose proof Hs as (Hchat & Hkey & [preset Hpreset] & _).
  destruct (handleSendMessage_started uuidv4 now content a chat Hchat Hkey)
    as (Hactive & _ & Halerts & Hturn).
  rewrite Hpreset in Hturn, Halerts. destruct Hturn as (Hsnd & Href & Hctl & Hab).
  destruct (handleSendMessage uuidv4 now content a) as [a1 t1]. cbn [fst snd] in *.
  subst t1. cbn [step]. rewrite Hab. cbn [negb].
  eexists _, _. split; [reflexivity|]. split.
  - eapply turn_inv with (part := []) (appliedContent := EmptyString)
      (appliedReasoning := EmptyString);
      [exact Href | reflexivity | reflexivity | exact Hactive | reflexivity
      | reflexivity | | reflexivity | reflexivity | exact Hab].
    unfold reasoningPart. cbn. auto.
  - repeat split; auto.
Qed.

Lemma run_cons ev events st :
  run uuidv4 decode (ev :: events) st
  = run uuidv4 decode events (step uuidv4 decode st ev).
Proof. reflexivity. Qed.

Lemma run_app events events' st :
  run uuidv4 decode (events ++ events') st
  = run uuidv4 decode events' (run uuidv4 decode events st).
Proof. apply fold_left_app. Qed.

End Turns.

Section Endings.

Variable uuidv4 : nat -> string.
Variable decode : string -> option Delta.t.

Lemma run_one ev st :
  run uuidv4 decode [ev] st = step uuidv4 decode st ev.
Proof. reflexivity. Qed.

(** The state a turn has reached after a series of stream events. *)
Lemma turn_after_events now content a chat events :
  sendable uuidv4 a chat ->
  Forall streamEvent events ->
  exists a' l,
    run uuidv4 decode (FromWire (Response true true) :: events)
      (handleSendMessage uuidv4 now content a) = (a', Streaming l) /\
    TurnInv (Chat.id chat) (uuidv4 (uuidCalls a)) (sentMessages uuidv4 content a chat)
      (eventDeltas decode events) a' l /\
    TurnFrame (alerts a) a' l.
Proof.
  intros Hs Hevents.
  destruct (turn_streaming uuidv4 decode now content a chat Hs)
    as (a1 & l1 & Hstep & HI & HF).
  rewrite run_cons, Hstep.
  exact (inv_run uuidv4 decode _ _ _ (sentMessages_fresh uuidv4 content a chat Hs)
           (sentMessages_regular uuidv4 content a chat)
           (proj2 (proj2 (proj2 (proj2 (proj2 Hs)))))
           (alerts a) events [] a1 l1 Hevents HI HF).
Qed.

(** The end of the stream applies nothing: the handler has left, and the
    active chat is the chat the last chunk or timer left. *)
Lemma stream_end_applies_nothing now content a chat events :
  sendable uuidv4 a chat ->
  Forall streamEvent events ->
  let streamed :=
    run uuidv4 decode (FromWire (Response true true) :: events)
      (handleSendMessage uuidv4 now content a) in
  let final :=
    run uuidv4 decode (FromWire (Response true true) :: events ++ [FromWire Close])
      (handleSendMessage uuidv4 now content a) in
  snd final = Ended Returned /\
  activeChat (fst final) = activeChat (fst streamed).
Proof.
  intros Hs Hevents streamed final. subst streamed final.
  destruct (turn_after_events now content a chat events Hs Hevents)
    as (a2 & l2 & Hrun & HI & _).
  change (FromWire (Response true true) :: events ++ [FromWire Close])
    with ((FromWire (Response true true) :: events) ++ [FromWire Close]).
  rewrite run_app, Hrun, run_one.
  assert (Hab : signalAborted (controller l2) a2 = false) by now destruct HI.
  destruct (step_close uuidv4 decode a2 l2 Hab) as (a3 & -> & Hchat & _).
  split; [reflexivity | exact Hchat].
Qed.

(** C6. A turn whose stream has delivered the two answer deltas [Hel] and
    [lo], applied by the batching timer, and which the user then stops: the
    handler leaves through the [AbortError] branch, the assistant message
    still reads [Hello], the active chat is what it was before the stop, and
    no alert is shown. *)
Theorem cancel_keeps_partial_answer
  (now : Z) (content : string) (a : App) (chat : Chat.t)
  (events : list Event) (w : Wire) :
  sendable uuidv4 a chat ->
  Forall streamEvent events ->
  eventDeltas decode events =
    [Delta.mk (Some "Hel") None; Delta.mk (Some "lo") None] ->
  let applied :=
    run uuidv4 decode (FromWire (Response true true) :: events ++ [TimerFires])
      (handleSendMessage uuidv4 now content a) in
  let final := run uuidv4 decode [Stop; FromWire w] applied in
  (exists chat',
     activeChat (fst applied) = Some chat' /\
     Chat.messages chat' =
       sentMessages uuidv4 content a chat
       ++ [placeholder (uuidv4 (uuidCalls a)) "Hello"]) /\
  activeChat (fst final) = activeChat (fst applied) /\
  (exists e, snd final = Ended e /\ outcomeOf e = Aborted) /\
  alerts (fst final) = alerts a.
Proof.
  intros Hs Hevents Hdeltas applied final.
  assert (Hall : Forall streamEvent (events ++ [TimerFires])).
  { apply Forall_app. split; [exact Hevents|]. constructor; [now left | constructor]. }
  destruct (turn_after_events now content a chat _ Hs Hevents)
    as (a1 & l1 & Hrun1 & HI1 & HF1).
  destruct (turn_after_events now content a chat _ Hs Hall)
    as (a2 & l2 & Hrun2 & HI2 & HF2).
  assert (Hempty : accumulatedContent l2 = EmptyString /\
                   accumulatedReasoning l2 = EmptyString).
  { change (FromWire (Response true true) :: events ++ [TimerFires])
      with ((FromWire (Response true true) :: events) ++ [TimerFires]) in Hrun2.
    rewrite run_app, Hrun1 in Hrun2. unfold run in Hrun2. cbn [fold_left step] in Hrun2.
    destruct (updateTimer l1) eqn:Harmed.
    - destruct (inv_flushUpdate _ _ _
                  (sentMessages_fresh uuidv4 content a chat Hs)
                  (sentMessages_regular uuidv4 content a chat)
                  (proj2 (proj2 (proj2 (proj2 (proj2 Hs))))) _ a1 l1 HI1)
        as (_ & Hc0 & Hq0).
      unfold timerCallback in Hrun2.
      destruct (flushUpdate (a1, l1)) as [a1' l1']. cbn [snd] in Hc0, Hq0.
      injection Hrun2 as <- <-. cbn. auto.
    - injection Hrun2 as <- <-. destruct HF1 as (_ & _ & Hidle). auto. }
  destruct Hempty as [Hc0 Hq0].
  destruct (inv_applied _ _ _ _ a2 l2 HI2 Hc0 Hq0)
    as (chat2 & part & Hchat2 & _ & Hmsgs & Hpart).
  unfold eventDeltas in Hmsgs, Hpart. rewrite flat_map_app in Hmsgs, Hpart.
  cbn [flat_map] in Hmsgs, Hpart. rewrite app_nil_r in Hmsgs, Hpart.
  fold (eventDeltas decode events) in Hmsgs, Hpart. rewrite Hdeltas in Hmsgs, Hpart.
  unfold reasoningPart in Hpart. cbn in Hpart. destruct Hpart as [-> _].
  subst final applied. rewrite Hrun2. cbn [fst snd].
  destruct HF2 as (Hctl & Hal & _).
  unfold run. cbn [fold_left step]. unfold handleStopMessage. rewrite Hctl.
  cbn. rewrite Nat.eqb_refl. cbn.
  split; [exists chat2; split; [exact Hchat2 | exact Hmsgs]|].
  split; [reflexivity|]. split; [|exact Hal].
  exists (Threw "AbortError"). split; reflexivity.
Qed.

End Endings.

(** ** The guard of the stream updates *)

Lemma keeps_refl a : keeps a a.
Proof. split; auto. Qed.

Lemma keeps_guarded a a' : guarded a -> keeps a a' -> guarded a'.
Proof.
  intros Hg [Hchat Href] chat Hc. rewrite Hchat in Hc.
  destruct Href as [-> | ->]; [now apply Hg | reflexivity].
Qed.

Lemma keeps_trans a a' a'' : keeps a a' -> keeps a' a'' -> keeps a a''.
Proof.
  intros [H1 R1] [H2 R2]. split; [congruence|].
  destruct R2 as [R2|R2]; [|now right].
  rewrite R2. exact R1.
Qed.

Lemma guarded_flushUpdater a c q :
  guarded a -> flushUpdater (streamingMessageRef a) c q (activeChat a) = activeChat a.
Proof.
  intros Hg. unfold flushUpdater. destruct (activeChat a) as [p|] eqn:Hp; [|reflexivity].
  now rewrite (Hg p Hp).
Qed.

Lemma guarded_flushUpdate a l :
  guarded a -> keeps a (fst (flushUpdate (a, l))).
Proof.
  intros Hg. rewrite flushUpdate_eq.
  destruct (streamingMessageRef a) eqn:Hr; [|apply keeps_refl].
  destruct (_ || _); [|apply keeps_refl].
  cbn [fst]. split; [|now left]. cbn. rewrite <- Hr. now apply guarded_flushUpdater.
Qed.

Section Guard.

Variable uuidv4 : nat -> string.
Variable decode : string -> option Delta.t.

Lemma guarded_createReasoningMessage a :
  guarded a -> createReasoningMessage uuidv4 a = a.
Proof.
  intros Hg. unfold createReasoningMessage.
  destruct (activeChat a) as [p|] eqn:Hp; [|reflexivity].
  now rewrite (Hg p Hp).
Qed.

Lemma guarded_onDelta a l d :
  guarded a -> fst (onDelta uuidv4 d (a, l)) = a.
Proof.
  intros Hg. unfold onDelta.
  destruct (Delta.reasoning d); cbn [fst]; [|reflexivity].
  now apply guarded_createReasoningMessage.
Qed.

Lemma guarded_processLine a l line :
  guarded a -> keeps a (fst (processLine uuidv4 decode (a, l) line)).
Proof.
  intros Hg. unfold processLine.
  destruct (Js.startsWith "data: " line); [|apply keeps_refl].
  destruct (String.eqb _ _); [apply keeps_refl|].
  destruct (decode _) as [d|].
  - rewrite guarded_onDelta by assumption. apply keeps_refl.
  - cbn. split; auto.
Qed.

Lemma guarded_lines lines : forall a l,
  guarded a -> keeps a (fst (fold_left (processLine uuidv4 decode) lines (a, l))).
Proof.
  induction lines as [|line lines IH]; intros a l Hg; [apply keeps_refl|].
  cbn [fold_left]. pose proof (guarded_processLine a l line Hg) as H1.
  destruct (processLine uuidv4 decode (a, l) line) as [a1 l1]. cbn [fst] in H1.
  eapply keeps_trans; [exact H1|]. apply IH. eapply keeps_guarded; eassumption.
Qed.

Lemma keeps_finishTurn e a : keeps a (finishTurn e a).
Proof.
  unfold finishTurn. destruct e as [|name]; [split; cbn; auto|].
  destruct (String.eqb name "AbortError"); split; cbn; auto.
Qed.

Lemma keeps_handleStopMessage a : keeps a (handleStopMessage a).
Proof.
  unfold handleStopMessage. destruct (abortController a); [split; cbn; auto|].
  apply keeps_refl.
Qed.

Lemma guarded_step a turn ev :
  guarded a -> keeps a (fst (step uuidv4 decode (a, turn) ev)).
Proof.
  intros Hg. destruct ev as [w| |]; destruct turn as [|ctl request|l|e];
    cbn [step fst]; try apply keeps_refl; try apply keeps_handleStopMessage.
  - destruct (signalAborted ctl a); [apply keeps_finishTurn|].
    destruct w as [ok hasBody|text| |name]; try apply keeps_refl;
      [|apply keeps_finishTurn].
    destruct ok; cbn [negb]; [|apply keeps_finishTurn].
    destruct hasBody; cbn [negb]; [apply keeps_refl | apply keeps_finishTurn].
  - destruct (signalAborted (controller l) a); [apply keeps_finishTurn|].
    destruct w as [ok hasBody|text| |name]; try apply keeps_refl.
    + pose proof (guarded_lines (Js.split Js.LF text) a l Hg) as H.
      fold (readChunk uuidv4 decode (a, l) text) in H.
      destruct (readChunk uuidv4 decode (a, l) text) as [a' l']. exact H.
    + destruct (flushUpdateCall a l) as [[[finalContent finalReasoning]|] l'];
        cbn [leave runFlushUpdater fst]; [|apply keeps_finishTurn].
      split; cbn; [destruct (activeChat a); reflexivity | right; reflexivity].
    + apply keeps_finishTurn.
  - destruct (updateTimer l); [|apply keeps_refl].
    pose proof (guarded_flushUpdate a l Hg) as H. unfold timerCallback.
    destruct (flushUpdate (a, l)) as [a' l']. exact H.
Qed.

(** C5. While the active chat is not the chat the stream in flight was
    started for, no event of that stream (a chunk with answer or reasoning
    deltas, the batching timer, the end of the stream, its failure or its
    cancellation) changes the active chat: the text is not appended and the
    reasoning message is not inserted. *)
Theorem stream_updates_guarded (events : list Event) (a : App) (turn : Turn) :
  guarded a ->
  activeChat (fst (run uuidv4 decode events (a, turn))) = activeChat a.
Proof.
  revert a turn. induction events as [|ev events IH]; intros a turn Hg; [reflexivity|].
  rewrite (run_cons uuidv4 decode).
  pose proof (guarded_step a turn ev Hg) as Hk.
  destruct (step uuidv4 decode (a, turn) ev) as [a1 t1]. cbn [fst] in Hk.
  rewrite (IH a1 t1 (keeps_guarded _ _ Hg Hk)). apply Hk.
Qed.

End Guard.

(** ** The chat a send leaves *)

Lemma find_map_same {A} (p : A -> bool) (f : A -> A) (l : list A) :
  (forall x, p (f x) = p x) -> find p (map f l) = option_map f (find p l).
Proof.
  intros Hp. induction l as [|x l IH]; cbn [map find]; [reflexivity|].
  rewrite Hp. destruct (p x); [reflexivity | exact IH].
Qed.

Lemma metadataOf_update (now : Z) (chatId : string) (updates : MetadataUpdates) (a : App) :
  metadataOf chatId (updateChatMetadata now chatId updates a) =
  option_map (fun meta =>
    ChatMetadata.mk (ChatMetadata.id meta)
      (default (ChatMetadata.name meta) (newName updates))
      (ChatMetadata.created meta)
      (default (ChatMetadata.messageCount meta) (newMessageCount updates)) now)
    (metadataOf chatId a).
Proof.
  unfold metadataOf, updateChatMetadata. cbn [chatMetadatas setChatMetadatas].
  induction (chatMetadatas a) as [|meta metas IH]; cbn [map find]; [reflexivity|].
  destruct (String.eqb (ChatMetadata.id meta) chatId) eqn:E; cbn [ChatMetadata.id].
  - rewrite E. reflexivity.
  - rewrite E. exact IH.
Qed.

Lemma filter_notReasoning (msgs : list Message.t) :
  Forall (fun m => Message.messageType m <> Some reasoning)
    (List.filter notReasoning msgs).
Proof.
  apply List.Forall_forall. intros m Hm. apply filter_In in Hm as [_ Hm].
  unfold notReasoning in Hm. apply negb_true_iff, bool_decide_eq_false in Hm.
  exact Hm.
Qed.

Lemma filter_notReasoning_all (msgs : list Message.t) :
  Forall (fun m => Message.messageType m <> Some reasoning) msgs ->
  List.filter notReasoning msgs = msgs.
Proof.
  induction 1 as [|m ms Hm _ IH]; [reflexivity|].
  cbn [List.filter]. unfold notReasoning at 1.
  rewrite (bool_decide_eq_false_2 _ Hm). cbn [negb]. now rewrite IH.
Qed.

(** ** The default pattern, the trimming and the first characters *)

Lemma isDigit_spec (c : ascii) : Js.isDigit c = true <-> decimalDigit c.
Proof.
  unfold Js.isDigit, decimalDigit. split.
  - intros H. apply andb_true_iff in H as [Hlo Hhi].
    apply Nat.leb_le in Hlo, Hhi. rewrite <- (ascii_nat_embedding c).
    assert (Hn : In (nat_of_ascii c) [48; 49; 50; 51; 52; 53; 54; 55; 56; 57])
      by (cbn; lia).
    exact (in_map ascii_of_nat _ _ Hn).
  - intros H. cbn in H.
    repeat (destruct H as [<-|H]; [reflexivity|]). destruct H.
Qed.

Lemma isWhiteSpace_spec (c : ascii) : Js.isWhiteSpace c = true <-> whiteSpace c.
Proof.
  unfold Js.isWhiteSpace, whiteSpace. split.
  - intros H. rewrite <- (ascii_nat_embedding c). apply in_map.
    apply orb_true_iff in H as [H|H]; [apply orb_true_iff in H as [H|H]|].
    + apply andb_true_iff in H as [Hlo Hhi]. apply Nat.leb_le in Hlo, Hhi. cbn. lia.
    + apply Nat.eqb_eq in H. cbn. lia.
    + apply Nat.eqb_eq in H. cbn. lia.
  - intros H. cbn in H.
    repeat (destruct H as [<-|H]; [reflexivity|]). destruct H.
Qed.

Lemma not_whiteSpace (c : ascii) : ~ whiteSpace c -> Js.isWhiteSpace c = false.
Proof.
  intros H. destruct (Js.isWhiteSpace c) eqn:E; [|reflexivity].
  exfalso. now apply H, isWhiteSpace_spec.
Qed.

Lemma prefix_slice (p s : string) :
  Js.startsWith p s = true -> s = p +:+ Js.slice (String.length p) s.
Proof.
  unfold Js.startsWith. revert s. induction p as [|a p IH]; intros s H; [reflexivity|].
  destruct s as [|b s]; [discriminate|]. cbn in H.
  destruct (ascii_dec a b) as [->|]; [|discriminate].
  rewrite string_app_cons. cbn [String.length Js.slice]. now rewrite <- (IH s H).
Qed.

Lemma matchesChatDigits_Chat (s : string) :
  matchesChatDigits ("Chat " +:+ s)
  = Js.truthy s && forallb Js.isDigit (list_ascii_of_string s).
Proof. unfold matchesChatDigits. rewrite prefix_app. reflexivity. Qed.

(** The regular expression of [hasDefaultName] accepts the names of the
    default pattern and no others. *)
Lemma matchesChatDigits_spec (name : string) :
  matchesChatDigits name = true <-> defaultPattern name.
Proof.
  split.
  - intros H. unfold matchesChatDigits in H.
    apply andb_true_iff in H as [Hprefix H]. apply andb_true_iff in H as [Htruthy Hdigits].
    exists (Js.slice 5 name). split; [exact (prefix_slice "Chat " name Hprefix)|].
    split.
    + intros Hempty. rewrite Hempty in Htruthy. discriminate.
    + apply List.Forall_forall. intros c Hc. apply isDigit_spec.
      rewrite forallb_forall in Hdigits. now apply Hdigits.
  - intros (digits & -> & Hsome & Hdigits). rewrite matchesChatDigits_Chat.
    apply andb_true_iff. split.
    + unfold Js.truthy. now apply negb_true_iff, String.eqb_neq.
    + apply forallb_forall. intros c Hc. apply isDigit_spec.
      rewrite List.Forall_forall in Hdigits. now apply Hdigits.
Qed.

Lemma trimStart_blank (before s : string) :
  blank before -> Js.trimStart (before +:+ s) = Js.trimStart s.
Proof.
  unfold blank. induction before as [|c r IH]; intros H; [reflexivity|].
  cbn [list_ascii_of_string] in H. inversion H as [|? ? Hc Hr]; subst.
  rewrite string_app_cons. cbn [Js.trimStart].
  rewrite (proj2 (isWhiteSpace_spec c) Hc). now apply IH.
Qed.

Lemma trimStart_all_blank (s : string) : blank s -> Js.trimStart s = EmptyString.
Proof.
  intros H. rewrite <- (string_app_nil_r s). now rewrite trimStart_blank.
Qed.

Lemma trimEnd_all_blank (s : string) : blank s -> Js.trimEnd s = EmptyString.
Proof.
  unfold blank. induction s as [|c r IH]; intros H; [reflexivity|].
  cbn [list_ascii_of_string] in H. inversion H as [|? ? Hc Hr]; subst.
  cbn [Js.trimEnd]. rewrite (IH Hr). now rewrite (proj2 (isWhiteSpace_spec c) Hc).
Qed.

Lemma trimEnd_blank (s after : string) :
  blank after -> Js.trimEnd (s +:+ after) = Js.trimEnd s.
Proof.
  intros H. induction s as [|c r IH]; [now apply trimEnd_all_blank|].
  rewrite string_app_cons. cbn [Js.trimEnd]. now rewrite IH.
Qed.

Lemma trimEnd_bare (s : string) :
  (forall c, last (list_ascii_of_string s) = Some c -> ~ whiteSpace c) ->
  Js.trimEnd s = s.
Proof.
  induction s as [|a r IH]; intros H; [reflexivity|].
  cbn [Js.trimEnd]. rewrite IH.
  - destruct r as [|b r']; [|reflexivity].
    rewrite not_whiteSpace; [reflexivity|]. apply H. reflexivity.
  - intros c Hc. apply H. cbn [list_ascii_of_string]. rewrite last_cons, Hc. reflexivity.
Qed.

(** [trim] removes the white space around the text, and nothing else. *)
Lemma trim_spec (content body : string) :
  trimmed content body -> Js.trim content = body.
Proof.
  intros (before & after & -> & Hbefore & Hafter & Hhead & Hlast).
  unfold Js.trim. rewrite (trimStart_blank before _ Hbefore).
  destruct body as [|c r].
  - rewrite string_app_nil_l, (trimStart_all_blank after Hafter). reflexivity.
  - rewrite string_app_cons. cbn [Js.trimStart].
    rewrite not_whiteSpace by (apply Hhead; reflexivity).
    rewrite <- string_app_cons, (trimEnd_blank _ after Hafter).
    now apply trimEnd_bare.
Qed.

Lemma trimStart_split (s : string) :
  exists before, s = before +:+ Js.trimStart s /\ blank before.
Proof.
  induction s as [|c r (before & Hr & Hblank)];
    [exists EmptyString; split; [reflexivity|constructor]|].
  cbn [Js.trimStart]. destruct (Js.isWhiteSpace c) eqn:Hc.
  - exists (String c before). rewrite string_app_cons, <- Hr.
    split; [reflexivity|]. constructor; [now apply isWhiteSpace_spec | exact Hblank].
  - exists EmptyString. split; [reflexivity|constructor].
Qed.

Lemma trimEnd_split (s : string) :
  exists after, s = Js.trimEnd s +:+ after /\ blank after.
Proof.
  induction s as [|c r (after & Hr & Hblank)];
    [exists EmptyString; split; [reflexivity|constructor]|].
  cbn [Js.trimEnd]. destruct (Js.trimEnd r) as [|b r'] eqn:E.
  - rewrite string_app_nil_l in Hr. subst after.
    destruct (Js.isWhiteSpace c) eqn:Hc.
    + exists (String c r). split; [reflexivity|].
      constructor; [now apply isWhiteSpace_spec | exact Hblank].
    + exists r. split; [reflexivity|exact Hblank].
  - exists after. rewrite string_app_cons, <- Hr. split; [reflexivity|exact Hblank].
Qed.

Lemma trimEnd_last (s : string) (c : ascii) :
  last (list_ascii_of_string (Js.trimEnd s)) = Some c -> ~ whiteSpace c.
Proof.
  revert c. induction s as [|a r IH]; intros c; [discriminate|].
  cbn [Js.trimEnd]. destruct (Js.trimEnd r) as [|b r'] eqn:E.
  - destruct (Js.isWhiteSpace a) eqn:Ha; [discriminate|].
    cbn. intros [= <-] Hws. apply isWhiteSpace_spec in Hws. congruence.
  - change (list_ascii_of_string (String a (String b r')))
      with (a :: list_ascii_of_string (String b r')).
    rewrite last_cons.
    destruct (last (list_ascii_of_string (String b r'))) as [d|] eqn:Hd.
    + intros [= <-]. now apply IH.
    + apply last_None in Hd. discriminate.
Qed.

(** Every text has its trimmed form, the one [trim] returns. *)
Lemma trimmed_trim (content : string) : trimmed content (Js.trim content).
Proof.
  destruct (trimStart_split content) as (before & Hcontent & Hbefore).
  destruct (trimEnd_split (Js.trimStart content)) as (after & Hstart & Hafter).
  exists before, after. unfold Js.trim.
  split; [now rewrite <- Hstart|]. split; [exact Hbefore|]. split; [exact Hafter|].
  split; [|apply trimEnd_last].
  intros c. clear. induction content as [|a r IH]; [discriminate|].
  cbn [Js.trimStart]. destruct (Js.isWhiteSpace a) eqn:Ha; [exact IH|].
  cbn [Js.trimEnd]. destruct (Js.trimEnd r); rewrite ?Ha; cbn; intros [= <-] Hws;
    apply isWhiteSpace_spec in Hws; congruence.
Qed.

Lemma substring_first (n : nat) : forall s,
  firstCharacters n s (String.substring 0 n s).
Proof.
  unfold firstCharacters. induction n as [|n IH]; intros s.
  - destruct s; cbn; split; eauto.
  - destruct s as [|c s]; [cbn; split; [exists EmptyString|]; reflexivity|].
    cbn [String.substring String.length]. destruct (IH s) as [[rest Hrest] Hlen].
    split.
    + exists rest. rewrite string_app_cons. now rewrite <- Hrest.
    + rewrite Hlen. reflexivity.
Qed.

Section SendClaims.

Variable uuidv4 : nat -> string.

(** C8. A send that reaches [fetch] leaves in the chat, and puts in the
    request, no message of the reasoning kind: the chat holds the earlier
    messages that are not of that kind, in their order, followed by the new
    user message (when the content is not empty) and the new assistant
    message; the request holds the same without the assistant message, after
    the system prompt of the preset. *)
Theorem send_strips_reasoning
  (now : Z) (content : string) (a : App) (chat : Chat.t) (preset : Preset.t) :
  activeChat a = Some chat ->
  Js.truthy (apiKey a) = true ->
  presets a !! Chat.activePresetIndex chat = Some preset ->
  let res := handleSendMessage uuidv4 now content a in
  let kept := List.filter notReasoning (Chat.messages chat) in
  let added := userMessages uuidv4 content a in
  Forall (fun m => Message.messageType m <> Some reasoning) kept /\
  (Forall (fun m => Message.messageType m <> Some reasoning) (Chat.messages chat) ->
   kept = Chat.messages chat) /\
  exists chat',
    activeChat (fst res) = Some chat' /\
    Chat.messages chat' =
      kept ++ added ++ [placeholder (uuidv4 (uuidCalls a)) EmptyString] /\
    Forall (fun m => Message.messageType m <> Some reasoning) (Chat.messages chat') /\
    snd res =
      Sending (controllers a) (systemMessages preset ++ map toApi (kept ++ added)).
Proof.
  intros Hchat Hkey Hpreset res kept added. subst res kept added.
  destruct (handleSendMessage_started uuidv4 now content a chat Hchat Hkey)
    as (Hactive & _ & _ & Hturn).
  rewrite Hpreset in Hturn. destruct Hturn as (Hsnd & _).
  split; [apply filter_notReasoning|]. split.
  - apply filter_notReasoning_all.
  - eexists. split; [exact Hactive|]. cbn [Chat.messages].
    split; [now rewrite <- app_assoc|]. split; [|exact Hsnd].
    apply Forall_app. split; [apply Forall_app; split|].
    + apply filter_notReasoning.
    + unfold userMessages. destruct (Js.truthy content); repeat constructor; discriminate.
    + repeat constructor. discriminate.
Qed.

(** C9. A chat whose name is of the default pattern, [Chat] and an
    integer, that is sent a message that is not empty is renamed, in the
    active chat and in its metadata entry, to the first 20 characters of the
    message without the white space around it.  A chat whose name is not of
    the pattern keeps its name whatever is sent or appended. *)
Theorem default_name_rule
  (now : Z) (content : string) (a : App) (chat : Chat.t) :
  activeChat a = Some chat ->
  Js.truthy (apiKey a) = true ->
  let sent := fst (handleSendMessage uuidv4 now content a) in
  let appended := handleAppendMessage uuidv4 now content a in
  (defaultPattern (Chat.name chat) ->
   forall body,
     content <> EmptyString -> trimmed content body ->
     exists name,
       firstCharacters 20 body name /\
       Chat.name <$> activeChat sent = Some name /\
       ChatMetadata.name <$> metadataOf (Chat.id chat) sent =
         (fun _ => name) <$> metadataOf (Chat.id chat) a) /\
  (~ defaultPattern (Chat.name chat) ->
   Chat.name <$> activeChat sent = Some (Chat.name chat) /\
   Chat.name <$> activeChat appended = Some (Chat.name chat)).
Proof.
  intros Hchat Hkey sent appended. subst sent appended.
  destruct (handleSendMessage_started uuidv4 now content a chat Hchat Hkey)
    as (Hactive & Hmeta & _).
  split.
  - intros Hpattern body Hcontent Htrimmed.
    assert (Hdefault : hasDefaultName chat = true).
    { unfold hasDefaultName, name_of, Chat_named. now apply matchesChatDigits_spec. }
    assert (Htruthy : Js.truthy content = true).
    { unfold Js.truthy. now apply negb_true_iff, String.eqb_neq. }
    exists (String.substring 0 20 body).
    split; [apply substring_first|].
    assert (Hname : nameAfter content chat = String.substring 0 20 body).
    { unfold nameAfter. rewrite Htruthy, Hdefault, (trim_spec _ _ Htrimmed). reflexivity. }
    split.
    + rewrite Hactive, Hname. reflexivity.
    + unfold metadataOf at 1. rewrite Hmeta.
      fold (metadataOf (Chat.id chat)
              (updateChatMetadata now (Chat.id chat)
                 (mkUpdates (Some (nameAfter content chat))
                    (Some (S (length (List.filter notReasoning (Chat.messages chat)
                       ++ userMessages uuidv4 content a))))) a)).
      rewrite metadataOf_update, Hname.
      destruct (metadataOf (Chat.id chat) a); reflexivity.
  - intros Hcustom.
    assert (Hdefault : hasDefaultName chat = false).
    { unfold hasDefaultName, name_of, Chat_named.
      destruct (matchesChatDigits (Chat.name chat)) eqn:E; [|reflexivity].
      exfalso. apply Hcustom. now apply matchesChatDigits_spec. }
    split.
    + rewrite Hactive. unfold nameAfter. rewrite Hdefault, andb_false_r. reflexivity.
    + unfold handleAppendMessage. rewrite Hchat. rewrite Hdefault, andb_false_r.
      reflexivity.
Qed.

End SendClaims.

(** ** Chunks and lines *)

Lemma split_nonempty (sep : ascii) (s : string) : Js.split sep s <> [].
Proof.
  destruct s as [|c r]; cbn [Js.split]; [discriminate|].
  destruct (Ascii.eqb c sep); [discriminate|].
  destruct (Js.split sep r); discriminate.
Qed.

(** Splitting a concatenation: the last piece of the first text and the
    first piece of the second are one piece. *)
Lemma split_app (sep : ascii) (s : string) :
  exists pieces final,
    Js.split sep s = pieces ++ [final] /\
    forall t first rest,
      Js.split sep t = first :: rest ->
      Js.split sep (s +:+ t) = pieces ++ (final +:+ first) :: rest.
Proof.
  induction s as [|c r (pieces & final & Hr & Hrt)].
  - exists [], EmptyString. split; [reflexivity|]. intros t first rest Ht.
    rewrite string_app_nil_l. exact Ht.
  - destruct (Ascii.eqb c sep) eqn:Hc.
    + exists (EmptyString :: pieces), final. split.
      * cbn [Js.split]. now rewrite Hc, Hr.
      * intros t first rest Ht. rewrite string_app_cons. cbn [Js.split].
        now rewrite Hc, (Hrt t first rest Ht).
    + destruct pieces as [|piece pieces].
      * exists [], (String c final). split.
        -- cbn [Js.split]. now rewrite Hc, Hr.
        -- intros t first rest Ht. rewrite string_app_cons. cbn [Js.split].
           now rewrite Hc, (Hrt t first rest Ht).
      * exists (String c piece :: pieces), final. split.
        -- cbn [Js.split]. now rewrite Hc, Hr.
        -- intros t first rest Ht. rewrite string_app_cons. cbn [Js.split].
           now rewrite Hc, (Hrt t first rest Ht).
Qed.

Lemma split_endsWithLF (s : string) :
  endsWithLF s = true -> exists pieces, Js.split Js.LF s = pieces ++ [EmptyString].
Proof.
  induction s as [|c r IH]; [discriminate|].
  destruct r as [|c' r'].
  - cbn [endsWithLF]. intros Hc. exists [EmptyString]. cbn [Js.split]. now rewrite Hc.
  - intros H. destruct (IH H) as [pieces Hp]. cbn [Js.split] in Hp |- *.
    destruct (Ascii.eqb c Js.LF).
    + exists (EmptyString :: pieces). now rewrite Hp.
    + rewrite Hp. destruct pieces as [|piece pieces].
      * exfalso. cbn [app] in Hp. clear -Hp.
        destruct (Ascii.eqb c' Js.LF).
        -- pose proof (split_nonempty Js.LF r'). injection Hp as Hp. contradiction.
        -- destruct (Js.split Js.LF r'); discriminate.
      * exists (String c piece :: pieces). reflexivity.
Qed.

(** After a text that ends with a line feed the lines of what follows are
    unchanged, and the text itself ends in one empty piece. *)
Lemma split_aligned (s t : string) :
  endsWithLF s = true ->
  exists pieces,
    Js.split Js.LF s = pieces ++ [EmptyString] /\
    Js.split Js.LF (s +:+ t) = pieces ++ Js.split Js.LF t.
Proof.
  intros Hs. destruct (split_endsWithLF s Hs) as [pieces Hp].
  destruct (split_app Js.LF s) as (pieces' & final & Hs' & Hst).
  rewrite Hp in Hs'. apply app_inj_tail in Hs' as [<- <-].
  exists pieces. split; [exact Hp|].
  destruct (Js.split Js.LF t) as [|first rest] eqn:Ht.
  - now apply split_nonempty in Ht.
  - now rewrite (Hst t first rest Ht).
Qed.

Section Chunks.

Variable uuidv4 : nat -> string.
Variable decode : string -> option Delta.t.

Lemma chunkDeltas_aligned (s t : string) :
  endsWithLF s = true ->
  chunkDeltas decode (s +:+ t) = chunkDeltas decode s ++ chunkDeltas decode t.
Proof.
  intros Hs. destruct (split_aligned s t Hs) as (pieces & Hp & Hst).
  unfold chunkDeltas. rewrite Hst, Hp, !omap_app. cbn. now rewrite app_nil_r.
Qed.

Lemma readChunk_aligned (s t : string) (st : App * Loop) :
  endsWithLF s = true ->
  readChunk uuidv4 decode st (s +:+ t)
  = readChunk uuidv4 decode (readChunk uuidv4 decode st s) t.
Proof.
  intros Hs. destruct (split_aligned s t Hs) as (pieces & Hp & Hst).
  unfold readChunk. rewrite Hst, Hp, !fold_left_app. reflexivity.
Qed.

(** C2, as the code has it. The loop decodes each chunk on its own and takes
    its lines in order, so when every chunk ends with a line feed the deltas
    read, and the state the loop reaches, are those of the whole stream read
    as one text: the order is the order on the wire. *)
Theorem aligned_chunks_in_wire_order (chunks : list string) (st : App * Loop) :
  Forall (fun chunk => endsWithLF chunk = true) chunks ->
  flat_map (chunkDeltas decode) chunks = chunkDeltas decode (wholeStream chunks) /\
  fold_left (readChunk uuidv4 decode) chunks st
  = readChunk uuidv4 decode st (wholeStream chunks).
Proof.
  intros Hall. revert st. induction Hall as [|chunk chunks Hc _ IH]; intros st.
  - split; reflexivity.
  - cbn [flat_map fold_left wholeStream fold_right].
    fold (wholeStream chunks).
    rewrite (chunkDeltas_aligned _ _ Hc), (readChunk_aligned _ _ _ Hc).
    destruct (IH (readChunk uuidv4 decode st chunk)) as [-> ->]. split; reflexivity.
Qed.

End Chunks.

(** ** The claims on the concrete installation *)

(** C2 as stated fails: a [data:] line cut in two by the chunk boundary is
    not put together again.  Read in one chunk the line yields its delta, which
    the batching timer applies; read in two chunks it yields none, and the
    turn ends with an empty answer. *)
Lemma split_line_is_lost :
  (Example.firstRead +:+ Example.secondRead = Example.wholeLine) /\
  chunkDeltas Json.decode Example.wholeLine = [Delta.mk (Some "Hi") None] /\
  flat_map (chunkDeltas Json.decode) [Example.firstRead; Example.secondRead] = [] /\
  (Chat.messages <$>
     activeChat (fst (run Example.uuidv4 Json.decode
       [FromWire (Response true true); FromWire (Chunk Example.wholeLine);
        TimerFires; FromWire Close]
       (handleSendMessage Example.uuidv4 5 EmptyString Example.appA)))
   = Some [placeholder "uuid-0" "Hi"]) /\
  (Chat.messages <$>
     activeChat (fst (run Example.uuidv4 Json.decode
       [FromWire (Response true true); FromWire (Chunk Example.firstRead);
        FromWire (Chunk Example.secondRead); TimerFires; FromWire Close]
       (handleSendMessage Example.uuidv4 5 EmptyString Example.appA)))
   = Some [placeholder "uuid-0" EmptyString]).
Proof. vm_compute. repeat split; reflexivity. Qed.

(** C1 on the code: a turn whose stream delivers, in one chunk, a reasoning
    delta [hm] and an answer delta [Hel] and then ends.  The two texts are in
    the accumulators when the stream ends; the updater queued at the end runs
    after the ref is cleared, and the turn is over with an empty reasoning
    message and an empty assistant message.  Had the batching timer fired
    before the end, the messages would hold the two texts. *)
Lemma stream_end_drops_batched_texts :
  let chunk := Example.reasoningLine "hm" +:+ Example.answerLine "Hel" in
  let send := handleSendMessage Example.uuidv4 5 "Hello" Example.appA in
  let final :=
    run Example.uuidv4 Json.decode
      [FromWire (Response true true); FromWire (Chunk chunk); FromWire Close] send in
  let timed :=
    run Example.uuidv4 Json.decode
      [FromWire (Response true true); FromWire (Chunk chunk); TimerFires;
       FromWire Close] send in
  chunkDeltas Json.decode chunk
  = [Delta.mk None (Some "hm"); Delta.mk (Some "Hel") None] /\
  snd final = Ended Returned /\
  Chat.messages <$> activeChat (fst final)
  = Some [Message.mk "uuid-1" user (Text "Hello") None (Some regular);
          reasoningMessage "reasoning-uuid-2" EmptyString;
          placeholder "uuid-0" EmptyString] /\
  Chat.messages <$> activeChat (fst timed)
  = Some [Message.mk "uuid-1" user (Text "Hello") None (Some regular);
          reasoningMessage "reasoning-uuid-2" "hm";
          placeholder "uuid-0" "Hel"].
Proof. vm_compute. repeat split; reflexivity. Qed.

(** C3 on the code: the answer delta [Hel] arrives and the batching timer
    applies it; then a chunk with a reasoning delta [hm] and an answer delta
    [lo] arrives and the stream ends at once.  The turn is over with the
    assistant message reading [Hel] and the reasoning message empty: the
    texts of the last chunk are lost. *)
Lemma trailing_delta_is_lost :
  let trailing := Example.reasoningLine "hm" +:+ Example.answerLine "lo" in
  let final :=
    run Example.uuidv4 Json.decode
      [FromWire (Response true true); FromWire (Chunk (Example.answerLine "Hel"));
       TimerFires; FromWire (Chunk trailing); FromWire Close]
      (handleSendMessage Example.uuidv4 5 "Hello" Example.appA) in
  chunkDeltas Json.decode trailing
  = [Delta.mk None (Some "hm"); Delta.mk (Some "lo") None] /\
  snd final = Ended Returned /\
  Chat.messages <$> activeChat (fst final)
  = Some [Message.mk "uuid-1" user (Text "Hello") None (Some regular);
          reasoningMessage "reasoning-uuid-2" EmptyString;
          placeholder "uuid-0" "Hel"].
Proof. vm_compute. repeat split; reflexivity. Qed.

(** C4 on the code: after a turn in which a reasoning delta arrived, the chat
    holds the user message, the reasoning message and the assistant message,
    while the metadata entry still counts the two messages of the send. *)
Lemma reasoning_message_not_counted :
  let final :=
    fst (run Example.uuidv4 Json.decode
           (FromWire (Response true true) :: Example.events ++ [FromWire Close])
           (handleSendMessage Example.uuidv4 5 "Hello" Example.appA)) in
  (length <$> (Chat.messages <$> activeChat final) = Some 3) /\
  (ChatMetadata.messageCount <$> metadataOf "a" final = Some 2).
Proof. vm_compute. split; reflexivity. Qed.

(** C10 on the code: deleting the active chat [b] while the chat [a] remains
    removes the metadata entry and makes [a] active, but the body of [b] is
    in the store again, written by [handleSelectChat]. *)
Lemma deleted_active_chat_is_saved_again :
  let after := handleDeleteChat "b" Example.appB in
  chatMetadatas after = [Example.metaA] /\
  activeChat after = Some Example.chatA /\
  activeChatId after = Some "a" /\
  db after !! chatKey "b" = Some (VChat Example.chatB).
Proof. vm_compute. repeat split; reflexivity. Qed.

(** ** What the handlers do to the message count and to the store *)

Section Counting.

Variable uuidv4 : nat -> string.

(** The handlers that change the length of the message list and update the
    count with it: delete, append, and the send itself. *)
Lemma handleDeleteMessage_counts (now : Z) (messageId : string) (a : App)
  (chat : Chat.t) (meta : ChatMetadata.t) :
  activeChat a = Some chat ->
  metadataOf (Chat.id chat) a = Some meta ->
  let a' := handleDeleteMessage now messageId a in
  exists chat',
    activeChat a' = Some chat' /\ Chat.id chat' = Chat.id chat /\
    ChatMetadata.messageCount <$> metadataOf (Chat.id chat) a'
    = Some (length (Chat.messages chat')).
Proof.
  intros Hchat Hmeta a'. subst a'. unfold handleDeleteMessage. rewrite Hchat.
  eexists. split; [reflexivity|]. split; [reflexivity|].
  unfold metadataOf at 1. cbn [chatMetadatas setActiveChat].
  fold (metadataOf (Chat.id chat)
          (updateChatMetadata now (Chat.id chat)
             (mkUpdates None
                (Some (length (Chat.messages
                   (withMessages
                      (List.filter
                         (fun msg => negb (String.eqb (Message.id msg) messageId))
                         (Chat.messages chat)) chat))))) a)).
  rewrite metadataOf_update, Hmeta. reflexivity.
Qed.

Lemma handleAppendMessage_counts (now : Z) (content : string) (a : App)
  (chat : Chat.t) (meta : ChatMetadata.t) :
  activeChat a = Some chat ->
  metadataOf (Chat.id chat) a = Some meta ->
  let a' := handleAppendMessage uuidv4 now content a in
  exists chat',
    activeChat a' = Some chat' /\ Chat.id chat' = Chat.id chat /\
    length (Chat.messages chat') = S (length (Chat.messages chat)) /\
    ChatMetadata.messageCount <$> metadataOf (Chat.id chat) a'
    = Some (length (Chat.messages chat')).
Proof.
  intros Hchat Hmeta a'. subst a'. unfold handleAppendMessage. rewrite Hchat.
  cbn [uuid]. eexists. split; [reflexivity|]. split; [reflexivity|].
  cbn [Chat.messages]. split; [rewrite length_app; cbn; lia|].
  unfold metadataOf in *. cbn [chatMetadatas setActiveChat updateChatMetadata
    setChatMetadatas].
  rewrite find_map_same.
  - cbn [chatMetadatas] in *. rewrite Hmeta. cbn.
    assert (String.eqb (ChatMetadata.id meta) (Chat.id chat) = true) as ->.
    { apply find_some in Hmeta. apply Hmeta. }
    reflexivity.
  - intros x. destruct (String.eqb (ChatMetadata.id x) (Chat.id chat)) eqn:E;
      cbn [ChatMetadata.id]; now rewrite E.
Qed.

Lemma handleSendMessage_counts (now : Z) (content : string) (a : App)
  (chat : Chat.t) (meta : ChatMetadata.t) :
  activeChat a = Some chat ->
  Js.truthy (apiKey a) = true ->
  metadataOf (Chat.id chat) a = Some meta ->
  let a' := fst (handleSendMessage uuidv4 now content a) in
  exists chat',
    activeChat a' = Some chat' /\
    ChatMetadata.messageCount <$> metadataOf (Chat.id chat) a'
    = Some (length (Chat.messages chat')).
Proof.
  intros Hchat Hkey Hmeta a'. subst a'.
  destruct (handleSendMessage_started uuidv4 now content a chat Hchat Hkey)
    as (Hactive & Hmetas & _).
  eexists. split; [exact Hactive|].
  unfold metadataOf at 1. rewrite Hmetas.
  fold (metadataOf (Chat.id chat)
          (updateChatMetadata now (Chat.id chat)
             (mkUpdates (Some (nameAfter content chat))
                (Some (S (length (List.filter notReasoning (Chat.messages chat)
                                    ++ userMessages uuidv4 content a))))) a)).
  rewrite metadataOf_update, Hmeta. cbn [option_map fmap option_fmap option_map
    ChatMetadata.messageCount newMessageCount default Chat.messages].
  rewrite (length_app _ [_]). cbn [length]. now rewrite Nat.add_1_r.
Qed.

End Counting.

Lemma newestOf_In (metas : list ChatMetadata.t) (newest : ChatMetadata.t) :
  newestOf metas = Some newest -> In newest metas.
Proof.
  destruct metas as [|first rest]; [discriminate|]. cbn [newestOf]. intros [= <-].
  assert (H : forall acc, In (fold_left (fun newest current =>
              if (ChatMetadata.created current >? ChatMetadata.created newest)%Z
              then current else newest) rest acc) (acc :: rest)).
  { induction rest as [|m rest IH]; intros acc; [now left|].
    cbn [fold_left]. destruct (_ >? _)%Z.
    - right. apply IH.
    - destruct (IH acc) as [<-|Hin]; [now left | right; now right]. }
  apply H.
Qed.

(** Deleting the active chat while another chat remains: [handleSelectChat]
    saves the chat it leaves, which is the chat just deleted. *)
Lemma handleDeleteChat_saves_again (a : App) (chat : Chat.t) :
  activeChat a = Some chat ->
  activeChatId a = Some (Chat.id chat) ->
  List.filter (fun meta => negb (String.eqb (ChatMetadata.id meta) (Chat.id chat)))
    (chatMetadatas a) <> [] ->
  db (handleDeleteChat (Chat.id chat) a) !! chatKey (Chat.id chat) = Some (VChat chat).
Proof.
  intros Hchat Hid Hrest. unfold handleDeleteChat.
  rewrite Hid, bool_decide_eq_true_2 by reflexivity.
  destruct (newestOf _) as [newest|] eqn:Hnewest.
  - apply newestOf_In in Hnewest. apply filter_In in Hnewest as [_ Hne].
    apply negb_true_iff, String.eqb_neq in Hne.
    unfold handleSelectChat. cbn [activeChatId setChatMetadatas setDb].
    rewrite Hid, bool_decide_eq_false_2 by congruence.
    cbn [activeChat setChatMetadatas setDb]. rewrite Hchat.
    destruct (loadChat _ _); cbn; unfold setItem; apply lookup_insert_eq.
  - exfalso. apply Hrest. destruct (List.filter _ _); [reflexivity | discriminate].
Qed.

(** Deleting the last chat removes its body and leaves no chat active. *)
Lemma handleDeleteChat_last (a : App) (chatId : string) :
  activeChatId a = Some chatId ->
  List.filter (fun meta => negb (String.eqb (ChatMetadata.id meta) chatId))
    (chatMetadatas a) = [] ->
  let after := handleDeleteChat chatId a in
  db after !! chatKey chatId = None /\ chatMetadatas after = [] /\
  activeChat after = None /\ activeChatId after = None.
Proof.
  intros Hid Hrest after. subst after. unfold handleDeleteChat.
  rewrite Hid, bool_decide_eq_true_2 by reflexivity.
  cbn [chatMetadatas setDb]. rewrite Hrest. cbn.
  repeat split. unfold deleteItem. apply lookup_delete_eq.
Qed.

(** ** The theorems at the concrete installation *)

Lemma sendable_appB : sendable Example.uuidv4 Example.appB Example.chatB.
Proof.
  repeat split; try reflexivity.
  - eexists. reflexivity.
  - repeat constructor; discriminate.
  - discriminate.
Defined.

Lemma sendable_appA : sendable Example.uuidv4 Example.appA Example.chatA.
Proof.
  repeat split; try reflexivity.
  - eexists. reflexivity.
  - constructor.
  - discriminate.
Defined.

Ltac stream_events :=
  repeat (apply List.Forall_cons;
          [first [left; reflexivity | right; eexists; reflexivity]|]);
  apply List.Forall_nil.

Lemma streamEvents_events : Forall streamEvent Example.events.
Proof. stream_events. Defined.

Lemma streamEvents_helloEvents : Forall streamEvent Example.helloEvents.
Proof. stream_events. Defined.

Lemma guarded_switched : guarded Scenario.switched.
Proof. intros chat [= <-]. reflexivity. Defined.

Lemma stream_updates_guarded_witness :
  guarded Scenario.switched /\
  activeChat (fst (run Example.uuidv4 Json.decode
                     (Example.events ++ [FromWire Close])
                     (Scenario.switched, Scenario.switchedTurn)))
  = activeChat Scenario.switched.
Proof.
  exact (conj guarded_switched
    (stream_updates_guarded Example.uuidv4 Json.decode
       (Example.events ++ [FromWire Close]) Scenario.switched Scenario.switchedTurn
       guarded_switched)).
Defined.

Lemma helloEvents_deltas :
  eventDeltas Json.decode Example.helloEvents =
  [Delta.mk (Some "Hel") None; Delta.mk (Some "lo") None].
Proof. vm_compute. reflexivity. Defined.

Lemma cancel_keeps_partial_answer_witness :
  sendable Example.uuidv4 Example.appA Example.chatA /\
  Forall streamEvent Example.helloEvents /\
  eventDeltas Json.decode Example.helloEvents =
    [Delta.mk (Some "Hel") None; Delta.mk (Some "lo") None] /\
  let applied :=
    run Example.uuidv4 Json.decode
      (FromWire (Response true true) :: Example.helloEvents ++ [TimerFires])
      (handleSendMessage Example.uuidv4 5 "Say hello" Example.appA) in
  let final := run Example.uuidv4 Json.decode [Stop; FromWire (Failure "AbortError")] applied in
  (exists chat',
     activeChat (fst applied) = Some chat' /\
     Chat.messages chat' =
       sentMessages Example.uuidv4 "Say hello" Example.appA Example.chatA
       ++ [placeholder (Example.uuidv4 (uuidCalls Example.appA)) "Hello"]) /\
  activeChat (fst final) = activeChat (fst applied) /\
  (exists e, snd final = Ended e /\ outcomeOf e = Aborted) /\
  alerts (fst final) = alerts Example.appA.
Proof.
  exact (conj sendable_appA (conj streamEvents_helloEvents (conj helloEvents_deltas
    (cancel_keeps_partial_answer Example.uuidv4 Json.decode 5 "Say hello"
       Example.appA Example.chatA Example.helloEvents (Failure "AbortError")
       sendable_appA streamEvents_helloEvents helloEvents_deltas)))).
Defined.

Lemma calls_chronological : DebouncedSave.chronological 0 Example.calls.
Proof. cbn. repeat split; lia. Defined.

Lemma calls_in_window (call : Z * string * Chat.t) :
  In call Example.calls ->
  (fst (fst call) < 0 + DebouncedSave.wait)%Z /\
  (fst (fst call) + DebouncedSave.wait <= 1900)%Z.
Proof.
  unfold DebouncedSave.wait.
  intros [<-|[<-|[<-|[<-|[]]]]]; cbn; split; lia.
Defined.

Lemma debounced_save_writes_latest_once_witness :
  DebouncedSave.chronological 0 Example.calls /\
  DebouncedSave.snapshotsFor "a" Example.calls
    = [Example.chatA; Example.chatA1] ++ [Example.chatA2] /\
  DebouncedSave.writes (DebouncedSave.saveAll Example.calls DebouncedSave.create) = [] /\
  DebouncedSave.writesFor "a"
    (DebouncedSave.elapse 1900 (DebouncedSave.saveAll Example.calls DebouncedSave.create))
  = [VChat Example.chatA2].
Proof.
  exact (conj calls_chronological (conj eq_refl
    (debounced_save_writes_latest_once Example.calls 0 1900 "a"
       [Example.chatA; Example.chatA1] Example.chatA2
       calls_chronological calls_in_window eq_refl))).
Defined.

Lemma send_strips_reasoning_witness :
  activeChat Example.appB = Some Example.chatB /\
  Js.truthy (apiKey Example.appB) = true /\
  presets Example.appB !! Chat.activePresetIndex Example.chatB = Some Example.preset /\
  let res := handleSendMessage Example.uuidv4 5 "turn 2" Example.appB in
  let kept := List.filter notReasoning (Chat.messages Example.chatB) in
  let added := userMessages Example.uuidv4 "turn 2" Example.appB in
  Forall (fun m => Message.messageType m <> Some reasoning) kept /\
  (Forall (fun m => Message.messageType m <> Some reasoning)
     (Chat.messages Example.chatB) ->
   kept = Chat.messages Example.chatB) /\
  exists chat',
    activeChat (fst res) = Some chat' /\
    Chat.messages chat' =
      kept ++ added
      ++ [placeholder (Example.uuidv4 (uuidCalls Example.appB)) EmptyString] /\
    Forall (fun m => Message.messageType m <> Some reasoning) (Chat.messages chat') /\
    snd res =
      Sending (controllers Example.appB)
        (systemMessages Example.preset ++ map toApi (kept ++ added)).
Proof.
  exact (conj eq_refl (conj eq_refl (conj eq_refl
    (send_strips_reasoning Example.uuidv4 5 "turn 2" Example.appB Example.chatB
       Example.preset eq_refl eq_refl eq_refl)))).
Defined.

Lemma defaultPattern_Chat3 : defaultPattern (Chat.name Example.chatA).
Proof.
  exists "3". split; [reflexivity|]. split; [discriminate|].
  apply List.Forall_cons; [|apply List.Forall_nil].
  unfold decimalDigit. cbn. auto 10.
Defined.

Lemma custom_name : ~ defaultPattern (Chat.name Example.chatB).
Proof.
  intros (digits & H & _). apply (f_equal (String.get 0)) in H.
  vm_compute in H. discriminate.
Defined.

Lemma trimmed_hello :
  trimmed "  Hello there, how are you today? " "Hello there, how are you today?".
Proof.
  exists "  ", " ". split; [reflexivity|].
  assert (Hspace : whiteSpace " ") by (unfold whiteSpace; cbn; auto 10).
  split; [repeat (apply List.Forall_cons; [exact Hspace|]); apply List.Forall_nil|].
  split; [repeat (apply List.Forall_cons; [exact Hspace|]); apply List.Forall_nil|].
  split; intros c H; cbn in H; injection H as <-; cbn;
    intros Hws; repeat (destruct Hws as [Hws|Hws]; [discriminate|]); destruct Hws.
Defined.

Lemma default_name_rule_witness :
  defaultPattern (Chat.name Example.chatA) /\
  "  Hello there, how are you today? " <> EmptyString /\
  trimmed "  Hello there, how are you today? " "Hello there, how are you today?" /\
  ~ defaultPattern (Chat.name Example.chatB) /\
  (let sent :=
     fst (handleSendMessage Example.uuidv4 5 "  Hello there, how are you today? "
            Example.appA) in
   exists name,
     firstCharacters 20 "Hello there, how are you today?" name /\
     Chat.name <$> activeChat sent = Some name /\
     ChatMetadata.name <$> metadataOf (Chat.id Example.chatA) sent =
       (fun _ => name) <$> metadataOf (Chat.id Example.chatA) Example.appA) /\
  Chat.name <$>
    activeChat (fst (handleSendMessage Example.uuidv4 5
                       "  Hello there, how are you today? " Example.appA))
    = Some "Hello there, how are" /\
  (Chat.name <$> activeChat (fst (handleSendMessage Example.uuidv4 5 "Chat 7" Example.appB))
     = Some (Chat.name Example.chatB) /\
   Chat.name <$> activeChat (handleAppendMessage Example.uuidv4 5 "Chat 7" Example.appB)
     = Some (Chat.name Example.chatB)).
Proof.
  assert (Hcontent : "  Hello there, how are you today? " <> EmptyString) by discriminate.
  exact (conj defaultPattern_Chat3 (conj Hcontent (conj trimmed_hello (conj custom_name
    (conj
       (proj1 (default_name_rule Example.uuidv4 5 "  Hello there, how are you today? "
                 Example.appA Example.chatA eq_refl eq_refl)
          defaultPattern_Chat3 "Hello there, how are you today?" Hcontent trimmed_hello)
       (conj eq_refl
          (proj2 (default_name_rule Example.uuidv4 5 "Chat 7" Example.appB Example.chatB
                    eq_refl eq_refl) custom_name))))))).
Defined.

Lemma aligned_example :
  Forall (fun chunk => endsWithLF chunk = true)
    [Example.reasoningLine "hm" +:+ Example.answerLine "Hel"; Example.answerLine "lo"].
Proof. repeat constructor. Defined.

Lemma aligned_chunks_in_wire_order_witness :
  let chunks :=
    [Example.reasoningLine "hm" +:+ Example.answerLine "Hel"; Example.answerLine "lo"] in
  let st := (Scenario.switched, mkLoop 0 EmptyString EmptyString false) in
  Forall (fun chunk => endsWithLF chunk = true) chunks /\
  flat_map (chunkDeltas Json.decode) chunks
  = chunkDeltas Json.decode (wholeStream chunks) /\
  fold_left (readChunk Example.uuidv4 Json.decode) chunks st
  = readChunk Example.uuidv4 Json.decode st (wholeStream chunks).
Proof.
  exact (conj aligned_example
    (aligned_chunks_in_wire_order Example.uuidv4 Json.decode _ _ aligned_example)).
Defined.

(** ** Checks on concrete inputs *)

Example hasDefaultName_examples :
  matchesChatDigits "Chat 3" = true /\
  matchesChatDigits "Chat 12" = true /\
  matchesChatDigits "Chat " = false /\
  matchesChatDigits "Chat 3a" = false /\
  matchesChatDigits "chat 3" = false /\
  matchesChatDigits " Chat 3" = false /\
  matchesChatDigits "My custom chat" = false.
Proof. repeat split; reflexivity. Qed.

Example rename_example :
  Js.substring 0 20 (Js.trim "  Hello there, how are you today? ")
  = "Hello there, how are".
Proof. reflexivity. Qed.

Example split_example :
  Js.split Js.LF (line "a" +:+ line "b" +:+ "c") = ["a"; "b"; "c"] /\
  Js.split Js.LF (line "a") = ["a"; EmptyString] /\
  Js.split Js.LF EmptyString = [EmptyString].
Proof. repeat split; reflexivity. Qed.

Example decode_examples :
  Json.decode (Json.quoted "{'choices':[{'delta':{'content':'Hi'}}]}")
    = Some (Delta.mk (Some "Hi") None) /\
  Json.decode (Json.quoted "{'choices':[{'delta':{'reasoning':'a\nb','content':''}}]}")
    = Some (Delta.mk None (Some (line "a" +:+ "b"))) /\
  Json.decode (Json.quoted "{'choices':[]}") = Some (Delta.mk None None) /\
  Json.decode (Json.quoted "{'choices':[{'delta':{'con") = None /\
  Json.decode "null" = None /\
  Json.decode "[DONE]" = None.
Proof. vm_compute. repeat split; reflexivity. Qed.

(** A whole turn on the chat [b], the batching timer firing once more
    before the stream ends: the reasoning message of the earlier turn is
    dropped, the new one sits before the assistant message. *)
Example turn_example :
  Chat.messages <$>
    activeChat (fst (run Example.uuidv4 Json.decode
      (FromWire (Response true true) :: Example.events ++ [TimerFires; FromWire Close])
      (handleSendMessage Example.uuidv4 5 "turn 2" Example.appB)))
  = Some [Message.mk "m1" user (Text "turn 1") None (Some regular);
          Message.mk "m3" assistant (Text "answer 1") None (Some regular);
          Message.mk "uuid-1" user (Text "turn 2") None (Some regular);
          reasoningMessage "reasoning-uuid-2" "hm";
          placeholder "uuid-0" "Hello"].
Proof. vm_compute. reflexivity. Qed.

(** The same turn when the stream ends before the timer has fired again:
    the answer stops at what the timer had applied. *)
Example turn_end_example :
  Chat.messages <$>
    activeChat (fst (run Example.uuidv4 Json.decode
      (FromWire (Response true true) :: Example.events ++ [FromWire Close])
      (handleSendMessage Example.uuidv4 5 "turn 2" Example.appB)))
  = Some [Message.mk "m1" user (Text "turn 1") None (Some regular);
          Message.mk "m3" assistant (Text "answer 1") None (Some regular);
          Message.mk "uuid-1" user (Text "turn 2") None (Some regular);
          reasoningMessage "reasoning-uuid-2" "hm";
          placeholder "uuid-0" "Hel"].
Proof. vm_compute. reflexivity. Qed.

(** The request of that send. *)
Example request_example :
  snd (handleSendMessage Example.uuidv4 5 "turn 2" Example.appB)
  = Sending 0
      [mkApiMessage system (Text "Be brief.");
       mkApiMessage user (Text "turn 1");
       mkApiMessage assistant (Text "answer 1");
       mkApiMessage user (Text "turn 2")].
Proof. vm_compute. reflexivity. Qed.

(** Text still in the accumulators when the user stops is not applied. *)
Example stop_before_timer_example :
  Chat.messages <$>
    activeChat (fst (run Example.uuidv4 Json.decode
      (FromWire (Response true true) :: Example.helloEvents
         ++ [Stop; FromWire (Failure "AbortError")])
      (handleSendMessage Example.uuidv4 5 EmptyString Example.appA)))
  = Some [placeholder "uuid-0" EmptyString].
Proof. vm_compute. reflexivity. Qed.

(** A transport failure shows the alert and leaves through the other branch. *)
Example failure_example :
  let final :=
    run Example.uuidv4 Json.decode
      [FromWire (Response true true); FromWire (Chunk (Example.answerLine "Hel"));
       TimerFires; FromWire (Failure "TypeError")]
      (handleSendMessage Example.uuidv4 5 EmptyString Example.appA) in
  (outcomeOf <$> match snd final with Ended e => Some e | _ => None end) = Some Failed /\
  alerts (fst final)
  = ["Failed to send message. Please check your API key and try again."] /\
  Chat.messages <$> activeChat (fst final) = Some [placeholder "uuid-0" "Hel"].
Proof. vm_compute. repeat split; reflexivity. Qed.

(** * Further properties of the code *)

(** ** The most recent chat *)

Lemma newest_fold_spec (rest : list ChatMetadata.t) : forall first,
  exists before after,
    first :: rest =
      before ++
      fold_left (fun newest current =>
        if (ChatMetadata.created current >? ChatMetadata.created newest)%Z
        then current else newest) rest first :: after /\
    Forall (fun m => (ChatMetadata.created m <
      ChatMetadata.created (fold_left (fun newest current =>
        if (ChatMetadata.created current >? ChatMetadata.created newest)%Z
        then current else newest) rest first))%Z) before /\
    Forall (fun m => (ChatMetadata.created m <=
      ChatMetadata.created (fold_left (fun newest current =>
        if (ChatMetadata.created current >? ChatMetadata.created newest)%Z
        then current else newest) rest first))%Z) after.
Proof.
  induction rest as [|m rest IH]; intros first; cbn [fold_left].
  - exists [], []. repeat split; constructor.
  - destruct (Z.gtb_spec (ChatMetadata.created m) (ChatMetadata.created first)) as [Hgt|Hle].
    + destruct (IH m) as (before & after & Heq & Hb & Ha).
      set (N := fold_left _ rest m) in *. clearbody N.
      assert (Hm : (ChatMetadata.created m <= ChatMetadata.created N)%Z).
      { destruct before as [|b before'].
        - injection Heq as -> _. lia.
        - injection Heq as -> _. inversion Hb; subst. lia. }
      exists (first :: before), after. rewrite Heq. split; [reflexivity|].
      split; [|exact Ha]. constructor; [lia | exact Hb].
    + destruct (IH first) as (before & after & Heq & Hb & Ha).
      set (N := fold_left _ rest first) in *. clearbody N.
      destruct before as [|b before'].
      * injection Heq as -> ->. exists [], (m :: after).
        split; [reflexivity|]. split; [constructor|]. constructor; [lia | exact Ha].
      * injection Heq as -> ->. inversion Hb as [|? ? Hlt Hb']; subst.
        exists (b :: m :: before'), after.
        split; [reflexivity|]. split; [|exact Ha].
        constructor; [exact Hlt|]. constructor; [lia | exact Hb'].
Qed.

(** X1. The reduction that picks the most recent chat (at start-up and
    after the active chat is deleted) yields nothing only for the empty list;
    otherwise it yields an entry of the list with the greatest creation time,
    and among several such the first. *)
Theorem newestOf_greatest_first (metas : list ChatMetadata.t) :
  match newestOf metas with
  | None => metas = []
  | Some newest =>
      exists before after,
        metas = before ++ newest :: after /\
        Forall (fun m => (ChatMetadata.created m < ChatMetadata.created newest)%Z) before /\
        Forall (fun m => (ChatMetadata.created m <= ChatMetadata.created newest)%Z) after
  end.
Proof.
  destruct metas as [|first rest]; [reflexivity|]. cbn [newestOf].
  apply newest_fold_spec.
Qed.

Lemma insertNewestFirst_head (m : ChatMetadata.t) (sorted : list ChatMetadata.t) :
  head (insertNewestFirst m sorted) =
  match head sorted with
  | Some y => if (ChatMetadata.created y >? ChatMetadata.created m)%Z then Some y else Some m
  | None => Some m
  end.
Proof.
  destruct sorted as [|y ys]; cbn; [reflexivity|].
  destruct (_ >? _)%Z; reflexivity.
Qed.

(** The head of the sorted list is the first entry of greatest creation time. *)
Lemma sortedChats_head_spec (metas : list ChatMetadata.t) :
  match head (sortedChats metas) with
  | None => metas = []
  | Some newest =>
      exists before after,
        metas = before ++ newest :: after /\
        Forall (fun m => (ChatMetadata.created m < ChatMetadata.created newest)%Z) before /\
        Forall (fun m => (ChatMetadata.created m <= ChatMetadata.created newest)%Z) after
  end.
Proof.
  induction metas as [|m metas IH]; [reflexivity|].
  cbn [sortedChats fold_right]. fold (sortedChats metas).
  rewrite insertNewestFirst_head.
  destruct (head (sortedChats metas)) as [y|].
  - destruct IH as (before & after & -> & Hb & Ha).
    destruct (Z.gtb_spec (ChatMetadata.created y) (ChatMetadata.created m)) as [Hgt|Hle].
    + exists (m :: before), after. split; [reflexivity|]. split; [|exact Ha].
      constructor; [lia | exact Hb].
    + exists [], (before ++ y :: after). split; [reflexivity|]. split; [constructor|].
      apply Forall_app. split.
      * eapply Forall_impl; [exact Hb|]. cbn. intros; lia.
      * constructor; [exact Hle|]. eapply Forall_impl; [exact Ha|]. cbn. intros; lia.
  - subst metas. exists [], []. repeat split; constructor.
Qed.

Lemma first_greatest_unique (metas before before' after after' : list ChatMetadata.t)
  (x y : ChatMetadata.t) :
  metas = before ++ x :: after -> metas = before' ++ y :: after' ->
  Forall (fun m => (ChatMetadata.created m < ChatMetadata.created x)%Z) before ->
  Forall (fun m => (ChatMetadata.created m <= ChatMetadata.created x)%Z) after ->
  Forall (fun m => (ChatMetadata.created m < ChatMetadata.created y)%Z) before' ->
  Forall (fun m => (ChatMetadata.created m <= ChatMetadata.created y)%Z) after' ->
  x = y.
Proof.
  intros -> Heq. revert before' Heq.
  induction before as [|b before IH]; intros before' Heq Hb Ha Hb' Ha'.
  - destruct before' as [|b' before'']; cbn in Heq.
    + now injection Heq.
    + injection Heq as <- ->. exfalso.
      inversion Hb' as [|? ? Hlt _]; subst.
      rewrite Forall_app in Ha. destruct Ha as [_ Ha].
      inversion Ha; subst. lia.
  - destruct before' as [|b' before'']; cbn in Heq.
    + injection Heq as <- <-. exfalso.
      inversion Hb as [|? ? Hlt _]; subst.
      rewrite Forall_app in Ha'. destruct Ha' as [_ Ha'].
      inversion Ha'; subst. lia.
    + injection Heq as <- Heq. inversion Hb; inversion Hb'; subst.
      eapply IH; eassumption.
Qed.

(** X2. The chat the history panel lists first is the chat the component
    loads at start-up and selects after the active chat is deleted. *)
Theorem sortedChats_head_is_newest (metas : list ChatMetadata.t) :
  head (sortedChats metas) = newestOf metas.
Proof.
  pose proof (sortedChats_head_spec metas) as Hs.
  destruct metas as [|first rest]; [reflexivity|].
  destruct (newest_fold_spec rest first) as (b' & a' & E' & Hb' & Ha').
  cbn [newestOf].
  destruct (head (sortedChats (first :: rest))) as [x|].
  - destruct Hs as (b & a & E & Hb & Ha).
    f_equal. eapply first_greatest_unique; eassumption.
  - discriminate.
Qed.

(** ** Selecting, creating, renaming and deleting chats *)

Lemma chatKey_ne (x y : string) : x <> y -> chatKey x <> chatKey y.
Proof. intros Hne Heq. apply Hne. now apply chatKey_inj. Qed.

Lemma loadChat_setItem_same (chat : Chat.t) (store : gmap string DBValue) :
  loadChat (Chat.id chat) (setItem (chatKey (Chat.id chat)) (VChat chat) store)
  = Some chat.
Proof. unfold loadChat, getItem, setItem. now rewrite lookup_insert_eq. Qed.

Lemma loadChat_setItem_other (chatId : string) (chat : Chat.t)
  (store : gmap string DBValue) :
  chatId <> Chat.id chat ->
  loadChat chatId (setItem (chatKey (Chat.id chat)) (VChat chat) store)
  = loadChat chatId store.
Proof.
  intros Hne. unfold loadChat, getItem, setItem.
  rewrite lookup_insert_ne; [reflexivity|]. apply chatKey_ne. congruence.
Qed.

(** X3. Selecting another chat saves the chat that was active and makes the
    stored chat active; selecting the first chat again brings back exactly the
    chat that was left, and the other chat is in the store as it was. *)
Theorem select_there_and_back (a : App) (chat other : Chat.t) :
  activeChat a = Some chat ->
  activeChatId a = Some (Chat.id chat) ->
  loadChat (Chat.id other) (db a) = Some other ->
  Chat.id other <> Chat.id chat ->
  let there := handleSelectChat (Chat.id other) a in
  let back := handleSelectChat (Chat.id chat) there in
  activeChat there = Some other /\ activeChatId there = Some (Chat.id other) /\
  loadChat (Chat.id chat) (db there) = Some chat /\
  activeChat back = Some chat /\ activeChatId back = Some (Chat.id chat) /\
  loadChat (Chat.id other) (db back) = Some other.
Proof.
  intros Hchat Hid Hother Hne there back.
  assert (Hthere : there =
    setActiveChatId (Some (Chat.id other)) (setActiveChat (Some other)
      (setDb (setItem (chatKey (Chat.id chat)) (VChat chat) (db a)) a))).
  { subst there. unfold handleSelectChat.
    rewrite Hid, bool_decide_eq_false_2 by congruence. rewrite Hchat.
    cbn [db setDb]. rewrite loadChat_setItem_other by exact Hne.
    now rewrite Hother. }
  assert (Hback : back =
    setActiveChatId (Some (Chat.id chat)) (setActiveChat (Some chat)
      (setDb (setItem (chatKey (Chat.id other)) (VChat other) (db there)) there))).
  { subst back. clearbody there. subst there. unfold handleSelectChat.
    cbn [activeChatId setActiveChatId activeChat setActiveChat].
    rewrite bool_decide_eq_false_2 by congruence.
    cbn [db setDb setActiveChatId setActiveChat].
    rewrite loadChat_setItem_other by congruence.
    now rewrite loadChat_setItem_same. }
  clearbody there back. subst back there. cbn. repeat split.
  - apply loadChat_setItem_same.
  - apply loadChat_setItem_same.
Qed.

(** X4. Selecting a chat that has no body in the store keeps the active
    chat and its identifier; the active chat has been written to the store. *)
Theorem select_missing_chat (a : App) (chat : Chat.t) (chatId : string) :
  activeChat a = Some chat ->
  activeChatId a = Some (Chat.id chat) ->
  Chat.id chat <> chatId ->
  loadChat chatId (db a) = None ->
  let after := handleSelectChat chatId a in
  activeChat after = Some chat /\ activeChatId after = Some (Chat.id chat) /\
  loadChat (Chat.id chat) (db after) = Some chat /\
  alerts after = alerts a.
Proof.
  intros Hchat Hid Hne Hmissing after. subst after. unfold handleSelectChat.
  rewrite Hid, bool_decide_eq_false_2 by congruence.
  rewrite Hchat. cbn [db setDb].
  rewrite loadChat_setItem_other by congruence. rewrite Hmissing.
  cbn. repeat split; auto. apply loadChat_setItem_same.
Qed.

Lemma digit_isDigit (d : nat) : d < 10 -> Js.isDigit (ascii_of_nat (48 + d)) = true.
Proof.
  intros Hd. unfold Js.isDigit. rewrite nat_ascii_embedding by lia.
  apply andb_true_intro. split; apply Nat.leb_le; lia.
Qed.

Lemma decimalDigits_digits (fuel : nat) : forall n acc,
  forallb Js.isDigit (list_ascii_of_string acc) = true ->
  forallb Js.isDigit (list_ascii_of_string (decimalDigits fuel n acc)) = true.
Proof.
  induction fuel as [|fuel IH]; intros n acc Hacc; cbn [decimalDigits]; [exact Hacc|].
  assert (Hstep : forallb Js.isDigit (list_ascii_of_string
            (String (ascii_of_nat (48 + Nat.modulo n 10)) acc)) = true).
  { cbn [list_ascii_of_string forallb]. rewrite digit_isDigit, Hacc; [reflexivity|].
    apply Nat.mod_upper_bound. discriminate. }
  destruct (Nat.eqb (Nat.div n 10) 0); [exact Hstep | now apply IH].
Qed.

Lemma decimalDigits_nonempty (fuel : nat) : forall n acc,
  acc <> EmptyString -> decimalDigits fuel n acc <> EmptyString.
Proof.
  induction fuel as [|fuel IH]; intros n acc Hacc; cbn [decimalDigits]; [exact Hacc|].
  destruct (Nat.eqb (Nat.div n 10) 0); [discriminate | apply IH; discriminate].
Qed.

Lemma default_name_matches (n : nat) :
  matchesChatDigits ("Chat " +:+ natToString n) = true.
Proof.
  rewrite matchesChatDigits_Chat. apply andb_true_intro. split.
  - unfold Js.truthy. apply negb_true_iff, String.eqb_neq.
    unfold natToString. cbn [decimalDigits].
    destruct (Nat.eqb (Nat.div n 10) 0); [discriminate|].
    apply decimalDigits_nonempty. discriminate.
  - apply decimalDigits_digits. reflexivity.
Qed.

Lemma find_filter_other {A} (p q : A -> bool) (l : list A) :
  (forall x, p x = true -> q x = true) ->
  find p (List.filter q l) = find p l.
Proof.
  intros Hpq. induction l as [|x l IH]; cbn [List.filter find]; [reflexivity|].
  destruct (q x) eqn:Hq; cbn [find].
  - now rewrite IH.
  - destruct (p x) eqn:Hp; [|exact IH]. rewrite (Hpq x Hp) in Hq. discriminate.
Qed.

Lemma find_filter_none {A} (p q : A -> bool) (l : list A) :
  (forall x, p x = true -> q x = false) ->
  find p (List.filter q l) = None.
Proof.
  intros Hpq. induction l as [|x l IH]; cbn [List.filter find]; [reflexivity|].
  destruct (q x) eqn:Hq; cbn [find]; [|exact IH].
  destruct (p x) eqn:Hp; [|exact IH]. rewrite (Hpq x Hp) in Hq. discriminate.
Qed.

Lemma find_map_fixed {A} (p : A -> bool) (f : A -> A) (l : list A) :
  (forall x, p (f x) = p x) -> (forall x, p x = true -> f x = x) ->
  find p (map f l) = find p l.
Proof.
  intros Hp Hf. rewrite find_map_same by exact Hp.
  destruct (find p l) as [x|] eqn:Hx; [|reflexivity].
  apply find_some in Hx as [_ Hx]. cbn. now rewrite Hf.
Qed.

Lemma find_app_first {A} (p : A -> bool) (l k : list A) :
  find p (l ++ k) = match find p l with Some x => Some x | None => find p k end.
Proof.
  induction l as [|x l IH]; cbn [app find]; [reflexivity|].
  destruct (p x); [reflexivity | exact IH].
Qed.

Section ChatManagement.

Variable uuidv4 : nat -> string.

(** The chat [handleCreateNewChat] makes, and where it puts it. *)
Lemma handleCreateNewChat_spec (created lastModified : Z) (a : App) :
  let after := handleCreateNewChat uuidv4 created lastModified a in
  exists chat,
    activeChat after = Some chat /\
    activeChatId after = Some (Chat.id chat) /\
    Chat.id chat = uuidv4 (uuidCalls a) /\
    Chat.messages chat = [] /\
    hasDefaultName chat = true /\
    Chat.activePresetIndex chat
      = default 0 (Chat.activePresetIndex <$> activeChat a) /\
    loadChat (Chat.id chat) (db after) = Some chat /\
    chatMetadatas after =
      chatMetadatas a
      ++ [ChatMetadata.mk (Chat.id chat) (Chat.name chat) created 0 lastModified].
Proof.
  unfold handleCreateNewChat, uuid. cbv zeta. eexists.
  split; [reflexivity|]. split; [reflexivity|]. split; [reflexivity|].
  split; [reflexivity|]. split; [apply default_name_matches|].
  split; [destruct (activeChat a); reflexivity|].
  split; [apply loadChat_setItem_same | reflexivity].
Qed.

(** X5. A new chat is empty, carries a name of the default pattern, takes
    the preset of the chat that was active, becomes the active chat, is
    written to the store at once, and gets a metadata entry counting no
    message at the end of the index. *)
Theorem new_chat_is_default_named (created lastModified : Z) (a : App) :
  let after := handleCreateNewChat uuidv4 created lastModified a in
  exists chat,
    activeChat after = Some chat /\
    activeChatId after = Some (Chat.id chat) /\
    Chat.id chat = uuidv4 (uuidCalls a) /\
    Chat.messages chat = [] /\
    hasDefaultName chat = true /\
    Chat.activePresetIndex chat
      = default 0 (Chat.activePresetIndex <$> activeChat a) /\
    loadChat (Chat.id chat) (db after) = Some chat /\
    chatMetadatas after =
      chatMetadatas a
      ++ [ChatMetadata.mk (Chat.id chat) (Chat.name chat) created 0 lastModified].
Proof.
  unfold handleCreateNewChat, uuid. cbv zeta. eexists.
  repeat (split; [reflexivity|]).
  split; [apply default_name_matches|].
  split; [destruct (activeChat a); reflexivity|].
  split; [apply loadChat_setItem_same | reflexivity].
Qed.

(** X6. The first message sent in a new chat names it: the chat and its
    metadata entry take the first 20 characters of the trimmed message. *)
Theorem first_message_names_new_chat
  (created lastModified now : Z) (content : string) (a : App) :
  Js.truthy (apiKey a) = true ->
  Js.truthy content = true ->
  let fresh := handleCreateNewChat uuidv4 created lastModified a in
  let sent := fst (handleSendMessage uuidv4 now content fresh) in
  Chat.name <$> activeChat sent = Some (Js.substring 0 20 (Js.trim content)) /\
  ChatMetadata.name <$> metadataOf (uuidv4 (uuidCalls a)) sent
    = Some (Js.substring 0 20 (Js.trim content)).
Proof.
  intros Hkey Hcontent fresh sent.
  destruct (handleCreateNewChat_spec created lastModified a)
    as (chat & Hchat & _ & Hid & _ & Hdefault & _ & _ & Hmetas).
  fold fresh in Hchat, Hmetas.
  assert (Hkey' : Js.truthy (apiKey fresh) = true) by exact Hkey.
  destruct (handleSendMessage_started uuidv4 now content fresh chat Hchat Hkey')
    as (Hactive & Hmeta & _).
  fold sent in Hactive, Hmeta. split.
  - rewrite Hactive. unfold nameAfter. now rewrite Hcontent, Hdefault.
  - rewrite <- Hid. unfold metadataOf at 1. rewrite Hmeta.
    fold (metadataOf (Chat.id chat)
            (updateChatMetadata now (Chat.id chat)
               (mkUpdates (Some (nameAfter content chat))
                  (Some (S (length (List.filter notReasoning (Chat.messages chat)
                     ++ userMessages uuidv4 content fresh))))) fresh)).
    rewrite metadataOf_update. unfold nameAfter. rewrite Hcontent, Hdefault.
    unfold metadataOf. rewrite Hmetas, find_app_first.
    destruct (find _ (chatMetadatas a)); [reflexivity|].
    cbn. now rewrite String.eqb_refl.
Qed.

End ChatManagement.

(** X7. Submitting a name in the history panel: a blank name changes
    nothing; otherwise the trimmed name is given to the metadata entry of the
    chat and, when that chat is the active one, to the active chat; the
    messages, the message count and the entries of the other chats stay. *)
Theorem rename_submit (chatId typed : string) (a : App) :
  let after := handleRenameSubmit chatId typed a in
  let name := Js.trim typed in
  (Js.truthy name = false -> after = a) /\
  (Js.truthy name = true ->
   metadataOf chatId after =
     option_map (fun meta =>
       ChatMetadata.mk (ChatMetadata.id meta) name (ChatMetadata.created meta)
         (ChatMetadata.messageCount meta) (ChatMetadata.lastModified meta))
       (metadataOf chatId a) /\
   (forall other, other <> chatId -> metadataOf other after = metadataOf other a) /\
   activeChat after =
     option_map (fun chat =>
       if String.eqb (Chat.id chat) chatId
       then Chat.mk (Chat.id chat) name (Chat.messages chat)
              (Chat.activePresetIndex chat) (Chat.created chat)
       else chat) (activeChat a)).
Proof.
  cbv zeta. unfold handleRenameSubmit. split; intros Hname; rewrite Hname; [reflexivity|].
  set (renamed := map (fun meta =>
         if String.eqb (ChatMetadata.id meta) chatId then
           ChatMetadata.mk (ChatMetadata.id meta) (Js.trim typed)
             (ChatMetadata.created meta) (ChatMetadata.messageCount meta)
             (ChatMetadata.lastModified meta)
         else meta) (chatMetadatas a)).
  assert (Hmetas : chatMetadatas (handleRenameChat chatId (Js.trim typed) a) = renamed).
  { unfold handleRenameChat. cbn [activeChat setChatMetadatas].
    destruct (activeChat a) as [chat|]; [|reflexivity].
    destruct (String.eqb _ _); reflexivity. }
  repeat split.
  - unfold metadataOf. rewrite Hmetas. subst renamed. rewrite find_map_same.
    + destruct (find _ (chatMetadatas a)) as [meta|] eqn:Hmeta; [|reflexivity].
      apply find_some in Hmeta as [_ Hmeta]. cbn [option_map]. now rewrite Hmeta.
    + intros x. destruct (String.eqb (ChatMetadata.id x) chatId) eqn:E;
        cbn [ChatMetadata.id]; now rewrite E.
  - intros other Hother. unfold metadataOf. rewrite Hmetas. subst renamed.
    apply find_map_fixed.
    + intros x. destruct (String.eqb (ChatMetadata.id x) chatId); reflexivity.
    + intros x Hx. apply String.eqb_eq in Hx.
      destruct (String.eqb_spec (ChatMetadata.id x) chatId); [congruence | reflexivity].
  - unfold handleRenameChat. cbn [activeChat setChatMetadatas].
    destruct (activeChat a) as [chat|] eqn:Hchat; cbn [option_map].
    + destruct (String.eqb _ _); [reflexivity | exact Hchat].
    + exact Hchat.
Qed.

(** X8. Deleting a chat that is not the active one removes its body from
    the store and its entry from the index, and leaves the active chat, the
    entries and the bodies of the other chats as they were. *)
Theorem delete_inactive_chat (chatId : string) (a : App) :
  activeChatId a <> Some chatId ->
  let after := handleDeleteChat chatId a in
  db after !! chatKey chatId = None /\
  metadataOf chatId after = None /\
  activeChat after = activeChat a /\
  activeChatId after = activeChatId a /\
  forall other, other <> chatId ->
    metadataOf other after = metadataOf other a /\
    loadChat other (db after) = loadChat other (db a).
Proof.
  intros Hid after. subst after. unfold handleDeleteChat.
  rewrite bool_decide_eq_false_2 by exact Hid.
  cbn [db chatMetadatas setChatMetadatas setDb activeChat activeChatId].
  unfold metadataOf. cbn [chatMetadatas setChatMetadatas setDb].
  split; [apply lookup_delete_eq|]. split.
  - apply find_filter_none. intros x Hx. now rewrite Hx.
  - repeat split; try reflexivity.
    + apply find_filter_other. intros x Hx. apply String.eqb_eq in Hx.
      apply negb_true_iff, String.eqb_neq. congruence.
    + unfold loadChat, getItem, deleteItem.
      rewrite lookup_delete_ne; [reflexivity|]. apply chatKey_ne. congruence.
Qed.

(** X9. Deleting the active chat while other chats remain removes its entry
    from the index and makes active the remaining chat of greatest creation
    time, as loaded from the store. *)
Theorem delete_active_chat_selects_newest
  (a : App) (chat next : Chat.t) (newest : ChatMetadata.t) :
  activeChat a = Some chat ->
  activeChatId a = Some (Chat.id chat) ->
  newestOf (List.filter (fun meta =>
      negb (String.eqb (ChatMetadata.id meta) (Chat.id chat))) (chatMetadatas a))
    = Some newest ->
  loadChat (ChatMetadata.id newest) (db a) = Some next ->
  let after := handleDeleteChat (Chat.id chat) a in
  activeChat after = Some next /\
  activeChatId after = Some (ChatMetadata.id newest) /\
  metadataOf (Chat.id chat) after = None /\
  metadataOf (ChatMetadata.id newest) after = metadataOf (ChatMetadata.id newest) a.
Proof.
  intros Hchat Hid Hnewest Hnext after. subst after. unfold handleDeleteChat.
  rewrite Hid, bool_decide_eq_true_2 by reflexivity. rewrite Hnewest.
  pose proof (newestOf_In _ _ Hnewest) as Hin.
  apply filter_In in Hin as [_ Hne]. apply negb_true_iff, String.eqb_neq in Hne.
  unfold handleSelectChat. cbn [activeChatId setChatMetadatas setDb].
  rewrite Hid, bool_decide_eq_false_2 by congruence.
  cbn [activeChat setChatMetadatas setDb]. rewrite Hchat.
  cbn [db setDb setChatMetadatas chatMetadatas].
  rewrite loadChat_setItem_other by exact Hne.
  assert (loadChat (ChatMetadata.id newest) (deleteItem (chatKey (Chat.id chat)) (db a))
          = Some next) as ->.
  { unfold loadChat, getItem, deleteItem in *.
    rewrite lookup_delete_ne; [exact Hnext|]. apply chatKey_ne. congruence. }
  unfold metadataOf. cbn. repeat split.
  - apply find_filter_none. intros x Hx. now rewrite Hx.
  - apply find_filter_other. intros x Hx. apply String.eqb_eq in Hx.
    apply negb_true_iff, String.eqb_neq. congruence.
Qed.

(** ** The message count across the operations on the active chat *)

Lemma counted_set (a : App) (prev chat' : Chat.t) (now : Z) (name : option string) :
  Chat.id chat' = Chat.id prev ->
  counted (setActiveChat (Some chat')
             (updateChatMetadata now (Chat.id prev)
                (mkUpdates name (Some (length (Chat.messages chat')))) a)).
Proof.
  intros Hid chat meta Hchat Hmeta. cbn in Hchat. injection Hchat as <-.
  rewrite Hid in Hmeta. unfold metadataOf in Hmeta.
  cbn [chatMetadatas setActiveChat] in Hmeta.
  fold (metadataOf (Chat.id prev)
          (updateChatMetadata now (Chat.id prev)
             (mkUpdates name (Some (length (Chat.messages chat')))) a)) in Hmeta.
  rewrite metadataOf_update in Hmeta.
  destruct (metadataOf (Chat.id prev) a); [|discriminate].
  injection Hmeta as <-. reflexivity.
Qed.

Lemma counted_keep (a : App) (prev chat' : Chat.t) (now : Z) :
  activeChat a = Some prev -> counted a ->
  Chat.id chat' = Chat.id prev ->
  length (Chat.messages chat') = length (Chat.messages prev) ->
  counted (setActiveChat (Some chat')
             (updateChatMetadata now (Chat.id prev) (mkUpdates None None) a)).
Proof.
  intros Hprev Hcounted Hid Hlen chat meta Hchat Hmeta. cbn in Hchat.
  injection Hchat as <-. rewrite Hid in Hmeta. unfold metadataOf in Hmeta.
  cbn [chatMetadatas setActiveChat] in Hmeta.
  fold (metadataOf (Chat.id prev)
          (updateChatMetadata now (Chat.id prev) (mkUpdates None None) a)) in Hmeta.
  rewrite metadataOf_update in Hmeta.
  destruct (metadataOf (Chat.id prev) a) as [old|] eqn:Hold; [|discriminate].
  injection Hmeta as <-. cbn. rewrite Hlen. now apply Hcounted.
Qed.

Lemma counted_same (a b : App) :
  activeChat b = activeChat a -> chatMetadatas b = chatMetadatas a ->
  counted a -> counted b.
Proof.
  intros Hchat Hmetas Hcounted chat meta Hc Hm.
  rewrite Hchat in Hc. unfold metadataOf in Hm. rewrite Hmetas in Hm.
  exact (Hcounted chat meta Hc Hm).
Qed.

Lemma counted_handleDeleteMessage now messageId a :
  counted a -> counted (handleDeleteMessage now messageId a).
Proof.
  intros Hc. unfold handleDeleteMessage.
  destruct (activeChat a) as [prev|] eqn:Hprev; [|exact Hc].
  now apply counted_set.
Qed.

Lemma counted_handleUpdateMessage now messageId content a :
  counted a -> counted (handleUpdateMessage now messageId content a).
Proof.
  intros Hc. unfold handleUpdateMessage.
  destruct (activeChat a) as [prev|] eqn:Hprev; [|exact Hc].
  apply counted_keep; auto. cbn. now rewrite length_map.
Qed.

Lemma counted_handleImagePaste now imageMessage a :
  counted a -> counted (handleImagePaste now imageMessage a).
Proof.
  intros Hc. unfold handleImagePaste.
  destruct (activeChat a) as [prev|] eqn:Hprev; [|exact Hc].
  now apply counted_set.
Qed.

Lemma counted_handlePresetSelect index a :
  counted a -> counted (handlePresetSelect index a).
Proof.
  intros Hc. unfold handlePresetSelect.
  destruct (activeChat a) as [prev|] eqn:Hprev; [|exact Hc].
  intros chat meta Hchat Hmeta. cbn in Hchat. injection Hchat as <-.
  cbn. exact (Hc prev meta Hprev Hmeta).
Qed.

Lemma metadataOf_rename (k chatId newName : string) (metas : list ChatMetadata.t) :
  ChatMetadata.messageCount <$>
    find (fun meta => String.eqb (ChatMetadata.id meta) k)
      (map (fun meta =>
         if String.eqb (ChatMetadata.id meta) chatId then
           ChatMetadata.mk (ChatMetadata.id meta) newName (ChatMetadata.created meta)
             (ChatMetadata.messageCount meta) (ChatMetadata.lastModified meta)
         else meta) metas)
  = ChatMetadata.messageCount <$>
      find (fun meta => String.eqb (ChatMetadata.id meta) k) metas.
Proof.
  rewrite find_map_same.
  - destruct (find _ metas) as [meta|]; [|reflexivity]. cbn.
    destruct (String.eqb _ chatId); reflexivity.
  - intros x. destruct (String.eqb (ChatMetadata.id x) chatId); reflexivity.
Qed.

Lemma counted_handleRenameChat chatId newName a :
  counted a -> counted (handleRenameChat chatId newName a).
Proof.
  intros Hc chat meta Hchat Hmeta.
  assert (Hcount : ChatMetadata.messageCount <$>
            metadataOf (Chat.id chat) (handleRenameChat chatId newName a)
          = ChatMetadata.messageCount <$> metadataOf (Chat.id chat) a).
  { unfold metadataOf, handleRenameChat. cbn [activeChat setChatMetadatas].
    destruct (activeChat a) as [c|]; [destruct (String.eqb _ _)|];
      cbn [chatMetadatas setActiveChat setChatMetadatas]; apply metadataOf_rename. }
  rewrite Hmeta in Hcount.
  destruct (metadataOf (Chat.id chat) a) as [old|] eqn:Hold; [|discriminate].
  cbn in Hcount. injection Hcount as ->.
  unfold handleRenameChat in Hchat. cbn [activeChat setChatMetadatas] in Hchat.
  destruct (activeChat a) as [c|] eqn:Hactive.
  - destruct (String.eqb _ _); cbn in Hchat; [injection Hchat as <-|];
      [exact (Hc c old Hactive Hold)|].
    rewrite Hactive in Hchat. injection Hchat as <-. exact (Hc c old Hactive Hold).
  - cbn in Hchat. congruence.
Qed.

Section Counted.

Variable uuidv4 : nat -> string.

Lemma counted_handleAppendMessage now content a :
  counted a -> counted (handleAppendMessage uuidv4 now content a).
Proof.
  intros Hc. unfold handleAppendMessage.
  destruct (activeChat a) as [prev|] eqn:Hprev; [|exact Hc].
  cbn [uuid]. intros chat meta Hchat Hmeta. cbn in Hchat. injection Hchat as <-.
  cbn [Chat.id Chat.messages] in *. unfold metadataOf in Hmeta.
  cbn [chatMetadatas setActiveChat updateChatMetadata setChatMetadatas] in Hmeta.
  rewrite find_map_same in Hmeta.
  - destruct (find _ _) as [old|] eqn:Hold; [|discriminate].
    apply find_some in Hold as [_ Hold]. cbn in Hmeta. rewrite Hold in Hmeta.
    injection Hmeta as <-. reflexivity.
  - intros x. destruct (String.eqb (ChatMetadata.id x) (Chat.id prev)) eqn:E;
      cbn [ChatMetadata.id]; now rewrite E.
Qed.

Lemma counted_handleSendMessage now content a :
  counted a -> counted (fst (handleSendMessage uuidv4 now content a)).
Proof.
  intros Hc. destruct (activeChat a) as [prev|] eqn:Hprev.
  - destruct (Js.truthy (apiKey a)) eqn:Hkey.
    + destruct (handleSendMessage_started uuidv4 now content a prev Hprev Hkey)
        as (Hactive & Hmetas & _).
      intros chat meta Hchat Hmeta. rewrite Hactive in Hchat. injection Hchat as <-.
      cbn [Chat.id Chat.messages] in *. unfold metadataOf in Hmeta.
      rewrite Hmetas in Hmeta.
      fold (metadataOf (Chat.id prev)
              (updateChatMetadata now (Chat.id prev)
                 (mkUpdates (Some (nameAfter content prev))
                    (Some (S (length (List.filter notReasoning (Chat.messages prev)
                       ++ userMessages uuidv4 content a))))) a)) in Hmeta.
      rewrite metadataOf_update in Hmeta.
      destruct (metadataOf (Chat.id prev) a); [|discriminate].
      injection Hmeta as <-. cbn. rewrite (length_app _ [_]). cbn. lia.
    + unfold handleSendMessage. rewrite Hprev, Hkey. cbn.
      eapply counted_same; [| |exact Hc]; reflexivity.
  - unfold handleSendMessage. rewrite Hprev. cbn.
    eapply counted_same; [| |exact Hc]; reflexivity.
Qed.

Lemma counted_pasteImage now base64Image a :
  counted a -> counted (pasteImage uuidv4 now base64Image a).
Proof.
  intros Hc. unfold pasteImage, uuid. cbv zeta.
  apply counted_handleImagePaste, counted_handleAppendMessage.
  eapply counted_same; [| |exact Hc]; reflexivity.
Qed.

(** X10. The message count of the metadata entry follows the active chat
    through any series of sends (up to the request), appends, deletions and
    edits of messages, image pastes, renames and preset selections: if the
    entry counted the messages before, it counts them after. *)
Theorem message_count_kept (ops : list MessageOp) (a : App) :
  counted a -> counted (fold_left (applyOp uuidv4) ops a).
Proof.
  revert a. induction ops as [|op ops IH]; intros a Hc; [exact Hc|].
  cbn [fold_left]. apply IH. destruct op; cbn [applyOp].
  - now apply counted_handleSendMessage.
  - now apply counted_handleAppendMessage.
  - now apply counted_handleDeleteMessage.
  - now apply counted_handleUpdateMessage.
  - now apply counted_handleImagePaste.
  - now apply counted_pasteImage.
  - now apply counted_handleRenameChat.
  - now apply counted_handlePresetSelect.
Qed.

End Counted.

(** ** Editing, appending and pasting *)

Lemma updated_ids (messageId content : string) (msgs : list Message.t) :
  map Message.id
    (map (fun msg => if String.eqb (Message.id msg) messageId
                     then withContent (Text content) msg else msg) msgs)
  = map Message.id msgs.
Proof.
  rewrite map_map. apply map_ext. intros x.
  destruct (String.eqb (Message.id x) messageId); reflexivity.
Qed.

Lemma updated_others (messageId content : string) (msgs : list Message.t) :
  List.filter (fun msg => negb (String.eqb (Message.id msg) messageId))
    (map (fun msg => if String.eqb (Message.id msg) messageId
                     then withContent (Text content) msg else msg) msgs)
  = List.filter (fun msg => negb (String.eqb (Message.id msg) messageId)) msgs.
Proof.
  induction msgs as [|x msgs IH]; [reflexivity|]. cbn [map List.filter].
  destruct (String.eqb (Message.id x) messageId) eqn:E.
  - cbn [withContent Message.id]. rewrite E. exact IH.
  - rewrite E. cbn [negb]. now rewrite IH.
Qed.

(** X11. An edit the message item allows (the message holds no image, and
    it is not an assistant message while a stream runs) on a message of the
    active chat that is not a reasoning message: the chat then holds a message
    of that identifier whose editable text and copied text are the text
    typed; the identifiers of the messages are as before, in order, and every
    message of another identifier is untouched. *)
Theorem edit_saves_text (now : Z) (m : Message.t) (text : string) (a : App)
  (chat : Chat.t) :
  activeChat a = Some chat ->
  In m (Chat.messages chat) ->
  Message.messageType m <> Some reasoning ->
  hasImageContent m = false ->
  isStreaming a = false \/ Message.role m = user ->
  exists chat' m',
    activeChat (editMessage now m text a) = Some chat' /\
    In m' (Chat.messages chat') /\
    Message.id m' = Message.id m /\
    getEditableContent m' = text /\
    copyText m' = text /\
    map Message.id (Chat.messages chat') = map Message.id (Chat.messages chat) /\
    List.filter (fun x => negb (String.eqb (Message.id x) (Message.id m)))
      (Chat.messages chat')
    = List.filter (fun x => negb (String.eqb (Message.id x) (Message.id m)))
        (Chat.messages chat).
Proof.
  intros Hchat Hin Htype Himage Hallowed.
  assert (Hgate : negb (isStreaming a && bool_decide (Message.role m = assistant))
                  && negb (hasImageContent m) = true).
  { rewrite Himage. destruct Hallowed as [-> | Hrole]; [reflexivity|].
    rewrite Hrole. rewrite (bool_decide_eq_false_2 (user = assistant)) by discriminate.
    now rewrite andb_false_r. }
  unfold editMessage. rewrite Hgate. unfold handleUpdateMessage. rewrite Hchat.
  cbn [activeChat setActiveChat]. eexists _, (withContent (Text text) m).
  split; [reflexivity|]. cbn [withMessages Chat.messages].
  split.
  { apply in_map_iff. exists m. split; [|exact Hin].
    now rewrite String.eqb_refl. }
  split; [reflexivity|].
  unfold getEditableContent, copyText. cbn [withContent Message.messageType Message.content].
  rewrite (bool_decide_eq_false_2 _ Htype).
  repeat split; [apply updated_ids | apply updated_others].
Qed.

(** X12. What a reasoning message shows is its [reasoning] field, and an
    edit writes the [content] field: whatever is typed into whichever
    message, the editable texts of the reasoning messages of the chat stay
    what they were. *)
Theorem reasoning_edit_is_lost (now : Z) (messageId text : string) (a : App)
  (chat : Chat.t) :
  activeChat a = Some chat ->
  exists chat',
    activeChat (handleUpdateMessage now messageId text a) = Some chat' /\
    map (fun m => if notReasoning m then None else Some (getEditableContent m))
      (Chat.messages chat')
    = map (fun m => if notReasoning m then None else Some (getEditableContent m))
        (Chat.messages chat).
Proof.
  intros Hchat. unfold handleUpdateMessage. rewrite Hchat.
  cbn [activeChat setActiveChat]. eexists. split; [reflexivity|].
  cbn [withMessages Chat.messages]. rewrite map_map. apply map_ext. intros x.
  destruct (String.eqb (Message.id x) messageId); [|reflexivity].
  unfold notReasoning, getEditableContent.
  cbn [withContent Message.messageType Message.reasoning].
  destruct (bool_decide (Message.messageType x = Some reasoning)); reflexivity.
Qed.

Section Appending.

Variable uuidv4 : nat -> string.

Lemma handleAppendMessage_active (now : Z) (content : string) (a : App) (chat : Chat.t) :
  activeChat a = Some chat ->
  exists name,
    activeChat (handleAppendMessage uuidv4 now content a) =
      Some (Chat.mk (Chat.id chat) name
              (Chat.messages chat ++
               [Message.mk (uuidv4 (uuidCalls a))
                  (match lastOf (Chat.messages chat) with
                   | None => user
                   | Some lastMessage =>
                       if bool_decide (Message.role lastMessage = assistant)
                       then user else assistant
                   end) (Text content) None (Some regular)])
              (Chat.activePresetIndex chat) (Chat.created chat)) /\
    (Js.truthy content = false -> name = Chat.name chat).
Proof.
  intros Hchat. unfold handleAppendMessage. rewrite Hchat. cbn [uuid].
  eexists. split; [reflexivity|]. intros ->. reflexivity.
Qed.

Lemma alternating_S (k : nat) :
  alternating (S k) = alternating k ++ [if Nat.even k then user else assistant].
Proof. unfold alternating. rewrite seq_S, map_app. reflexivity. Qed.

Lemma lastOf_snoc {A} (l : list A) (x : A) : lastOf (l ++ [x]) = Some x.
Proof. unfold lastOf. apply last_snoc. Qed.

Lemma next_role (k : nat) (roles : list Role) (msgs : list Message.t) :
  map Message.role msgs = alternating k ->
  match lastOf msgs with
  | None => user
  | Some lastMessage =>
      if bool_decide (Message.role lastMessage = assistant) then user else assistant
  end = if Nat.even k then user else assistant.
Proof.
  intros Hroles. destruct k as [|k].
  - destruct msgs; [reflexivity|discriminate].
  - rewrite alternating_S in Hroles.
    destruct (exists_last (l := msgs)) as (front & x & ->).
    { intros ->. destruct (alternating k); discriminate. }
    rewrite lastOf_snoc. rewrite map_app in Hroles. cbn [map] in Hroles.
    apply app_inj_tail in Hroles as [_ Hx]. rewrite Hx, Nat.even_succ.
    rewrite <- Nat.negb_even. destruct (Nat.even k); reflexivity.
Qed.

Lemma appendAll_roles (now : Z) (contents : list string) :
  forall (a : App) (chat : Chat.t) (k : nat),
    activeChat a = Some chat ->
    map Message.role (Chat.messages chat) = alternating k ->
    exists chat',
      activeChat (appendAll uuidv4 now contents a) = Some chat' /\
      Chat.id chat' = Chat.id chat /\
      map Message.role (Chat.messages chat') = alternating (k + length contents) /\
      map Message.content (Chat.messages chat')
      = map Message.content (Chat.messages chat) ++ map Text contents.
Proof.
  induction contents as [|content contents IH]; intros a chat k Hchat Hroles.
  - exists chat. rewrite Nat.add_0_r, app_nil_r. auto.
  - destruct (handleAppendMessage_active now content a chat Hchat) as (name & Hnext & _).
    unfold appendAll. cbn [fold_left].
    destruct (IH _ _ (S k) Hnext) as (chat' & Hactive & Hid & Hr & Hc).
    { cbn [Chat.messages]. rewrite map_app, Hroles, alternating_S. cbn [map Message.role].
      now rewrite (next_role k (alternating k) _ Hroles). }
    exists chat'. split; [exact Hactive|]. split; [exact Hid|].
    cbn [length]. rewrite Nat.add_succ_r. split; [exact Hr|].
    rewrite Hc. cbn [Chat.messages Message.content map].
    rewrite map_app, <- app_assoc. reflexivity.
Qed.

(** X13. Messages appended one after the other to an empty chat alternate
    between the user and the assistant, beginning with the user, and carry
    the texts given, in order. *)
Theorem appended_messages_alternate (now : Z) (contents : list string) (a : App)
  (chat : Chat.t) :
  activeChat a = Some chat ->
  Chat.messages chat = [] ->
  exists chat',
    activeChat (appendAll uuidv4 now contents a) = Some chat' /\
    map Message.role (Chat.messages chat') = alternating (length contents) /\
    map Message.content (Chat.messages chat') = map Text contents.
Proof.
  intros Hchat Hempty.
  destruct (appendAll_roles now contents a chat 0 Hchat) as (chat' & Hactive & _ & Hr & Hc).
  { now rewrite Hempty. }
  exists chat'. rewrite Hempty in Hc. auto.
Qed.

(** X14. Pasting an image appends an empty message and then puts the image
    in its place: the active chat ends with the messages it had followed by
    one user message holding the image, its name is unchanged, and its
    metadata entry counts these messages. *)
Theorem paste_appends_one_image (now : Z) (base64Image : string) (a : App)
  (chat : Chat.t) :
  activeChat a = Some chat ->
  let after := pasteImage uuidv4 now base64Image a in
  activeChat after =
    Some (Chat.mk (Chat.id chat) (Chat.name chat)
            (Chat.messages chat ++
             [Message.mk (uuidv4 (uuidCalls a)) user
                (Parts [image_url_part base64Image]) None (Some regular)])
            (Chat.activePresetIndex chat) (Chat.created chat)) /\
  ChatMetadata.messageCount <$> metadataOf (Chat.id chat) after
  = (fun _ => S (length (Chat.messages chat))) <$> metadataOf (Chat.id chat) a.
Proof.
  intros Hchat after. subst after. unfold pasteImage. cbn [uuid].
  set (a1 := mkApp _ _ _ _ _ _ _ _ _ _ _ _ _ _ _).
  assert (Hchat1 : activeChat a1 = Some chat) by exact Hchat.
  destruct (handleAppendMessage_active now EmptyString a1 chat Hchat1)
    as (name & Hnext & Hname).
  rewrite (Hname eq_refl) in Hnext. clear Hname.
  set (a2 := handleAppendMessage uuidv4 now EmptyString a1) in *.
  unfold handleImagePaste. rewrite Hnext. cbn [Chat.messages Chat.id].
  rewrite lastOf_snoc. cbn [Message.content isEmptyText String.eqb].
  unfold dropLast. rewrite removelast_last.
  cbn [activeChat setActiveChat withMessages Chat.id Chat.name Chat.messages
       Chat.activePresetIndex Chat.created].
  split; [reflexivity|].
  unfold metadataOf at 1. cbn [chatMetadatas setActiveChat].
  fold (metadataOf (Chat.id chat)
          (updateChatMetadata now (Chat.id chat)
             (mkUpdates None
                (Some (length (Chat.messages chat ++
                   [Message.mk (uuidv4 (uuidCalls a)) user
                      (Parts [image_url_part base64Image]) None (Some regular)])))) a2)).
  rewrite metadataOf_update.
  assert (Hsome : is_Some (metadataOf (Chat.id chat) a2)
                  <-> is_Some (metadataOf (Chat.id chat) a)).
  { subst a2. unfold handleAppendMessage. rewrite Hchat1. cbn [uuid].
    unfold metadataOf at 1. cbn [chatMetadatas setActiveChat].
    match goal with
    | |- context [updateChatMetadata ?n ?i ?u ?x] =>
        fold (metadataOf i (updateChatMetadata n i u x))
    end.
    rewrite metadataOf_update. unfold metadataOf. subst a1. cbn [chatMetadatas].
    destruct (find _ (chatMetadatas a)); cbn; split; intros H;
      first [exact H | eexists; reflexivity]. }
  destruct (metadataOf (Chat.id chat) a2) as [m2|], (metadataOf (Chat.id chat) a) as [m0|];
    cbn.
  - rewrite length_app. cbn. now rewrite Nat.add_1_r.
  - destruct Hsome as [H _]. destruct H as [? H]; [eauto|discriminate].
  - destruct Hsome as [_ H]. destruct H as [? H]; [eauto|discriminate].
  - reflexivity.
Qed.

(** X15. A blank input is sent only to continue after a user message: when
    the last message of the chat is the user's, the send keeps the messages
    that are not reasoning messages, adds no user message and appends the
    empty assistant message, the name of the chat staying as it is; otherwise
    nothing happens. *)
Theorem blank_input_continues (now : Z) (inputValue : string) (a : App)
  (chat : Chat.t) :
  activeChat a = Some chat ->
  Js.truthy (apiKey a) = true ->
  isLoading a = false ->
  Js.trim inputValue = EmptyString ->
  let res := chatAreaSend uuidv4 now inputValue a in
  match lastOf (Chat.messages chat) with
  | Some lastMessage =>
      if bool_decide (Message.role lastMessage = user) then
        activeChat (fst res) =
          Some (Chat.mk (Chat.id chat) (Chat.name chat)
                  (List.filter notReasoning (Chat.messages chat)
                   ++ [placeholder (uuidv4 (uuidCalls a)) EmptyString])
                  (Chat.activePresetIndex chat) (Chat.created chat))
      else res = (a, NotStarted)
  | None => res = (a, NotStarted)
  end.
Proof.
  intros Hchat Hkey Hidle Hblank res. subst res. unfold chatAreaSend.
  rewrite Hchat, Hidle, Hblank. cbn [Js.truthy negb orb andb].
  destruct (lastOf (Chat.messages chat)) as [lastMessage|]; [|reflexivity].
  destruct (bool_decide (Message.role lastMessage = user)); [|reflexivity].
  rewrite orb_true_r. cbn [andb].
  destruct (handleSendMessage_started uuidv4 now EmptyString a chat Hchat Hkey)
    as (Hactive & _).
  rewrite Hactive. unfold nameAfter, userMessages.
  change (Js.truthy EmptyString) with false. cbn [andb].
  now rewrite app_nil_r.
Qed.

End Appending.

(** ** The flags of a turn *)

Lemma sameFlags_refl a : sameFlags a a.
Proof. repeat split. Qed.

Lemma sameFlags_trans a b c : sameFlags a b -> sameFlags b c -> sameFlags a c.
Proof.
  intros (H1 & H2 & H3 & H4 & H5) (K1 & K2 & K3 & K4 & K5).
  repeat split; congruence.
Qed.

Lemma inFlight_sameFlags ctl a b : sameFlags a b -> inFlight ctl a -> inFlight ctl b.
Proof.
  intros (H1 & H2 & H3 & H4 & _). unfold inFlight, signalAborted.
  rewrite H1, H2, H3, H4. auto.
Qed.

Lemma sameFlags_flushUpdate a l :
  sameFlags a (fst (flushUpdate (a, l))) /\
  controller (snd (flushUpdate (a, l))) = controller l.
Proof.
  rewrite flushUpdate_eq.
  destruct (streamingMessageRef a); [|split; [apply sameFlags_refl|reflexivity]].
  destruct (_ || _); split; try reflexivity; repeat split.
Qed.

Lemma sameFlags_timerCallback a l :
  sameFlags a (fst (timerCallback (a, l))) /\
  controller (snd (timerCallback (a, l))) = controller l.
Proof.
  unfold timerCallback. destruct (sameFlags_flushUpdate a l) as [H1 H2].
  destruct (flushUpdate (a, l)) as [a' l']. exact (conj H1 H2).
Qed.

Lemma idle_finishTurn e a : idle (finishTurn e a).
Proof.
  unfold finishTurn. destruct e as [|name]; [repeat split|].
  destruct (String.eqb name "AbortError"); repeat split.
Qed.

Lemma inFlight_handleStopMessage ctl a : inFlight ctl a -> inFlight ctl (handleStopMessage a).
Proof.
  unfold handleStopMessage.
  intros [(H1 & H2 & H3 & H4) | (H1 & H2 & H3 & H4)]; rewrite H3; [|right; auto].
  right. repeat split. unfold signalAborted. cbn. now rewrite Nat.eqb_refl.
Qed.

Section Flags.

Variable uuidv4 : nat -> string.
Variable decode : string -> option Delta.t.

Lemma sameFlags_createReasoningMessage a :
  sameFlags a (createReasoningMessage uuidv4 a).
Proof.
  unfold createReasoningMessage.
  destruct (activeChat a) as [prev|]; [|apply sameFlags_refl].
  destruct (otherChat _ prev); [apply sameFlags_refl|].
  destruct (find _ _); [apply sameFlags_refl|]. repeat split.
Qed.

Lemma sameFlags_onDelta d a l :
  sameFlags a (fst (onDelta uuidv4 d (a, l))) /\
  controller (snd (onDelta uuidv4 d (a, l))) = controller l.
Proof.
  unfold onDelta.
  destruct (Delta.content d), (Delta.reasoning d); cbn [fst snd controller]; split;
    try reflexivity; try apply sameFlags_refl; apply sameFlags_createReasoningMessage.
Qed.

Lemma sameFlags_processLine line a l :
  sameFlags a (fst (processLine uuidv4 decode (a, l) line)) /\
  controller (snd (processLine uuidv4 decode (a, l) line)) = controller l.
Proof.
  unfold processLine.
  destruct (Js.startsWith _ _); [|split; [apply sameFlags_refl|reflexivity]].
  destruct (String.eqb _ _); [split; [apply sameFlags_refl|reflexivity]|].
  destruct (decode _) as [d|]; [apply sameFlags_onDelta|].
  split; [repeat split|reflexivity].
Qed.

Lemma sameFlags_lines lines : forall a l,
  sameFlags a (fst (fold_left (processLine uuidv4 decode) lines (a, l))) /\
  controller (snd (fold_left (processLine uuidv4 decode) lines (a, l))) = controller l.
Proof.
  induction lines as [|line lines IH]; intros a l;
    [split; [apply sameFlags_refl|reflexivity]|].
  cbn [fold_left]. destruct (sameFlags_processLine line a l) as [H1 H2].
  destruct (processLine uuidv4 decode (a, l) line) as [a1 l1]. cbn [fst snd] in *.
  destruct (IH a1 l1) as [K1 K2]. split; [|congruence].
  exact (sameFlags_trans _ _ _ H1 K1).
Qed.

Lemma turnFlags_step st ev :
  turnFlags st -> turnFlags (step uuidv4 decode st ev).
Proof.
  destruct st as [a turn]. unfold turnFlags. cbn [fst snd]. intros H.
  destruct ev as [w| |].
  - destruct turn as [|ctl request|l|e]; cbn [step fst snd]; try exact H.
    + destruct (signalAborted ctl a); [apply idle_finishTurn|].
      destruct w as [ok hasBody|text| |name]; cbn [fst snd]; try exact H;
        [|apply idle_finishTurn].
      destruct ok; cbn [negb]; [|apply idle_finishTurn].
      destruct hasBody; cbn [negb]; [exact H|apply idle_finishTurn].
    + destruct (signalAborted (controller l) a); [apply idle_finishTurn|].
      destruct w as [ok hasBody|text| |name]; cbn [fst snd]; try exact H.
      * unfold readChunk.
        destruct (sameFlags_lines (Js.split Js.LF text) a l) as [H1 H2].
        destruct (fold_left _ _ _) as [a1 l1]. cbn [fst snd] in *.
        rewrite H2. exact (inFlight_sameFlags _ _ _ H1 H).
      * destruct (flushUpdateCall a l) as [[[finalContent finalReasoning]|] l'];
          cbn [leave runFlushUpdater fst snd]; [|apply idle_finishTurn].
        repeat split.
      * apply idle_finishTurn.
  - destruct turn as [|ctl request|l|e]; cbn [step fst snd]; try exact H.
    destruct (updateTimer l); [|exact H].
    destruct (sameFlags_timerCallback a l) as [H1 H2].
    destruct (timerCallback (a, l)) as [a1 l1]. cbn [fst snd] in *.
    rewrite H2. exact (inFlight_sameFlags _ _ _ H1 H).
  - cbn [step fst snd].
    destruct turn as [|ctl request|l|e]; cbn [fst snd]; try exact I;
      try (now apply inFlight_handleStopMessage).
    unfold handleStopMessage. pose proof H as (_ & _ & Hc & _). rewrite Hc. exact H.
Qed.

Lemma turnFlags_run events : forall st,
  turnFlags st -> turnFlags (run uuidv4 decode events st).
Proof.
  induction events as [|ev events IH]; intros st H; [exact H|].
  unfold run. cbn [fold_left]. apply IH, turnFlags_step, H.
Qed.

Lemma turnFlags_handleSendMessage now content a :
  turnFlags (handleSendMessage uuidv4 now content a).
Proof.
  unfold handleSendMessage, turnFlags.
  destruct (activeChat a) as [chat|]; [|exact I].
  destruct (Js.truthy (apiKey a)); cbn [negb]; [|exact I].
  cbn [uuid newAbortController].
  destruct (Js.truthy content); cbn [uuid];
    (destruct (apiMessagesOf _ _); cbn [fst snd]; [|apply idle_finishTurn]);
    left; repeat split; apply fresh_controller_not_aborted.
Qed.

(** X16. Whatever arrives after a send, in whatever order (responses,
    chunks, the end of the stream, failures, the batching timer, presses of
    the stop button): once the handler has left, the loading and streaming
    flags are off and the controller and the streaming ref are cleared; while
    it has not, either the flags are on and the controller held is the one of
    this request, not aborted, or the stop button has aborted it and turned
    the flags off. *)
Theorem turn_flags_hold (now : Z) (content : string) (a : App) (events : list Event) :
  turnFlags (run uuidv4 decode events (handleSendMessage uuidv4 now content a)).
Proof. apply turnFlags_run, turnFlags_handleSendMessage. Qed.

(** X17. While a stream runs and has not been stopped, the chat area
    neither sends nor appends: its two handlers leave the state as it is. *)
Theorem no_second_turn_while_streaming (now later : Z) (content : string) (a : App)
  (chat : Chat.t) (events : list Event) (inputValue : string) :
  sendable uuidv4 a chat ->
  Forall streamEvent events ->
  let a' := fst (run uuidv4 decode (FromWire (Response true true) :: events)
                   (handleSendMessage uuidv4 now content a)) in
  isLoading a' = true /\
  chatAreaSend uuidv4 later inputValue a' = (a', NotStarted) /\
  chatAreaAppend uuidv4 later inputValue a' = a'.
Proof.
  intros Hs Hevents a'.
  destruct (turn_after_events uuidv4 decode now content a chat events Hs Hevents)
    as (a1 & l & Hrun & HI & _).
  pose proof (turnFlags_run (FromWire (Response true true) :: events) _
                (turnFlags_handleSendMessage now content a)) as Hflags.
  subst a'. rewrite Hrun in *. cbn [fst]. unfold turnFlags in Hflags.
  cbn [fst snd] in Hflags. destruct HI as [? ? ? ? ? _ _ _ _ _ _ _ _ _ Hab].
  destruct Hflags as [(Hloading & _) | (_ & _ & _ & Hstopped)]; [|congruence].
  unfold chatAreaSend, chatAreaAppend. rewrite Hloading. cbn [negb].
  rewrite andb_false_r. auto.
Qed.

(** X18. A request that is refused (the response is not ok or has no
    body, or [fetch] fails otherwise than by the abort) ends the turn with
    the alert; the messages the send has put into the chat, the empty
    assistant message last, stay there. *)
Theorem refused_request_keeps_placeholder (now : Z) (content : string) (a : App)
  (chat : Chat.t) (w : Wire) :
  sendable uuidv4 a chat ->
  refused w ->
  let res := step uuidv4 decode (handleSendMessage uuidv4 now content a) (FromWire w) in
  (exists name, snd res = Ended (Threw name)) /\
  activeChat (fst res) =
    Some (Chat.mk (Chat.id chat) (nameAfter content chat)
            (sentMessages uuidv4 content a chat
             ++ [placeholder (uuidv4 (uuidCalls a)) EmptyString])
            (Chat.activePresetIndex chat) (Chat.created chat)) /\
  alerts (fst res) =
    alerts a ++ ["Failed to send message. Please check your API key and try again."] /\
  idle (fst res).
Proof.
  intros Hs Hw res. pose proof Hs as (Hchat & Hkey & [preset Hpreset] & _).
  destruct (handleSendMessage_started uuidv4 now content a chat Hchat Hkey)
    as (Hactive & _ & Halerts & Hturn).
  rewrite Hpreset in Hturn, Halerts. destruct Hturn as (Hsnd & _ & _ & Hab).
  subst res. destruct (handleSendMessage uuidv4 now content a) as [a1 t1].
  cbn [fst snd] in *. subst t1. cbn [step]. rewrite Hab.
  assert (Hthrown : forall name, name <> "AbortError" ->
    (exists n, snd (leave (Threw name) a1) = Ended (Threw n)) /\
    activeChat (fst (leave (Threw name) a1)) = activeChat a1 /\
    alerts (fst (leave (Threw name) a1)) =
      alerts a1 ++ ["Failed to send message. Please check your API key and try again."] /\
    idle (fst (leave (Threw name) a1))).
  { intros name Hname. unfold leave. cbn [fst snd].
    split; [eauto|]. split; [|split; [|apply idle_finishTurn]];
      unfold finishTurn; apply String.eqb_neq in Hname; rewrite Hname; reflexivity. }
  unfold sentMessages. rewrite <- Hactive, <- Halerts.
  destruct w as [ok hasBody|text| |name]; cbn in Hw; try contradiction.
  - destruct ok; cbn [negb]; [|apply Hthrown; discriminate].
    cbn in Hw. subst hasBody. cbn [negb]. apply Hthrown. discriminate.
  - apply Hthrown, Hw.
Qed.

Lemma omap_nil_all {A B} (f : A -> option B) (l : list A) :
  omap f l = [] -> Forall (fun x => f x = None) l.
Proof.
  induction l as [|x l IH]; intros H; [constructor|].
  cbn in H. destruct (f x) eqn:E; [discriminate|].
  constructor; [exact E|exact (IH H)].
Qed.

(** X19. A chunk none of whose lines yields a delta (lines that are not
    [data:] lines, the [[DONE]] line, payloads that do not parse) changes
    neither the accumulators and the timer of the loop nor the chat, its
    metadata and the alerts. *)
Theorem chunk_without_deltas_is_skipped (chunk : string) (a : App) (l : Loop) :
  chunkDeltas decode chunk = [] ->
  let res := readChunk uuidv4 decode (a, l) chunk in
  snd res = l /\
  activeChat (fst res) = activeChat a /\
  chatMetadatas (fst res) = chatMetadatas a /\
  alerts (fst res) = alerts a.
Proof.
  unfold chunkDeltas, readChunk. intros H. apply omap_nil_all in H. cbv zeta.
  revert a. induction H as [|line lines Hline _ IH]; intros a; [repeat split|].
  cbn [fold_left].
  assert (Hone : exists a1, processLine uuidv4 decode (a, l) line = (a1, l) /\
            activeChat a1 = activeChat a /\ chatMetadatas a1 = chatMetadatas a /\
            alerts a1 = alerts a).
  { unfold lineDelta in Hline. unfold processLine.
    destruct (Js.startsWith _ _); [|eexists; repeat split].
    destruct (String.eqb _ _); [eexists; repeat split|].
    rewrite Hline. eexists. repeat split. }
  destruct Hone as (a1 & -> & H1 & H2 & H3).
  destruct (IH a1) as (K0 & K1 & K2 & K3). repeat split; congruence.
Qed.

End Flags.

(** ** What a reload finds *)

Lemma metadata_key : CHAT_METADATA_KEY = chatKey "metadata".
Proof. reflexivity. Qed.

Lemma chatKey_not_apiKey (chatId : string) : "ORI_apiKey" <> chatKey chatId.
Proof.
  intros H. apply (f_equal (String.get 4)) in H. vm_compute in H. discriminate.
Qed.

Lemma chatKey_not_presets (chatId : string) : "ORI_presets" <> chatKey chatId.
Proof.
  intros H. apply (f_equal (String.get 4)) in H. vm_compute in H. discriminate.
Qed.

Lemma persistApiKey_fields (a : App) :
  apiKey (persistApiKey a) = apiKey a /\
  chatMetadatas (persistApiKey a) = chatMetadatas a /\
  presets (persistApiKey a) = presets a /\
  db (persistApiKey a) =
    if Js.truthy (apiKey a) then setItem "ORI_apiKey" (VApiKey (apiKey a)) (db a)
    else db a.
Proof. unfold persistApiKey. destruct (Js.truthy (apiKey a)); repeat split. Qed.

Lemma persistMetadata_fields (a : App) :
  apiKey (persistMetadata a) = apiKey a /\
  chatMetadatas (persistMetadata a) = chatMetadatas a /\
  presets (persistMetadata a) = presets a /\
  db (persistMetadata a) =
    if Nat.ltb 0 (length (chatMetadatas a))
    then saveChatMetadata (chatMetadatas a) (db a) else db a.
Proof.
  unfold persistMetadata. destruct (Nat.ltb 0 (length (chatMetadatas a))); repeat split.
Qed.

Lemma persistPresets_fields (a : App) :
  apiKey (persistPresets a) = apiKey a /\
  chatMetadatas (persistPresets a) = chatMetadatas a /\
  presets (persistPresets a) = presets a /\
  db (persistPresets a) =
    if Nat.ltb 0 (length (presets a))
    then setItem "ORI_presets" (VPresets (presets a)) (db a) else db a.
Proof.
  unfold persistPresets. destruct (Nat.ltb 0 (length (presets a))); repeat split.
Qed.

Lemma persist_fields (a : App) :
  apiKey (persist a) = apiKey a /\
  chatMetadatas (persist a) = chatMetadatas a /\
  presets (persist a) = presets a /\
  db (persist a) =
    let store :=
      if Js.truthy (apiKey a) then setItem "ORI_apiKey" (VApiKey (apiKey a)) (db a)
      else db a in
    let store :=
      if Nat.ltb 0 (length (chatMetadatas a))
      then saveChatMetadata (chatMetadatas a) store else store in
    if Nat.ltb 0 (length (presets a))
    then setItem "ORI_presets" (VPresets (presets a)) store else store.
Proof.
  unfold persist.
  destruct (persistApiKey_fields a) as (A1 & A2 & A3 & A4).
  destruct (persistMetadata_fields (persistApiKey a)) as (B1 & B2 & B3 & B4).
  destruct (persistPresets_fields (persistMetadata (persistApiKey a)))
    as (C1 & C2 & C3 & C4).
  rewrite C1, C2, C3, C4, B1, B2, B3, B4, A1, A2, A3, A4. repeat split.
Qed.

Lemma persist_apiKey (a : App) :
  Js.truthy (apiKey a) = true ->
  getItem "ORI_apiKey" (db (persist a)) = Some (VApiKey (apiKey a)).
Proof.
  intros Hkey. destruct (persist_fields a) as (_ & _ & _ & ->). rewrite Hkey.
  cbv zeta. unfold getItem, saveChatMetadata, setItem.
  destruct (Nat.ltb 0 (length (chatMetadatas a)));
    destruct (Nat.ltb 0 (length (presets a)));
    rewrite ?(lookup_insert_ne _ "ORI_presets" "ORI_apiKey") by discriminate;
    rewrite ?(lookup_insert_ne _ CHAT_METADATA_KEY "ORI_apiKey") by discriminate;
    apply lookup_insert_eq.
Qed.

Lemma persist_presets (a : App) :
  presets a <> [] ->
  getItem "ORI_presets" (db (persist a)) = Some (VPresets (presets a)).
Proof.
  intros Hpresets. destruct (persist_fields a) as (_ & _ & _ & ->).
  destruct (presets a) as [|p ps] eqn:E; [contradiction|].
  cbn [length Nat.ltb Nat.leb]. cbv zeta. unfold getItem, setItem.
  apply lookup_insert_eq.
Qed.

Lemma persist_metadata (a : App) :
  getChatMetadata (db (persist a)) =
  if Nat.ltb 0 (length (chatMetadatas a)) then chatMetadatas a
  else getChatMetadata (db a).
Proof.
  destruct (persist_fields a) as (_ & _ & _ & ->). cbv zeta.
  unfold getChatMetadata, saveChatMetadata, getItem, setItem.
  destruct (Js.truthy (apiKey a));
    destruct (Nat.ltb 0 (length (chatMetadatas a)));
    destruct (Nat.ltb 0 (length (presets a)));
    rewrite ?(lookup_insert_ne _ "ORI_presets" CHAT_METADATA_KEY) by discriminate;
    rewrite ?(lookup_insert_ne _ "ORI_apiKey" CHAT_METADATA_KEY) by discriminate;
    rewrite ?lookup_insert_eq; reflexivity.
Qed.

Lemma persist_chat (chatId : string) (a : App) :
  chatId <> "metadata" ->
  loadChat chatId (db (persist a)) = loadChat chatId (db a).
Proof.
  intros Hid.
  assert (Hmeta : CHAT_METADATA_KEY <> chatKey chatId).
  { rewrite metadata_key. apply chatKey_ne. congruence. }
  pose proof (chatKey_not_apiKey chatId) as Hkey.
  pose proof (chatKey_not_presets chatId) as Hpresets.
  destruct (persist_fields a) as (_ & _ & _ & ->). cbv zeta.
  unfold loadChat, saveChatMetadata, getItem, setItem.
  destruct (Js.truthy (apiKey a));
    destruct (Nat.ltb 0 (length (chatMetadatas a)));
    destruct (Nat.ltb 0 (length (presets a)));
    rewrite ?(lookup_insert_ne _ _ _ _ Hpresets), ?(lookup_insert_ne _ _ _ _ Hmeta),
      ?(lookup_insert_ne _ _ _ _ Hkey); reflexivity.
Qed.

(** X20. What the saving effects have written, a fresh mount reads back:
    with a key, presets and at least one chat, the component loaded from the
    store has the same key, the same index of chats and the same presets, and
    its active chat is the stored body of the chat created last. *)
Theorem reload_restores (a : App) (newest : ChatMetadata.t) :
  Js.truthy (apiKey a) = true ->
  presets a <> [] ->
  newestOf (chatMetadatas a) = Some newest ->
  ChatMetadata.id newest <> "metadata" ->
  let b := loadData (initialApp (db (persist a))) in
  apiKey b = apiKey a /\
  chatMetadatas b = chatMetadatas a /\
  presets b = presets a /\
  activeChat b = loadChat (ChatMetadata.id newest) (db a) /\
  activeChatId b = Chat.id <$> loadChat (ChatMetadata.id newest) (db a).
Proof.
  intros Hkey Hpresets Hnewest Hid b. subst b. unfold loadData, initialApp.
  cbn [db]. rewrite (persist_apiKey a Hkey), (persist_presets a Hpresets), persist_metadata.
  rewrite Hkey. destruct (chatMetadatas a) as [|first rest] eqn:Hmetas; [discriminate|].
  cbn [length Nat.ltb Nat.leb]. rewrite Hnewest.
  cbn [db setChatMetadatas setApiKey]. rewrite (persist_chat _ a Hid).
  destruct (loadChat (ChatMetadata.id newest) (db a)) as [chat|]; cbn; auto.
Qed.

(** X21. The index of chats is saved only while it is not empty, so the
    deletion of the last chat never reaches the store: the index in memory is
    empty, and a fresh mount reads the old index back, with the entry of the
    deleted chat. *)
Theorem last_chat_returns_on_reload (a : App) (chatId : string) :
  chatMetadatas a <> [] ->
  getChatMetadata (db a) = chatMetadatas a ->
  List.filter (fun meta => negb (String.eqb (ChatMetadata.id meta) chatId))
    (chatMetadatas a) = [] ->
  chatId <> "metadata" ->
  let after := persist (handleDeleteChat chatId a) in
  chatMetadatas after = [] /\
  loadChat chatId (db after) = None /\
  chatMetadatas (loadData (initialApp (db after))) = chatMetadatas a.
Proof.
  intros Hsome Hsaved Hall Hid after.
  assert (Hmeta : chatKey chatId <> CHAT_METADATA_KEY).
  { rewrite metadata_key. apply chatKey_ne. exact Hid. }
  assert (Hdeleted : exists d,
            handleDeleteChat chatId a = d /\ chatMetadatas d = [] /\
            db d = deleteItem (chatKey chatId) (db a)).
  { eexists. split; [reflexivity|]. unfold handleDeleteChat.
    cbn [chatMetadatas setDb]. rewrite Hall. cbn [newestOf].
    destruct (bool_decide _); cbn; auto. }
  destruct Hdeleted as (d & Hd & Hmetas & Hdb). subst after. rewrite Hd. clear Hd.
  assert (Hkept : chatMetadatas (persist d) = chatMetadatas d)
    by apply persist_fields.
  split; [congruence|]. split.
  { rewrite (persist_chat _ d Hid), Hdb. unfold loadChat, getItem, deleteItem.
    now rewrite lookup_delete_eq. }
  assert (Hindex : getChatMetadata (db (persist d)) = chatMetadatas a).
  { rewrite persist_metadata, Hmetas. cbn [length Nat.ltb Nat.leb]. rewrite Hdb.
    rewrite <- Hsaved. unfold getChatMetadata, getItem, deleteItem.
    now rewrite lookup_delete_ne. }
  unfold loadData, initialApp. cbn [db]. rewrite Hindex.
  destruct (chatMetadatas a) as [|first rest] eqn:Ha; [contradiction|].
  cbn [length Nat.ltb Nat.leb].
  destruct (getItem "ORI_apiKey" _) as [[key| | |]|]; try destruct (Js.truthy key);
    cbn [db setChatMetadatas setApiKey];
    destruct (newestOf _); try destruct (loadChat _ _);
    destruct (getItem "ORI_presets" _) as [[| | |]|]; reflexivity.
Qed.

(** ** The debounced save over any series of calls *)

Module DebouncedSaveSeries.
Import DebouncedSave.

Lemma writesFor_executeSave chatId c :
  List.NoDup (map fst (pendingSaves c)) ->
  writesFor chatId (executeSave c) =
  writesFor chatId c ++
  match mapGet chatId (pendingSaves c) with
  | Some chat => [VChat chat]
  | None => []
  end.
Proof.
  intros Hnd. unfold writesFor, executeSave. cbn [writes].
  rewrite List.filter_app, map_app. f_equal.
  now apply DebouncedSaveFacts.flush_writes.
Qed.

Lemma elapse_NoDup now c :
  List.NoDup (map fst (pendingSaves c)) ->
  List.NoDup (map fst (pendingSaves (elapse now c))).
Proof.
  intros Hnd. unfold elapse. destruct (timer c) as [d|]; [|exact Hnd].
  destruct (d <=? now)%Z; [constructor|exact Hnd].
Qed.

Lemma save_NoDup now chatId chat c :
  List.NoDup (map fst (pendingSaves c)) ->
  List.NoDup (map fst (pendingSaves (save now chatId chat c))).
Proof.
  intros Hnd. unfold save. cbn [pendingSaves].
  now apply DebouncedSaveFacts.mapSet_NoDup, elapse_NoDup.
Qed.

Lemma latestSaved_elapse chatId now c :
  List.NoDup (map fst (pendingSaves c)) ->
  latestSaved chatId (elapse now c) = latestSaved chatId c.
Proof.
  intros Hnd. unfold elapse. destruct (timer c) as [d|]; [|reflexivity].
  destruct (d <=? now)%Z; [|reflexivity].
  unfold latestSaved. rewrite (writesFor_executeSave chatId c Hnd).
  cbn [executeSave pendingSaves mapGet].
  destruct (mapGet chatId (pendingSaves c)) as [chat|].
  - now rewrite last_snoc.
  - now rewrite app_nil_r.
Qed.

Lemma latestSaved_save chatId now k chat c :
  List.NoDup (map fst (pendingSaves c)) ->
  latestSaved chatId (save now k chat c) =
  if String.eqb k chatId then Some (VChat chat) else latestSaved chatId c.
Proof.
  intros Hnd. rewrite <- (latestSaved_elapse chatId now c Hnd).
  unfold latestSaved, save, writesFor. cbn [pendingSaves writes].
  rewrite DebouncedSaveFacts.mapGet_mapSet.
  destruct (String.eqb k chatId); reflexivity.
Qed.

Lemma saveAll_NoDup calls : forall c,
  List.NoDup (map fst (pendingSaves c)) ->
  List.NoDup (map fst (pendingSaves (saveAll calls c))).
Proof.
  induction calls as [|[[now k] chat] calls IH]; intros c Hnd; [exact Hnd|].
  unfold saveAll. cbn [fold_left]. apply IH. now apply save_NoDup.
Qed.

Lemma latestSaved_saveAll chatId calls : forall c,
  List.NoDup (map fst (pendingSaves c)) ->
  latestSaved chatId (saveAll calls c) =
  match last (snapshotsFor chatId calls) with
  | Some chat => Some (VChat chat)
  | None => latestSaved chatId c
  end.
Proof.
  induction calls as [|[[now k] chat] calls IH]; intros c Hnd; [reflexivity|].
  unfold saveAll. cbn [fold_left]. fold (saveAll calls (save now k chat c)).
  rewrite (IH _ (save_NoDup now k chat c Hnd)), (latestSaved_save chatId now k chat c Hnd).
  unfold snapshotsFor. cbn [List.filter fst snd].
  destruct (String.eqb k chatId); [|reflexivity].
  cbn [map snd]. rewrite last_cons. now destruct (last _).
Qed.

Lemma timer_saveAll calls : forall c now k chat,
  last calls = Some (now, k, chat) ->
  timer (saveAll calls c) = Some (now + wait)%Z.
Proof.
  induction calls as [|[[t0 k0] chat0] calls IH]; intros c now k chat Hlast;
    [discriminate|].
  unfold saveAll. cbn [fold_left]. fold (saveAll calls (save t0 k0 chat0 c)).
  destruct calls as [|call calls'].
  - cbn in Hlast. injection Hlast as -> -> ->. reflexivity.
  - apply (IH _ now k chat). rewrite last_cons in Hlast.
    destruct (last (call :: calls')) eqn:E; [exact Hlast|].
    apply last_None in E. discriminate.
Qed.

Lemma scheduled_elapse chatId snapshots now c :
  List.NoDup (map fst (pendingSaves c)) ->
  scheduled chatId snapshots c -> scheduled chatId snapshots (elapse now c).
Proof.
  intros Hnd [Hw Hp]. unfold elapse. destruct (timer c) as [d|]; [|now split].
  destruct (d <=? now)%Z; [|now split]. split.
  - intros v. rewrite (writesFor_executeSave chatId c Hnd). intros Hin.
    apply in_app_or in Hin as [Hin|Hin]; [now apply Hw|].
    destruct (mapGet chatId (pendingSaves c)) as [chat|]; [|destruct Hin].
    destruct Hin as [<-|[]]. exists chat. split; [reflexivity|now apply Hp].
  - cbn. discriminate.
Qed.

Lemma scheduled_saveAll chatId calls : forall snapshots c,
  List.NoDup (map fst (pendingSaves c)) ->
  scheduled chatId snapshots c ->
  scheduled chatId (snapshots ++ snapshotsFor chatId calls) (saveAll calls c).
Proof.
  induction calls as [|[[now k] chat] calls IH]; intros snapshots c Hnd Hs.
  - unfold snapshotsFor. cbn. now rewrite app_nil_r.
  - unfold saveAll. cbn [fold_left]. fold (saveAll calls (save now k chat c)).
    pose proof (scheduled_elapse chatId snapshots now c Hnd Hs) as [Hw Hp].
    unfold snapshotsFor. cbn [List.filter fst snd].
    destruct (String.eqb_spec k chatId) as [->|Hne].
    + cbn [map snd].
      replace (snapshots ++ chat :: map snd (List.filter
                 (fun call => String.eqb (snd (fst call)) chatId) calls))
        with ((snapshots ++ [chat]) ++ snapshotsFor chatId calls)
        by (rewrite <- app_assoc; reflexivity).
      apply IH; [now apply save_NoDup|]. split.
      * intros v Hin. destruct (Hw v Hin) as (x & -> & Hx).
        exists x. split; [reflexivity|]. apply in_or_app. now left.
      * unfold save. cbn [pendingSaves]. intros x.
        rewrite DebouncedSaveFacts.mapGet_mapSet, String.eqb_refl.
        intros [= <-]. apply in_or_app. right. now left.
    + apply IH; [now apply save_NoDup|]. split; [exact Hw|].
      unfold save. cbn [pendingSaves]. intros x.
      rewrite DebouncedSaveFacts.mapGet_mapSet.
      destruct (String.eqb_spec k chatId); [congruence|]. apply Hp.
Qed.

End DebouncedSaveSeries.

(** X22. However the calls of the debounced save are spread over time,
    once the wait has passed after the last call nothing is pending, the
    value written last under the key of a chat is the snapshot of the latest
    call for that chat, and every value written under the key is a snapshot
    some call has passed for that chat. *)
Theorem debounced_save_loses_nothing
  (calls : list (Z * string * Chat.t)) (start now : Z) (chatId : string)
  (lastCall : Z * string * Chat.t) :
  DebouncedSave.chronological start calls ->
  last calls = Some lastCall ->
  (fst (fst lastCall) + DebouncedSave.wait <= now)%Z ->
  let c := DebouncedSave.elapse now (DebouncedSave.saveAll calls DebouncedSave.create) in
  DebouncedSave.pendingSaves c = [] /\
  last (DebouncedSave.writesFor chatId c)
  = VChat <$> last (DebouncedSave.snapshotsFor chatId calls) /\
  (forall v, In v (DebouncedSave.writesFor chatId c) ->
     exists chat, v = VChat chat /\ In chat (DebouncedSave.snapshotsFor chatId calls)).
Proof.
  intros _ Hlast Hnow c.
  assert (Hnd : List.NoDup (map fst (DebouncedSave.pendingSaves DebouncedSave.create)))
    by constructor.
  pose proof (DebouncedSaveSeries.saveAll_NoDup calls _ Hnd) as Hnd'.
  destruct lastCall as [[t k] chat]. cbn [fst] in Hnow.
  pose proof (DebouncedSaveSeries.timer_saveAll calls DebouncedSave.create t k chat Hlast)
    as Htimer.
  assert (Hpending : DebouncedSave.pendingSaves c = []).
  { subst c. unfold DebouncedSave.elapse. rewrite Htimer.
    destruct (Z.leb_spec (t + DebouncedSave.wait) now); [reflexivity|lia]. }
  split; [exact Hpending|]. split.
  - pose proof (DebouncedSaveSeries.latestSaved_elapse chatId now _ Hnd') as He.
    fold c in He. unfold latestSaved at 1 in He. rewrite Hpending in He.
    cbn [DebouncedSave.mapGet] in He. rewrite He.
    rewrite (DebouncedSaveSeries.latestSaved_saveAll chatId calls _ Hnd).
    destruct (last _); reflexivity.
  - apply (DebouncedSaveSeries.scheduled_elapse chatId _ now _ Hnd').
    apply (DebouncedSaveSeries.scheduled_saveAll chatId calls [] _ Hnd).
    split; [intros v []|discriminate].
Qed.

(** ** The provider names of the request *)

Lemma trimEnd_idem (s : string) : Js.trimEnd (Js.trimEnd s) = Js.trimEnd s.
Proof.
  induction s as [|c r IH]; [reflexivity|]. cbn [Js.trimEnd].
  destruct (Js.trimEnd r) as [|c' r'] eqn:E.
  - destruct (Js.isWhiteSpace c) eqn:Hc; [reflexivity|].
    cbn [Js.trimEnd]. now rewrite Hc.
  - change (Js.trimEnd (String c (String c' r')))
      with (match Js.trimEnd (String c' r') with
            | EmptyString =>
                if Js.isWhiteSpace c then EmptyString else String c EmptyString
            | String a b => String c (String a b)
            end).
    now rewrite IH.
Qed.

Lemma trimStart_head (c : ascii) (r : string) :
  Js.isWhiteSpace c = false -> Js.trimStart (Js.trimEnd (String c r)) = Js.trimEnd (String c r).
Proof.
  intros Hc. cbn [Js.trimEnd]. destruct (Js.trimEnd r); rewrite ?Hc; cbn [Js.trimStart];
    now rewrite Hc.
Qed.

Lemma trimStart_cases (s : string) :
  Js.trimStart s = EmptyString \/
  exists c r, Js.trimStart s = String c r /\ Js.isWhiteSpace c = false.
Proof.
  induction s as [|c r IH]; [now left|]. cbn [Js.trimStart].
  destruct (Js.isWhiteSpace c) eqn:Hc; [exact IH|]. right. eauto.
Qed.

Lemma trim_idem (s : string) : Js.trim (Js.trim s) = Js.trim s.
Proof.
  unfold Js.trim. destruct (trimStart_cases s) as [-> | (c & r & -> & Hc)]; [reflexivity|].
  rewrite (trimStart_head c r Hc). apply trimEnd_idem.
Qed.

Lemma includes_trimStart (c : ascii) (s : string) :
  includes c s = false -> includes c (Js.trimStart s) = false.
Proof.
  induction s as [|c' r IH]; [auto|]. cbn [Js.trimStart includes]. intros H.
  apply orb_false_iff in H as [H1 H2].
  destruct (Js.isWhiteSpace c'); [now apply IH|]. cbn [includes]. now rewrite H1, H2.
Qed.

Lemma includes_trimEnd (c : ascii) (s : string) :
  includes c s = false -> includes c (Js.trimEnd s) = false.
Proof.
  induction s as [|c' r IH]; [auto|]. cbn [Js.trimEnd includes]. intros H.
  apply orb_false_iff in H as [H1 H2]. specialize (IH H2).
  destruct (Js.trimEnd r) as [|a b].
  - destruct (Js.isWhiteSpace c'); [reflexivity|]. cbn [includes]. now rewrite H1.
  - cbn [includes] in *. now rewrite H1, IH.
Qed.

Lemma split_pieces (sep : ascii) (s : string) :
  Forall (fun piece => includes sep piece = false) (Js.split sep s).
Proof.
  induction s as [|c r IH]; [repeat constructor|]. cbn [Js.split].
  destruct (Ascii.eqb c sep) eqn:E; [constructor; [reflexivity|exact IH]|].
  destruct (Js.split sep r) as [|piece pieces]; [repeat constructor; cbn; now rewrite E|].
  inversion IH as [|? ? Hpiece Hpieces]; subst.
  constructor; [|exact Hpieces]. cbn [includes]. now rewrite E, Hpiece.
Qed.

Lemma providerNames_clean (s : string) : Forall cleanName (providerNames s).
Proof.
  unfold providerNames. apply List.Forall_forall. intros p Hp.
  apply filter_In in Hp as [Hin Htruthy]. apply in_map_iff in Hin as (piece & <- & Hpiece).
  pose proof (split_pieces "," s) as Hsplit.
  rewrite List.Forall_forall in Hsplit. specialize (Hsplit piece Hpiece).
  split; [|split].
  - intros Hempty. rewrite Hempty in Htruthy. discriminate.
  - apply trim_idem.
  - unfold Js.trim. now apply includes_trimEnd, includes_trimStart.
Qed.

(** X23. The provider part of a request, when there is one, always
    carries [allow_fallbacks] as the preset has it, sets at most one of
    [order], [only], [ignore] and [sort], and every name in a list it sends
    is clean: not empty, without white space around it, without a comma. *)
Theorem provider_config_clean (preset : Routing.t) :
  match requestProvider preset with
  | None => Routing.providerMode preset = mode_default
  | Some providerConfig =>
      Routing.providerMode preset <> mode_default /\
      ProviderConfig.allow_fallbacks providerConfig = Some (Routing.allowFallbacks preset) /\
      keySet (ProviderConfig.order providerConfig)
      + keySet (ProviderConfig.only providerConfig)
      + keySet (ProviderConfig.ignore providerConfig)
      + keySet (ProviderConfig.sort providerConfig) <= 1 /\
      forall names,
        In (Some names) [ProviderConfig.order providerConfig;
                         ProviderConfig.only providerConfig;
                         ProviderConfig.ignore providerConfig] ->
        Forall cleanName names
  end.
Proof.
  unfold requestProvider.
  destruct (Routing.providerMode preset); [reflexivity| | | |];
    (split; [discriminate|]); try destruct (Js.truthy _);
    cbn; (split; [reflexivity|]); (split; [lia|]);
    intros names H; repeat destruct H as [H|H]; try discriminate; try contradiction;
    injection H as <-; apply providerNames_clean.
Qed.

(** ** The variants that keep all chats in one array *)

Lemma fold_newest_spec {A} (created : A -> Z) (rest : list A) : forall first,
  In (fold_left (fun newest current =>
        if (created current >? created newest)%Z then current else newest) rest first)
     (first :: rest) /\
  Forall (fun m => (created m <= created (fold_left (fun newest current =>
        if (created current >? created newest)%Z then current else newest) rest first))%Z)
    (first :: rest).
Proof.
  induction rest as [|m rest IH]; intros first; cbn [fold_left].
  - split; [now left|]. repeat constructor. lia.
  - destruct (Z.gtb_spec (created m) (created first)) as [Hgt|Hle].
    + destruct (IH m) as [Hin Hall]. split; [now right|].
      inversion Hall as [|? ? Hm Hrest]; subst.
      constructor; [lia|]. constructor; assumption.
    + destruct (IH first) as [Hin Hall]. split.
      * destruct Hin as [<-|Hin]; [now left|right; now right].
      * inversion Hall as [|? ? Hf Hrest]; subst.
        constructor; [exact Hf|]. constructor; [lia|exact Hrest].
Qed.

(** X24. The renaming of default-named chats at start-up is idempotent:
    applied to its own result it changes nothing; and it changes names only,
    the identifiers and the messages of the chats staying as they are. *)
Theorem updateDefaultChatNames_idempotent (chats : list Chat.t) :
  Legacy.updateDefaultChatNames (Legacy.updateDefaultChatNames chats)
  = Legacy.updateDefaultChatNames chats /\
  map Chat.id (Legacy.updateDefaultChatNames chats) = map Chat.id chats /\
  map Chat.messages (Legacy.updateDefaultChatNames chats) = map Chat.messages chats.
Proof.
  unfold Legacy.updateDefaultChatNames. rewrite !map_map. repeat split; apply map_ext;
    intros chat;
    destruct (hasDefaultName chat) eqn:Hdefault; rewrite ?Hdefault; try reflexivity;
    destruct (find _ (Chat.messages chat)) as [m|] eqn:Hfind;
    rewrite ?Hdefault, ?Hfind; try reflexivity;
    destruct (Message.content m) as [content|ps] eqn:Hcontent;
    rewrite ?Hdefault, ?Hfind, ?Hcontent; try reflexivity;
    destruct (Js.truthy (Js.trim content)) eqn:Htext;
    rewrite ?Hdefault, ?Hfind, ?Hcontent, ?Htext; try reflexivity.
  destruct (hasDefaultName (Legacy.withName _ chat)); [|reflexivity].
  cbn [Legacy.withName Chat.messages]. rewrite Hfind, Hcontent, Htext. reflexivity.
Qed.

(** X25. Deleting a chat in the array variant removes the chats of that
    identifier and keeps the others in order; when the deleted chat was the
    active one, the active identifier becomes that of a remaining chat with
    the greatest creation time, or none when no chat remains; otherwise it
    stays. *)
Theorem legacy_delete_chat (chatId : string) (a : Legacy.App) :
  let after := Legacy.handleDeleteChat chatId a in
  Legacy.chats after
  = List.filter (fun chat => negb (String.eqb (Chat.id chat) chatId)) (Legacy.chats a) /\
  Forall (fun chat => Chat.id chat <> chatId) (Legacy.chats after) /\
  (Legacy.activeChatId a = Some chatId ->
   match Legacy.activeChatId after with
   | Some newestId =>
       exists newest,
         In newest (Legacy.chats after) /\ Chat.id newest = newestId /\
         Forall (fun chat => (Chat.created chat <= Chat.created newest)%Z)
           (Legacy.chats after)
   | None => Legacy.chats after = []
   end) /\
  (Legacy.activeChatId a <> Some chatId ->
   Legacy.activeChatId after = Legacy.activeChatId a).
Proof.
  intros after. subst after. unfold Legacy.handleDeleteChat.
  cbn [Legacy.chats Legacy.activeChatId].
  split; [reflexivity|]. split.
  { apply List.Forall_forall. intros chat Hin. apply filter_In in Hin as [_ Hne].
    now apply negb_true_iff, String.eqb_neq in Hne. }
  split.
  - intros Hactive. rewrite Hactive, bool_decide_eq_true_2 by reflexivity.
    destruct (List.filter _ _) as [|first rest]; [reflexivity|].
    cbn [Legacy.newestChat].
    destruct (fold_newest_spec Chat.created rest first) as [Hin Hall].
    eexists. split; [exact Hin|]. split; [reflexivity|exact Hall].
  - intros Hother. now rewrite bool_decide_eq_false_2.
Qed.

Lemma Forall2_map_self {A} (R : A -> A -> Prop) (f : A -> A) (l : list A) :
  (forall x, R x (f x)) -> Forall2 R l (map f l).
Proof. intros H. induction l; cbn [map]; constructor; auto. Qed.

Lemma Forall2_compose {A} (R S T : A -> A -> Prop) (l1 l2 l3 : list A) :
  (forall x y z, R x y -> S y z -> T x z) ->
  Forall2 R l1 l2 -> Forall2 S l2 l3 -> Forall2 T l1 l3.
Proof.
  intros H H12. revert l3. induction H12 as [|x y l1 l2 Hxy _ IH]; intros l3 H23.
  - inversion H23. constructor.
  - inversion H23 as [|? z ? l3' Hyz H23']; subst. constructor; eauto.
Qed.

Lemma answerOf_content (messageId text : string) (msgs : list Message.t) (chat : Chat.t) :
  answerOf messageId
    (withMessages
       (map (fun msg =>
          if String.eqb (Message.id msg) messageId
          then withContent (contentPlus (Message.content msg) text) msg
          else msg) msgs) chat)
  = map (fun c => contentPlus c text) (answerOf messageId (withMessages msgs chat)).
Proof.
  unfold answerOf. cbn [withMessages Chat.messages].
  induction msgs as [|m msgs IH]; [reflexivity|]. cbn [map List.filter].
  destruct (String.eqb (Message.id m) messageId) eqn:E.
  - cbn [withContent Message.id]. rewrite E. cbn [map withContent Message.content].
    now rewrite IH.
  - rewrite E. exact IH.
Qed.

Lemma answerOf_reasoning (messageId existing text : string) (msgs : list Message.t)
  (chat : Chat.t) :
  answerOf messageId
    (withMessages
       (map (fun msg =>
          if String.eqb (Message.id msg) existing
          then withReasoning (Js.orElse (Message.reasoning msg) EmptyString +:+ text) msg
          else msg) msgs) chat)
  = answerOf messageId (withMessages msgs chat).
Proof.
  unfold answerOf. cbn [withMessages Chat.messages].
  induction msgs as [|m msgs IH]; [reflexivity|]. cbn [map List.filter].
  destruct (String.eqb (Message.id m) existing);
    cbn [withReasoning Message.id];
    destruct (String.eqb (Message.id m) messageId); cbn [map]; now rewrite IH.
Qed.

Lemma answerOf_spliceInsert (messageId : string) (pos : Z) (m : Message.t)
  (msgs : list Message.t) (chat : Chat.t) :
  Message.id m <> messageId ->
  answerOf messageId (withMessages (spliceInsert pos m msgs) chat)
  = answerOf messageId (withMessages msgs chat).
Proof.
  intros Hne. unfold answerOf, spliceInsert. cbn [withMessages Chat.messages].
  set (n := Z.to_nat _). rewrite <- (firstn_skipn n msgs) at 3.
  rewrite !List.filter_app. cbn [List.filter].
  apply String.eqb_neq in Hne. now rewrite Hne.
Qed.

Section LegacyStream.

Variables (chatId messageId : string).
Hypothesis messageId_plain : Js.startsWith "reasoning-" messageId = false.

Lemma withMessages_self (chat : Chat.t) : withMessages (Chat.messages chat) chat = chat.
Proof. now destruct chat. Qed.

Lemma streamed_contentDelta (text : string) (chats : list Chat.t) :
  Forall2 (streamed chatId messageId (fun c => contentPlus c text)) chats
    (Legacy.contentDelta chatId messageId text chats).
Proof.
  apply Forall2_map_self. intros chat. unfold streamed.
  destruct (String.eqb (Chat.id chat) chatId); [|auto].
  split; [reflexivity|]. rewrite answerOf_content. now rewrite withMessages_self.
Qed.

Lemma streamed_reasoningDelta (newId text : string) (chats : list Chat.t) :
  Forall2 (streamed chatId messageId (fun c => c)) chats
    (Legacy.reasoningDelta chatId messageId newId text chats).
Proof.
  apply Forall2_map_self. intros chat. unfold streamed.
  destruct (String.eqb (Chat.id chat) chatId); [|auto].
  rewrite map_id. destruct (find _ _) as [existing|]; (split; [reflexivity|]).
  - rewrite answerOf_reasoning. now rewrite withMessages_self.
  - rewrite answerOf_spliceInsert; [now rewrite withMessages_self|].
    cbn [Message.id]. now apply not_prefixed.
Qed.

Lemma streamed_compose (f g : Content -> Content) (x y z : Chat.t) :
  streamed chatId messageId f x y -> streamed chatId messageId g y z ->
  streamed chatId messageId (fun c => g (f c)) x z.
Proof.
  unfold streamed. intros [Hid1 H1] [Hid2 H2]. rewrite Hid1 in H2.
  split; [congruence|].
  destruct (String.eqb (Chat.id x) chatId); [|congruence].
  rewrite H2, H1, map_map. reflexivity.
Qed.

Lemma streamed_onDelta (newId : string) (delta : Delta.t) (chats : list Chat.t) :
  Forall2 (streamed chatId messageId (fun c => match Delta.content delta with
                              | Some text => contentPlus c text
                              | None => c
                              end)) chats
    (Legacy.onDelta chatId messageId newId delta chats).
Proof.
  unfold Legacy.onDelta.
  assert (Hfirst : Forall2 (streamed chatId messageId (fun c => match Delta.content delta with
                                                | Some text => contentPlus c text
                                                | None => c
                                                end)) chats
                      match Delta.content delta with
                      | Some text => Legacy.contentDelta chatId messageId text chats
                      | None => chats
                      end).
  { destruct (Delta.content delta) as [text|]; [apply streamed_contentDelta|].
    rewrite <- (map_id chats) at 2. apply Forall2_map_self. intros chat.
    split; [reflexivity|]. destruct (String.eqb _ _); [now rewrite map_id|reflexivity]. }
  destruct (Delta.reasoning delta) as [text|]; [|exact Hfirst].
  eapply Forall2_compose; [|exact Hfirst|apply streamed_reasoningDelta].
  intros x y z Hxy Hyz. exact (streamed_compose _ _ x y z Hxy Hyz).
Qed.

Lemma streamed_ext (f g : Content -> Content) (x y : Chat.t) :
  (forall c, f c = g c) -> streamed chatId messageId f x y -> streamed chatId messageId g x y.
Proof.
  unfold streamed. intros Hfg [Hid H]. split; [exact Hid|].
  destruct (String.eqb _ _); [|exact H]. rewrite H. apply map_ext, Hfg.
Qed.

(** X26. In the array variant every delta goes through the whole array of
    chats; after any series of deltas the array has the same chats in the
    same places, a chat that is not the chat of the turn is exactly what it
    was, and in the chat of the turn the content of the assistant message is
    what it was with the answer texts of the deltas appended in the order of
    their arrival. *)
Theorem legacy_stream_in_arrival_order (steps : list (string * Delta.t))
  (chats : list Chat.t) :
  Forall2 (fun chat chat' =>
    Chat.id chat' = Chat.id chat /\
    if String.eqb (Chat.id chat) chatId
    then answerOf messageId chat'
         = map (fun c => fold_left contentPlus (answerTexts steps) c)
             (answerOf messageId chat)
    else chat' = chat) chats (legacyStream chatId messageId steps chats).
Proof.
  change (Forall2 (streamed chatId messageId (fun c => fold_left contentPlus (answerTexts steps) c))
            chats (legacyStream chatId messageId steps chats)).
  revert chats. induction steps as [|[newId delta] steps IH]; intros chats.
  - cbn. rewrite <- (map_id chats) at 2. apply Forall2_map_self. intros chat.
    split; [reflexivity|]. destruct (String.eqb _ _); [now rewrite map_id|reflexivity].
  - unfold legacyStream. cbn [fold_left].
    fold (legacyStream chatId messageId steps
            (Legacy.onDelta chatId messageId newId delta chats)).
    eapply Forall2_compose; [|apply (streamed_onDelta newId delta)|apply IH].
    intros x y z Hxy Hyz. eapply streamed_ext; [|exact (streamed_compose _ _ x y z Hxy Hyz)].
    intros c. unfold answerTexts. rewrite omap_cons_option_list. cbn [snd].
    destruct (Delta.content delta); reflexivity.
Qed.

End LegacyStream.

(** ** The preset of a request *)

Section PresetOfRequest.

Variable uuidv4 : nat -> string.

(** X27. The preset selected in a chat goes with the next chat: after a
    preset is selected and a new chat is created, the first send in the new
    chat asks with the system prompt of that preset, followed by the user
    message alone. *)
Theorem selected_preset_is_sent (created lastModified now : Z) (index : nat)
  (content : string) (a : App) (chat : Chat.t) (preset : Preset.t) :
  activeChat a = Some chat ->
  Js.truthy (apiKey a) = true ->
  presets a !! index = Some preset ->
  let chosen := handlePresetSelect index a in
  let fresh := handleCreateNewChat uuidv4 created lastModified chosen in
  Chat.activePresetIndex <$> activeChat fresh = Some index /\
  exists ctl,
    snd (handleSendMessage uuidv4 now content fresh) =
      Sending ctl (systemMessages preset
                   ++ map toApi (userMessages uuidv4 content fresh)).
Proof.
  intros Hchat Hkey Hpreset chosen fresh.
  assert (Hchosen : activeChat chosen =
            Some (Chat.mk (Chat.id chat) (Chat.name chat) (Chat.messages chat) index
                    (Chat.created chat))).
  { subst chosen. unfold handlePresetSelect. now rewrite Hchat. }
  destruct (handleCreateNewChat_spec uuidv4 created lastModified chosen)
    as (new & Hnew & _ & _ & Hempty & _ & Hindex & _).
  fold fresh in Hnew. rewrite Hchosen in Hindex. cbn in Hindex.
  split; [rewrite Hnew; cbn; now rewrite Hindex|].
  assert (Hkey' : Js.truthy (apiKey fresh) = true).
  { subst fresh chosen. unfold handlePresetSelect. rewrite Hchat. exact Hkey. }
  assert (Hpresets : presets fresh = presets a).
  { subst fresh chosen. unfold handlePresetSelect. rewrite Hchat. reflexivity. }
  destruct (handleSendMessage_started uuidv4 now content fresh new Hnew Hkey')
    as (_ & _ & _ & Hturn).
  rewrite Hindex, Hpresets, Hpreset, Hempty in Hturn. destruct Hturn as (Hsnd & _).
  eexists. exact Hsnd.
Qed.

End PresetOfRequest.

(** ** The further properties at the concrete installation *)

Lemma select_there_and_back_witness :
  activeChat Example.appA = Some Example.chatA /\
  activeChatId Example.appA = Some (Chat.id Example.chatA) /\
  loadChat (Chat.id Example.chatB) (db Example.appA) = Some Example.chatB /\
  Chat.id Example.chatB <> Chat.id Example.chatA /\
  let there := handleSelectChat (Chat.id Example.chatB) Example.appA in
  let back := handleSelectChat (Chat.id Example.chatA) there in
  activeChat there = Some Example.chatB /\
  activeChatId there = Some (Chat.id Example.chatB) /\
  loadChat (Chat.id Example.chatA) (db there) = Some Example.chatA /\
  activeChat back = Some Example.chatA /\
  activeChatId back = Some (Chat.id Example.chatA) /\
  loadChat (Chat.id Example.chatB) (db back) = Some Example.chatB.
Proof.
  assert (Hne : Chat.id Example.chatB <> Chat.id Example.chatA) by discriminate.
  assert (Hload : loadChat (Chat.id Example.chatB) (db Example.appA) = Some Example.chatB)
    by (vm_compute; reflexivity).
  exact (conj eq_refl (conj eq_refl (conj Hload (conj Hne
    (select_there_and_back Example.appA Example.chatA Example.chatB
       eq_refl eq_refl Hload Hne))))).
Defined.

Lemma select_missing_chat_witness :
  activeChat Example.appA = Some Example.chatA /\
  activeChatId Example.appA = Some (Chat.id Example.chatA) /\
  Chat.id Example.chatA <> "gone" /\
  loadChat "gone" (db Example.appA) = None /\
  let after := handleSelectChat "gone" Example.appA in
  activeChat after = Some Example.chatA /\
  activeChatId after = Some (Chat.id Example.chatA) /\
  loadChat (Chat.id Example.chatA) (db after) = Some Example.chatA /\
  alerts after = alerts Example.appA.
Proof.
  assert (Hne : Chat.id Example.chatA <> "gone") by discriminate.
  assert (Hload : loadChat "gone" (db Example.appA) = None) by (vm_compute; reflexivity).
  exact (conj eq_refl (conj eq_refl (conj Hne (conj Hload
    (select_missing_chat Example.appA Example.chatA "gone" eq_refl eq_refl Hne Hload))))).
Defined.

Lemma first_message_names_new_chat_witness :
  Js.truthy (apiKey Example.appB) = true /\
  Js.truthy "Hello there, how are you today?" = true /\
  let fresh := handleCreateNewChat Example.uuidv4 30 30 Example.appB in
  let sent :=
    fst (handleSendMessage Example.uuidv4 31 "Hello there, how are you today?" fresh) in
  Chat.name <$> activeChat sent
  = Some (Js.substring 0 20 (Js.trim "Hello there, how are you today?")) /\
  ChatMetadata.name <$> metadataOf (Example.uuidv4 (uuidCalls Example.appB)) sent
  = Some (Js.substring 0 20 (Js.trim "Hello there, how are you today?")).
Proof.
  exact (conj eq_refl (conj eq_refl
    (first_message_names_new_chat Example.uuidv4 30 30 31
       "Hello there, how are you today?" Example.appB eq_refl eq_refl))).
Defined.

Lemma rename_submit_witness :
  let after := handleRenameSubmit "b" "  Plans " Example.appB in
  Js.truthy (Js.trim "  Plans ") = true /\
  metadataOf "b" after = Some (ChatMetadata.mk "b" "Plans" 20 2 20) /\
  Chat.name <$> activeChat after = Some "Plans" /\
  handleRenameSubmit "b" "   " Example.appB = Example.appB.
Proof.
  cbv zeta.
  destruct (rename_submit "b" "  Plans " Example.appB) as [_ Hnamed].
  destruct (Hnamed eq_refl) as (Hmeta & _ & Hactive).
  destruct (rename_submit "b" "   " Example.appB) as [Hblank _].
  split; [reflexivity|]. split; [rewrite Hmeta; reflexivity|].
  split; [rewrite Hactive; reflexivity|]. exact (Hblank eq_refl).
Defined.

Lemma delete_inactive_chat_witness :
  activeChatId Example.appA <> Some "b" /\
  let after := handleDeleteChat "b" Example.appA in
  db after !! chatKey "b" = None /\
  metadataOf "b" after = None /\
  activeChat after = activeChat Example.appA /\
  activeChatId after = activeChatId Example.appA /\
  forall other, other <> "b" ->
    metadataOf other after = metadataOf other Example.appA /\
    loadChat other (db after) = loadChat other (db Example.appA).
Proof.
  assert (Hne : activeChatId Example.appA <> Some "b") by discriminate.
  exact (conj Hne (delete_inactive_chat "b" Example.appA Hne)).
Defined.

Lemma delete_active_chat_selects_newest_witness :
  activeChat Example.appA = Some Example.chatA /\
  activeChatId Example.appA = Some (Chat.id Example.chatA) /\
  newestOf (List.filter (fun meta =>
      negb (String.eqb (ChatMetadata.id meta) (Chat.id Example.chatA)))
      (chatMetadatas Example.appA)) = Some Example.metaB /\
  loadChat (ChatMetadata.id Example.metaB) (db Example.appA) = Some Example.chatB /\
  let after := handleDeleteChat (Chat.id Example.chatA) Example.appA in
  activeChat after = Some Example.chatB /\
  activeChatId after = Some (ChatMetadata.id Example.metaB) /\
  metadataOf (Chat.id Example.chatA) after = None /\
  metadataOf (ChatMetadata.id Example.metaB) after
  = metadataOf (ChatMetadata.id Example.metaB) Example.appA.
Proof.
  assert (Hload : loadChat (ChatMetadata.id Example.metaB) (db Example.appA)
                  = Some Example.chatB) by (vm_compute; reflexivity).
  exact (conj eq_refl (conj eq_refl (conj eq_refl (conj Hload
    (delete_active_chat_selects_newest Example.appA Example.chatA Example.chatB
       Example.metaB eq_refl eq_refl eq_refl Hload))))).
Defined.

Lemma counted_appA : counted Example.appA.
Proof.
  intros chat meta Hchat Hmeta. injection Hchat as <-.
  vm_compute in Hmeta. injection Hmeta as <-. reflexivity.
Defined.

Lemma message_count_kept_witness :
  counted Example.appA /\
  counted (fold_left (applyOp Example.uuidv4) Cases.ops Example.appA).
Proof.
  exact (conj counted_appA
    (message_count_kept Example.uuidv4 Cases.ops Example.appA counted_appA)).
Defined.

Lemma edit_saves_text_witness :
  let m := Message.mk "m1" user (Text "turn 1") None (Some regular) in
  activeChat Example.appB = Some Example.chatB /\
  In m (Chat.messages Example.chatB) /\
  Message.messageType m <> Some reasoning /\
  hasImageContent m = false /\
  (isStreaming Example.appB = false \/ Message.role m = user) /\
  exists chat' m',
    activeChat (editMessage 6 m "turn one" Example.appB) = Some chat' /\
    In m' (Chat.messages chat') /\
    Message.id m' = Message.id m /\
    getEditableContent m' = "turn one" /\
    copyText m' = "turn one" /\
    map Message.id (Chat.messages chat') = map Message.id (Chat.messages Example.chatB) /\
    List.filter (fun x => negb (String.eqb (Message.id x) (Message.id m)))
      (Chat.messages chat')
    = List.filter (fun x => negb (String.eqb (Message.id x) (Message.id m)))
        (Chat.messages Example.chatB).
Proof.
  intros m.
  assert (Hin : In m (Chat.messages Example.chatB)) by (left; reflexivity).
  assert (Htype : Message.messageType m <> Some reasoning) by discriminate.
  assert (Hallowed : isStreaming Example.appB = false \/ Message.role m = user)
    by (left; reflexivity).
  exact (conj eq_refl (conj Hin (conj Htype (conj eq_refl (conj Hallowed
    (edit_saves_text 6 m "turn one" Example.appB Example.chatB
       eq_refl Hin Htype eq_refl Hallowed)))))).
Defined.

Lemma reasoning_edit_is_lost_witness :
  activeChat Example.appB = Some Example.chatB /\
  exists chat',
    activeChat (handleUpdateMessage 6 "reasoning-m2" "rewritten" Example.appB)
    = Some chat' /\
    map (fun m => if notReasoning m then None else Some (getEditableContent m))
      (Chat.messages chat')
    = map (fun m => if notReasoning m then None else Some (getEditableContent m))
        (Chat.messages Example.chatB).
Proof.
  exact (conj eq_refl
    (reasoning_edit_is_lost 6 "reasoning-m2" "rewritten" Example.appB Example.chatB
       eq_refl)).
Defined.

Lemma appended_messages_alternate_witness :
  activeChat Example.appA = Some Example.chatA /\
  Chat.messages Example.chatA = [] /\
  exists chat',
    activeChat (appendAll Example.uuidv4 6 ["Question"; "Answer"; "Again"] Example.appA)
    = Some chat' /\
    map Message.role (Chat.messages chat') = alternating 3 /\
    map Message.content (Chat.messages chat')
    = map Text ["Question"; "Answer"; "Again"].
Proof.
  exact (conj eq_refl (conj eq_refl
    (appended_messages_alternate Example.uuidv4 6 ["Question"; "Answer"; "Again"]
       Example.appA Example.chatA eq_refl eq_refl))).
Defined.

Lemma paste_appends_one_image_witness :
  activeChat Example.appB = Some Example.chatB /\
  let after := pasteImage Example.uuidv4 6 "data:image/png;base64,AAAA" Example.appB in
  activeChat after =
    Some (Chat.mk (Chat.id Example.chatB) (Chat.name Example.chatB)
            (Chat.messages Example.chatB ++
             [Message.mk (Example.uuidv4 (uuidCalls Example.appB)) user
                (Parts [image_url_part "data:image/png;base64,AAAA"]) None
                (Some regular)])
            (Chat.activePresetIndex Example.chatB) (Chat.created Example.chatB)) /\
  ChatMetadata.messageCount <$> metadataOf (Chat.id Example.chatB) after
  = (fun _ => S (length (Chat.messages Example.chatB)))
      <$> metadataOf (Chat.id Example.chatB) Example.appB.
Proof.
  exact (conj eq_refl
    (paste_appends_one_image Example.uuidv4 6 "data:image/png;base64,AAAA"
       Example.appB Example.chatB eq_refl)).
Defined.

Lemma blank_input_continues_witness :
  activeChat Cases.asked = Some Cases.askedChat /\
  Js.truthy (apiKey Cases.asked) = true /\
  isLoading Cases.asked = false /\
  Js.trim "  " = EmptyString /\
  activeChat (fst (chatAreaSend Example.uuidv4 7 "  " Cases.asked)) =
    Some (Chat.mk "a" "Question"
            [Message.mk "uuid-0" user (Text "Question") None (Some regular);
             placeholder "uuid-1" EmptyString] 0 10).
Proof.
  exact (conj eq_refl (conj eq_refl (conj eq_refl (conj eq_refl
    (blank_input_continues Example.uuidv4 7 "  " Cases.asked Cases.askedChat
       eq_refl eq_refl eq_refl eq_refl))))).
Defined.

Lemma no_second_turn_while_streaming_witness :
  sendable Example.uuidv4 Example.appB Example.chatB /\
  Forall streamEvent Example.events /\
  let a' := fst (run Example.uuidv4 Json.decode
                   (FromWire (Response true true) :: Example.events)
                   (handleSendMessage Example.uuidv4 5 "turn 2" Example.appB)) in
  isLoading a' = true /\
  chatAreaSend Example.uuidv4 6 "turn 3" a' = (a', NotStarted) /\
  chatAreaAppend Example.uuidv4 6 "turn 3" a' = a'.
Proof.
  exact (conj sendable_appB (conj streamEvents_events
    (no_second_turn_while_streaming Example.uuidv4 Json.decode 5 6 "turn 2"
       Example.appB Example.chatB Example.events "turn 3"
       sendable_appB streamEvents_events))).
Defined.

Lemma refused_request_keeps_placeholder_witness :
  sendable Example.uuidv4 Example.appA Example.chatA /\
  refused (Response false true) /\
  let res := step Example.uuidv4 Json.decode
               (handleSendMessage Example.uuidv4 5 "Hello" Example.appA)
               (FromWire (Response false true)) in
  (exists name, snd res = Ended (Threw name)) /\
  activeChat (fst res) =
    Some (Chat.mk (Chat.id Example.chatA) (nameAfter "Hello" Example.chatA)
            (sentMessages Example.uuidv4 "Hello" Example.appA Example.chatA
             ++ [placeholder (Example.uuidv4 (uuidCalls Example.appA)) EmptyString])
            (Chat.activePresetIndex Example.chatA) (Chat.created Example.chatA)) /\
  alerts (fst res) =
    alerts Example.appA
    ++ ["Failed to send message. Please check your API key and try again."] /\
  idle (fst res).
Proof.
  exact (conj sendable_appA (conj eq_refl
    (refused_request_keeps_placeholder Example.uuidv4 Json.decode 5 "Hello"
       Example.appA Example.chatA (Response false true) sendable_appA eq_refl))).
Defined.

Lemma idleChunk_deltas : chunkDeltas Json.decode Cases.idleChunk = [].
Proof. vm_compute. reflexivity. Defined.

Lemma chunk_without_deltas_is_skipped_witness :
  chunkDeltas Json.decode Cases.idleChunk = [] /\
  let l := mkLoop 0 "Hel" EmptyString true in
  let res := readChunk Example.uuidv4 Json.decode (Scenario.switched, l) Cases.idleChunk in
  snd res = l /\
  activeChat (fst res) = activeChat Scenario.switched /\
  chatMetadatas (fst res) = chatMetadatas Scenario.switched /\
  alerts (fst res) = alerts Scenario.switched.
Proof.
  exact (conj idleChunk_deltas
    (chunk_without_deltas_is_skipped Example.uuidv4 Json.decode Cases.idleChunk
       Scenario.switched (mkLoop 0 "Hel" EmptyString true) idleChunk_deltas)).
Defined.

Lemma reload_restores_witness :
  Js.truthy (apiKey Example.appB) = true /\
  presets Example.appB <> [] /\
  newestOf (chatMetadatas Example.appB) = Some Example.metaB /\
  ChatMetadata.id Example.metaB <> "metadata" /\
  let b := loadData (initialApp (db (persist Example.appB))) in
  apiKey b = apiKey Example.appB /\
  chatMetadatas b = chatMetadatas Example.appB /\
  presets b = presets Example.appB /\
  activeChat b = loadChat (ChatMetadata.id Example.metaB) (db Example.appB) /\
  activeChatId b
  = Chat.id <$> loadChat (ChatMetadata.id Example.metaB) (db Example.appB).
Proof.
  assert (Hpresets : presets Example.appB <> []) by discriminate.
  assert (Hid : ChatMetadata.id Example.metaB <> "metadata") by discriminate.
  exact (conj eq_refl (conj Hpresets (conj eq_refl (conj Hid
    (reload_restores Example.appB Example.metaB eq_refl Hpresets eq_refl Hid))))).
Defined.

Lemma last_chat_returns_on_reload_witness :
  chatMetadatas Cases.lastOne <> [] /\
  getChatMetadata (db Cases.lastOne) = chatMetadatas Cases.lastOne /\
  List.filter (fun meta => negb (String.eqb (ChatMetadata.id meta) "a"))
    (chatMetadatas Cases.lastOne) = [] /\
  "a" <> "metadata" /\
  let after := persist (handleDeleteChat "a" Cases.lastOne) in
  chatMetadatas after = [] /\
  loadChat "a" (db after) = None /\
  chatMetadatas (loadData (initialApp (db after))) = chatMetadatas Cases.lastOne.
Proof.
  assert (Hsome : chatMetadatas Cases.lastOne <> []) by discriminate.
  assert (Hsaved : getChatMetadata (db Cases.lastOne) = chatMetadatas Cases.lastOne)
    by (vm_compute; reflexivity).
  assert (Hid : "a" <> "metadata") by discriminate.
  exact (conj Hsome (conj Hsaved (conj eq_refl (conj Hid
    (last_chat_returns_on_reload Cases.lastOne "a" Hsome Hsaved eq_refl Hid))))).
Defined.

Lemma spreadCalls_chronological : DebouncedSave.chronological 0 Cases.spreadCalls.
Proof. cbn. repeat split; lia. Defined.

Lemma debounced_save_loses_nothing_witness :
  DebouncedSave.chronological 0 Cases.spreadCalls /\
  last Cases.spreadCalls = Some (1600%Z, "a", Example.chatA2) /\
  (1600 + DebouncedSave.wait <= 2600)%Z /\
  let c := DebouncedSave.elapse 2600
             (DebouncedSave.saveAll Cases.spreadCalls DebouncedSave.create) in
  DebouncedSave.pendingSaves c = [] /\
  last (DebouncedSave.writesFor "a" c)
  = VChat <$> last (DebouncedSave.snapshotsFor "a" Cases.spreadCalls) /\
  (forall v, In v (DebouncedSave.writesFor "a" c) ->
     exists chat,
       v = VChat chat /\ In chat (DebouncedSave.snapshotsFor "a" Cases.spreadCalls)).
Proof.
  assert (Hnow : (1600 + DebouncedSave.wait <= 2600)%Z)
    by (unfold DebouncedSave.wait; lia).
  exact (conj spreadCalls_chronological (conj eq_refl (conj Hnow
    (debounced_save_loses_nothing Cases.spreadCalls 0 2600 "a"
       (1600%Z, "a", Example.chatA2) spreadCalls_chronological eq_refl Hnow)))).
Defined.

Lemma legacy_delete_chat_witness :
  let after := Legacy.handleDeleteChat "a" Cases.legacyApp in
  Legacy.activeChatId Cases.legacyApp = Some "a" /\
  Legacy.chats after = [Example.chatB] /\
  Legacy.activeChatId after = Some "b".
Proof.
  cbv zeta.
  destruct (legacy_delete_chat "a" Cases.legacyApp) as (Hchats & _ & Hactive & _).
  specialize (Hactive eq_refl).
  split; [reflexivity|]. split; [exact Hchats|].
  destruct (Legacy.activeChatId (Legacy.handleDeleteChat "a" Cases.legacyApp))
    as [newestId|] eqn:E; [|discriminate Hactive].
  destruct Hactive as (newest & Hin & <- & _).
  rewrite Hchats in Hin. destruct Hin as [<-|[]]. reflexivity.
Defined.

Lemma legacy_stream_in_arrival_order_witness :
  Js.startsWith "reasoning-" "m" = false /\
  Forall2 (fun chat chat' =>
    Chat.id chat' = Chat.id chat /\
    if String.eqb (Chat.id chat) "a"
    then answerOf "m" chat'
         = map (fun c => fold_left contentPlus (answerTexts Cases.legacySteps) c)
             (answerOf "m" chat)
    else chat' = chat)
    (Legacy.chats Cases.legacyApp)
    (legacyStream "a" "m" Cases.legacySteps (Legacy.chats Cases.legacyApp)).
Proof.
  exact (conj eq_refl
    (legacy_stream_in_arrival_order "a" "m" eq_refl Cases.legacySteps
       (Legacy.chats Cases.legacyApp))).
Defined.

Lemma selected_preset_is_sent_witness :
  activeChat Cases.twoPresets = Some Example.chatB /\
  Chat.activePresetIndex Example.chatB = 0 /\
  Js.truthy (apiKey Cases.twoPresets) = true /\
  presets Cases.twoPresets !! 1 = Some Cases.preset2 /\
  let chosen := handlePresetSelect 1 Cases.twoPresets in
  let fresh := handleCreateNewChat Example.uuidv4 30 30 chosen in
  Chat.activePresetIndex <$> activeChat fresh = Some 1 /\
  (exists ctl,
     snd (handleSendMessage Example.uuidv4 31 "Hello" fresh) =
       Sending ctl (systemMessages Cases.preset2
                    ++ map toApi (userMessages Example.uuidv4 "Hello" fresh))) /\
  snd (handleSendMessage Example.uuidv4 31 "Hello" fresh) =
    Sending 0 [mkApiMessage system (Text "Be thorough.");
               mkApiMessage user (Text "Hello")].
Proof.
  destruct (selected_preset_is_sent Example.uuidv4 30 30 31 1 "Hello" Cases.twoPresets
              Example.chatB Cases.preset2 eq_refl eq_refl eq_refl) as [Hindex Hsent].
  exact (conj eq_refl (conj eq_refl (conj eq_refl (conj eq_refl
    (conj Hindex (conj Hsent eq_refl)))))).
Defined.
